(** * ctc: binary codec and Gnosis Safe signature parsing

    A shallow embedding of [ctc/binary/formats.py] and
    [ctc/protocols/gnosis_utils/gnosis_safe_transactions.py], followed by
    the properties of the codec, of the signature splitter and classifier,
    of the signer resolver and of the call-data bridge. *)

From Stdlib Require Import ZArith Lia List.
From Stdlib.Strings Require Import Ascii String Byte.
From stdpp Require Import base option list strings gmap.

Local Open Scope Z_scope.

(* ===================================================================== *)
(** * Python values and failures *)
(* ===================================================================== *)

(** The Python objects that flow through the codec: [bytes], [str], [int],
    and [None] (which is what an omitted keyword argument holds, and which
    stands for any object that is none of the three). *)
Inductive pyval :=
  | PBytes (b : list byte)
  | PStr (s : string)
  | PInt (z : Z)
  | PNone.

(** The source raises plain [Exception]s told apart by their message; each
    raise site gets a constructor, named after the failure it reports. *)
Inductive error :=
  | UnrecognizedTypeError     (* 'could not detect format', 'unknown data type',
                                 'unknown input data format' *)
  | OddLengthError            (* 'hex data must have even number of characters' *)
  | NegativeValueError        (* 'only positive integers allowed' *)
  | LengthMismatchError       (* 'data does not have target length' *)
  | PadTooSmallError          (* 'pad size too small for data' *)
  | InvalidBinaryFormatError  (* 'invalid binary format: ...' *)
  | TruncatedSignatureError   (* assert len(signature) == 65 *)
  | UnknownSignatureTypeError (* 'unknown signature type: ...' *)
  | UnknownSignaturesFormatError (* 'unknown signatures format: ...' *)
  | MissingInputsError        (* 'must specify safe_transaction_hash or ...' *)
  | InvalidSignatureError     (* raised by binary.recover_signer_address *)
  | DecodeError               (* raised by binary.decode_call_data *)
  | HashError                 (* raised by binary.eip712_hash *)
  | KeyError                  (* d[k] with k not in d *)
  | TypeError                 (* an operator applied to the wrong kind of object *)
  | ValueError                (* int(s, 16), bytes.fromhex, to_bytes(-1, ...) *)
  | OverflowError             (* int.to_bytes: 'int too big to convert' *)
  | OutOfFuel.                (* the bound of the model's loop; never returned *)

Inductive result (A : Type) :=
  | OK (a : A)
  | Err (e : error).
Arguments OK {A} a.
Arguments Err {A} e.

Definition bind {A B} (m : result A) (k : A -> result B) : result B :=
  match m with
  | OK a => k a
  | Err e => Err e
  end.

Notation "'let*' x ':=' m 'in' k" := (bind m (fun x => k))
  (at level 10, x pattern, m at level 100, k at level 200).

Definition is_ok {A} (m : result A) : Prop := exists a, m = OK a.

Inductive BinaryFormat := binary | prefix_hex | raw_hex | integer.

Inductive PadSide := left_side | right_side.

(* ===================================================================== *)
(** * The Python built-ins the codec calls *)
(* ===================================================================== *)

Definition byte_val (b : byte) : Z := Z.of_N (Byte.to_N b).

Definition byte_of_Z (z : Z) : byte :=
  match Byte.of_N (Z.to_N (z mod 256)) with
  | Some b => b
  | None => x00
  end.

(** [len(s)] *)
Definition str_len (s : string) : Z := Z.of_nat (String.length s).
Definition bytes_len (b : list byte) : Z := Z.of_nat (List.length b).

(** [s[n:]] for [0 <= n] *)
Fixpoint str_drop (n : nat) (s : string) : string :=
  match n, s with
  | O, _ => s
  | S n', EmptyString => EmptyString
  | S n', String _ r => str_drop n' r
  end.

(** [s.startswith(p)] *)
Definition startswith (s p : string) : bool := String.prefix p s.

(** [s * k]: [k] copies of [s], none when [k <= 0] *)
Fixpoint str_repeat_nat (s : string) (k : nat) : string :=
  match k with
  | O => EmptyString
  | S k' => s +:+ str_repeat_nat s k'
  end.
Definition str_repeat (s : string) (k : Z) : string :=
  str_repeat_nat s (Z.to_nat k).

(** [b * k] on bytes *)
Fixpoint bytes_repeat_nat (b : list byte) (k : nat) : list byte :=
  match k with
  | O => []
  | S k' => b ++ bytes_repeat_nat b k'
  end.
Definition bytes_repeat (b : list byte) (k : Z) : list byte :=
  bytes_repeat_nat b (Z.to_nat k).

(** [bytes(n)]: [n] zero bytes, so [bytes(0)] is the empty bytes object. *)
Definition bytes_zeros (n : Z) : list byte := repeat x00 (Z.to_nat n).

(** Value of a hexadecimal digit, either case, from its code point:
    [0-9] are 48 to 57, [A-F] are 65 to 70, [a-f] are 97 to 102. *)
Definition hex_digit (c : ascii) : option Z :=
  let code := Z.of_N (N_of_ascii c) in
  if (48 <=? code) && (code <=? 57) then Some (code - 48)
  else if (97 <=? code) && (code <=? 102) then Some (code - 87)
  else if (65 <=? code) && (code <=? 70) then Some (code - 55)
  else None.

Definition is_hex_digit (c : ascii) : bool :=
  match hex_digit c with Some _ => true | None => false end.

Fixpoint all_hex (s : string) : bool :=
  match s with
  | EmptyString => true
  | String c r => is_hex_digit c && all_hex r
  end.

(** The lower-case digit [bytes.hex()] prints for a value below 16. *)
Definition hex_char (d : Z) : ascii :=
  match d with
  | 0 => "0" | 1 => "1" | 2 => "2" | 3 => "3" | 4 => "4" | 5 => "5"
  | 6 => "6" | 7 => "7" | 8 => "8" | 9 => "9" | 10 => "a" | 11 => "b"
  | 12 => "c" | 13 => "d" | 14 => "e" | _ => "f"
  end%char.

(** [b.hex()] *)
Fixpoint bytes_hex (b : list byte) : string :=
  match b with
  | [] => EmptyString
  | x :: r =>
      String (hex_char (byte_val x / 16))
        (String (hex_char (byte_val x mod 16)) (bytes_hex r))
  end.

(** [bytes.fromhex(s)] on strings of hexadecimal digits: two digits per
    byte, [ValueError] on a non-digit or on a trailing single digit.
    (Python also skips ASCII whitespace between bytes; strings with
    whitespace are outside the model and are rejected here.) *)
Fixpoint bytes_fromhex (s : string) : result (list byte) :=
  match s with
  | EmptyString => OK []
  | String _ EmptyString => Err ValueError
  | String c1 (String c2 r) =>
      match hex_digit c1, hex_digit c2 with
      | Some h, Some l =>
          let* bs := bytes_fromhex r in OK (byte_of_Z (16 * h + l) :: bs)
      | _, _ => Err ValueError
      end
  end.

(** Value of a string of hexadecimal digits read most significant first,
    continuing from [acc]; [None] on a non-digit. *)
Fixpoint hex_value (acc : Z) (s : string) : option Z :=
  match s with
  | EmptyString => Some acc
  | String c r =>
      match hex_digit c with
      | Some d => hex_value (16 * acc + d) r
      | None => None
      end
  end.

(** [int(s, 16)] on strings of hexadecimal digits with an optional [0x] or
    [0X] prefix; [ValueError] when no digit follows or on a non-digit.
    (Python also accepts surrounding whitespace, a sign and single
    underscores between digits; such strings are outside the model and are
    rejected here.) *)
Definition int_base16 (s : string) : result Z :=
  let digits :=
    if startswith s "0x" || startswith s "0X" then str_drop 2 s else s in
  match digits with
  | EmptyString => Err ValueError
  | _ => match hex_value 0 digits with
         | Some v => OK v
         | None => Err ValueError
         end
  end.

(** [int.from_bytes(b, 'big')] *)
Definition int_from_bytes (b : list byte) : Z :=
  fold_left (fun acc x => acc * 256 + byte_val x) b 0.

(** The [k] low base-256 digits of [v], most significant first. *)
Fixpoint be_bytes (k : nat) (v : Z) : list byte :=
  match k with
  | O => []
  | S k' => be_bytes k' (v / 256) ++ [byte_of_Z (v mod 256)]
  end.

(** [v.to_bytes(n, 'big')] *)
Definition int_to_bytes (v n : Z) : result (list byte) :=
  if n <? 0 then Err ValueError
  else if v <? 0 then Err OverflowError
  else if 256 ^ n <=? v then Err OverflowError
  else OK (be_bytes (Z.to_nat n) v).

(** [v.bit_length()] *)
Definition bit_length (v : Z) : Z :=
  if v =? 0 then 0 else Z.log2 (Z.abs v) + 1.

(** [s.lstrip('0')] *)
Fixpoint lstrip0 (s : string) : string :=
  match s with
  | EmptyString => EmptyString
  | String c r => if Ascii.eqb c "0" then lstrip0 r else s
  end.

(* ===================================================================== *)
(** * ctc/binary/formats.py *)
(* ===================================================================== *)

Definition get_binary_format (data : pyval) : result BinaryFormat :=
  match data with
  | PBytes _ => OK binary
  | PStr s => if startswith s "0x" then OK prefix_hex else OK raw_hex
  | PInt _ => OK integer
  | PNone => Err UnrecognizedTypeError
  end.

Definition get_binary_n_bytes (data : pyval) : result Z :=
  match data with
  | PBytes b => OK (bytes_len b)
  | PStr s =>
      if negb (str_len s mod 2 =? 0) then Err OddLengthError
      else if startswith s "0x" then OK (str_len s / 2 - 1)
      else OK (str_len s / 2)
  | PInt z =>
      if z <? 0 then Err NegativeValueError
      else OK ((bit_length z + 7) / 8)
  | PNone => Err UnrecognizedTypeError
  end.

(** [convert(data, output_format, n_bytes=..., keep_leading_0=...)].
    [len(raw_data) / 2 != n_bytes] is a float comparison, which holds
    exactly when [len(raw_data)] is not twice [n_bytes]. *)
Definition convert (data : pyval) (output_format : option BinaryFormat)
    (n_bytes : option Z) (keep_leading_0 : option bool) : result pyval :=
  let output_format :=
    match output_format with None => prefix_hex | Some f => f end in
  match data with
  | PStr data =>
      let raw_data := if startswith data "0x" then str_drop 2 data else data in
      let mismatch :=
        match n_bytes with
        | Some n => negb (str_len raw_data =? 2 * n)
        | None => false
        end in
      if mismatch then Err LengthMismatchError
      else
        match output_format with
        | prefix_hex => OK (PStr ("0x" +:+ raw_data))
        | raw_hex => OK (PStr raw_data)
        | binary =>
            let raw_data :=
              if str_len raw_data mod 2 =? 1 then "0" +:+ raw_data
              else raw_data in
            let* b := bytes_fromhex raw_data in OK (PBytes b)
        | integer => let* v := int_base16 data in OK (PInt v)
        end
  | PBytes data =>
      let mismatch :=
        match n_bytes with
        | Some n => negb (bytes_len data =? n)
        | None => false
        end in
      if mismatch then Err LengthMismatchError
      else
        match output_format with
        | binary => OK (PBytes data)
        | prefix_hex => OK (PStr ("0x" +:+ bytes_hex data))
        | raw_hex => OK (PStr (bytes_hex data))
        | integer => OK (PInt (int_from_bytes data))
        end
  | PInt data =>
      if data <? 0 then Err NegativeValueError
      else
        match output_format with
        | integer => OK (PInt data)
        | _ =>
            let keep_leading_0 :=
              match keep_leading_0 with None => true | Some k => k end in
            let* n_bytes :=
              match n_bytes with
              | None => get_binary_n_bytes (PInt data)
              | Some n => OK n
              end in
            let* as_bytes := int_to_bytes data n_bytes in
            match output_format with
            | binary => OK (PBytes as_bytes)
            | _ =>
                let as_hex := bytes_hex as_bytes in
                let as_hex :=
                  if negb keep_leading_0 then
                    let as_hex := lstrip0 as_hex in
                    if data =? 0 then "0"%string else as_hex
                  else as_hex in
                match output_format with
                | prefix_hex => OK (PStr ("0x" +:+ as_hex))
                | _ => OK (PStr as_hex)
                end
            end
        end
  | PNone => Err UnrecognizedTypeError
  end.

(** [add_binary_pad(data, pad_side=..., padded_size=...)].  The binary
    branch multiplies [bytes(0)], the empty bytes object, by [pad_bytes]. *)
Definition add_binary_pad (data : pyval) (pad_side : option PadSide)
    (padded_size : option Z) : result pyval :=
  let pad_side := match pad_side with None => left_side | Some p => p end in
  let padded_size := match padded_size with None => 32 | Some n => n end in
  let* binary_format := get_binary_format data in
  let* data_bytes := get_binary_n_bytes data in
  if padded_size <? data_bytes then Err PadTooSmallError
  else
    let pad_bytes := padded_size - data_bytes in
    match binary_format, data with
    | binary, PBytes data =>
        match pad_side with
        | left_side => OK (PBytes (bytes_repeat (bytes_zeros 0) pad_bytes ++ data))
        | right_side => OK (PBytes (data ++ bytes_repeat (bytes_zeros 0) pad_bytes))
        end
    | prefix_hex, PStr data =>
        match pad_side with
        | left_side =>
            OK (PStr ("0x" +:+ str_repeat (str_repeat "0" 2) pad_bytes
                        +:+ str_drop 2 data))
        | right_side =>
            OK (PStr (data +:+ str_repeat (str_repeat "0" 2) pad_bytes))
        end
    | raw_hex, PStr data =>
        match pad_side with
        | left_side => OK (PStr (str_repeat (str_repeat "0" 2) pad_bytes +:+ data))
        | right_side => OK (PStr (data +:+ str_repeat (str_repeat "0" 2) pad_bytes))
        end
    | _, _ => Err InvalidBinaryFormatError
    end.

Definition match_format (format_this like_this : pyval) (match_pad : bool)
    : result pyval :=
  let* output_format := get_binary_format like_this in
  let* output := convert format_this (Some output_format) None None in
  if match_pad then
    let* padded_size := get_binary_n_bytes like_this in
    add_binary_pad output None (Some padded_size)
  else OK output.

(* ===================================================================== *)
(** * ctc/protocols/gnosis_utils/gnosis_safe_transactions.py *)
(* ===================================================================== *)

(** A Python dict with string keys, as the parsed signatures, the decoded
    call-data parameters and the safe transaction are. *)
Definition dict_of (items : list (string * pyval)) : gmap string pyval :=
  list_to_map items.

(** [d[k]] *)
Definition getitem (d : gmap string pyval) (k : string) : result pyval :=
  match d !! k with
  | Some v => OK v
  | None => Err KeyError
  end.

(** [v == s] for a string literal [s] *)
Definition str_eq (v : pyval) (s : string) : bool :=
  match v with
  | PStr s' => String.eqb s' s
  | _ => false
  end.

(** [v is None] *)
Definition is_none (v : pyval) : bool :=
  match v with
  | PNone => true
  | _ => false
  end.

(** [b[-k:]] on bytes: the last [k] of them, all of [b] when it is shorter. *)
Definition bytes_suffix (k : nat) (b : list byte) : list byte :=
  drop (List.length b - k)%nat b.

(** [min(l)] *)
Definition list_min (l : list Z) : result Z :=
  match l with
  | [] => Err ValueError
  | p :: ps => OK (fold_left Z.min ps p)
  end.

(** Lines 26 to 62 of [parse_safe_signatures]: the assertion on the length
    of one in-line record and the branch on its trailing type byte, up to
    the dict it builds.  (The two appends of the [eip1271] branch are in
    [parse_loop], which runs them after this.) *)
Definition parse_signature (signature : list byte)
    : result (gmap string pyval) :=
  if negb (bytes_len signature =? 65) then Err TruncatedSignatureError
  else
    let signature_type := byte_val (List.last signature x00) in
    if (31 >? signature_type) && (signature_type >? 26) then
      let* sg := convert (PBytes signature) (Some prefix_hex) None None in
      let* r := convert (PBytes (take 32 signature)) (Some integer) None None in
      let* s := convert (PBytes (take 32 (drop 32 signature)))
                  (Some integer) None None in
      let* v := convert (PInt signature_type) (Some integer) None None in
      OK (dict_of [("type", PStr "ecdsa"); ("signature", sg);
                   ("r", r); ("s", s); ("v", v)])
    else if signature_type >? 30 then
      let* sg := convert (PBytes signature) (Some prefix_hex) None None in
      let* r := convert (PBytes (take 32 signature)) (Some integer) None None in
      let* s := convert (PBytes (take 32 (drop 32 signature)))
                  (Some integer) None None in
      let* v := convert (PInt (signature_type - 4)) (Some integer) None None in
      OK (dict_of [("type", PStr "eth_sign"); ("signature", sg);
                   ("r", r); ("s", s); ("v", v)])
    else if signature_type =? 0 then
      let* sg := convert (PBytes signature) (Some prefix_hex) None None in
      let* verifier :=
        convert (PBytes (bytes_suffix 20 (take 32 signature)))
          (Some prefix_hex) None None in
      let* position :=
        convert (PBytes (take 32 (drop 32 signature)))
          (Some integer) None None in
      OK (dict_of [("type", PStr "eip1271"); ("signature", sg);
                   ("verifier", verifier); ("position", position)])
    else if signature_type =? 1 then
      let* sg := convert (PBytes signature) (Some prefix_hex) None None in
      let* validator :=
        convert (PBytes (bytes_suffix 20 (take 32 signature)))
          (Some prefix_hex) None None in
      OK (dict_of [("type", PStr "prevalidated"); ("signature", sg);
                   ("validator", validator)])
    else Err UnknownSignatureTypeError.

(** The local variables of the [while True] loop. *)
Record parse_state := {
  as_bytes : list byte;
  eip_1271_positions : list Z;
  eip_1271_indices : list Z;
  s : Z;
  parsed_signatures : list (gmap string pyval);
}.

(** The [while True] loop, one iteration per unit of fuel. *)
Fixpoint parse_loop (fuel : nat) (st : parse_state)
    : result (list (gmap string pyval)) :=
  match fuel with
  | O => Err OutOfFuel
  | S fuel' =>
      let signature := take 65 (as_bytes st) in
      let as_bytes' := drop 65 (as_bytes st) in
      let* parsed := parse_signature signature in
      let signature_type := byte_val (List.last signature x00) in
      let* positions :=
        if signature_type =? 0 then
          let* position := getitem parsed "position" in
          match position with
          | PInt position => OK (eip_1271_positions st ++ [position])
          | _ => Err TypeError
          end
        else OK (eip_1271_positions st) in
      let indices :=
        if signature_type =? 0 then eip_1271_indices st ++ [s st]
        else eip_1271_indices st in
      let parsed_signatures' := parsed_signatures st ++ [parsed] in
      let s' := s st + 1 in
      if bytes_len as_bytes' =? 0 then OK parsed_signatures'
      else
        let* stop :=
          if 0 <? Z.of_nat (List.length positions) then
            let* m := list_min positions in OK (s' * 65 >=? m)
          else OK false in
        if stop then OK parsed_signatures'
        else
          parse_loop fuel'
            {| as_bytes := as_bytes';
               eip_1271_positions := positions;
               eip_1271_indices := indices;
               s := s';
               parsed_signatures := parsed_signatures' |}
  end.

Definition parse_safe_signatures (signatures : pyval)
    : result (list (gmap string pyval)) :=
  let* as_bytes := convert signatures (Some binary) None None in
  match as_bytes with
  | PBytes as_bytes =>
      parse_loop (S (List.length as_bytes))
        {| as_bytes := as_bytes;
           eip_1271_positions := [];
           eip_1271_indices := [];
           s := 0;
           parsed_signatures := [] |}
  | _ => Err TypeError
  end.

(** The [signatures] argument of the resolver: a list of parsed
    signatures, or any other object ([str], [bytes], [None], ...). *)
Inductive signatures_arg :=
  | SigList (l : list (gmap string pyval))
  | SigObj (v : pyval).

(** What [binary.decode_call_data] returns, of which only the entry
    ['named_parameters'] is read. *)
Record decoded := { named_parameters : gmap string pyval }.

Section gnosis_safe_transactions.

(** The external collaborators: [None] is their failure. *)
Context {function_abi struct_type : Type}.
Context (recover_signer_address :
           pyval -> pyval * pyval * pyval -> option pyval).
Context (decode_call_data : pyval -> function_abi -> option decoded).
Context (eip712_hash :
           gmap string pyval -> struct_type -> gmap string pyval
           -> option pyval).
(** [gnosis_safe_spec.function_abis['execTransaction']],
    [gnosis_safe_spec.safe_transaction_type] and
    [gnosis_safe_spec.safe_transaction_keys]. *)
Context (execTransaction_abi : function_abi).
Context (safe_transaction_type : struct_type).
Context (safe_transaction_keys : list string).

Definition external {A} (e : error) (o : option A) : result A :=
  match o with
  | Some a => OK a
  | None => Err e
  end.

(** The body of the [for signature in parsed_signatures] loop. *)
Definition signer_of (safe_transaction_hash : pyval)
    (signature : gmap string pyval) : result pyval :=
  let* ty := getitem signature "type" in
  if str_eq ty "ecdsa" || str_eq ty "eth_sign" then
    let* v := getitem signature "v" in
    let* r := getitem signature "r" in
    let* s := getitem signature "s" in
    external InvalidSignatureError
      (recover_signer_address safe_transaction_hash (v, r, s))
  else if str_eq ty "eip1271" then getitem signature "verifier"
  else if str_eq ty "prevalidated" then getitem signature "validator"
  else Err UnknownSignatureTypeError.

Fixpoint signers_loop (safe_transaction_hash : pyval)
    (parsed_signatures : list (gmap string pyval)) (signers : list pyval)
    : result (list pyval) :=
  match parsed_signatures with
  | [] => OK signers
  | signature :: rest =>
      let* signer := signer_of safe_transaction_hash signature in
      signers_loop safe_transaction_hash rest (signers ++ [signer])
  end.

Definition _get_safe_transaction_signers (signatures : signatures_arg)
    (safe_transaction_hash : pyval) : result (list pyval) :=
  let* parsed_signatures :=
    match signatures with
    | SigList l => OK l
    | SigObj (PStr _ as d) | SigObj (PBytes _ as d) => parse_safe_signatures d
    | SigObj _ => Err UnknownSignaturesFormatError
    end in
  signers_loop safe_transaction_hash parsed_signatures [].

Definition hash_safe_transaction (safe_transaction : gmap string pyval)
    (chain_id safe_address : pyval) : result pyval :=
  let domain :=
    dict_of [("chain_id", chain_id); ("verifying_contract", safe_address)] in
  external HashError (eip712_hash safe_transaction safe_transaction_type domain).

(** [{key: parameters[key] for key in keys if key != 'nonce'}], the
    entries added to [acc] in the order of [keys]. *)
Fixpoint copy_parameters (keys : list string)
    (parameters acc : gmap string pyval) : result (gmap string pyval) :=
  match keys with
  | [] => OK acc
  | key :: rest =>
      if negb (String.eqb key "nonce") then
        let* v := getitem parameters key in
        copy_parameters rest parameters (<[key := v]> acc)
      else copy_parameters rest parameters acc
  end.

Definition get_safe_transaction_from_call_data (call_data nonce : pyval)
    : result (gmap string pyval) :=
  let* decoded :=
    external DecodeError (decode_call_data call_data execTransaction_abi) in
  let parameters := named_parameters decoded in
  let* safe_transaction :=
    copy_parameters safe_transaction_keys parameters ∅ in
  OK (<["nonce" := nonce]> safe_transaction).

Definition get_safe_signatures_from_call_data (call_data : pyval)
    : result (list (gmap string pyval)) :=
  let* decoded :=
    external DecodeError (decode_call_data call_data execTransaction_abi) in
  let parameters := named_parameters decoded in
  let* raw_signatures := getitem parameters "signatures" in
  parse_safe_signatures raw_signatures.

Definition get_safe_transaction_signers (signatures : signatures_arg)
    (safe_transaction_hash : pyval)
    (safe_transaction : option (gmap string pyval))
    (chain_id safe_address call_data nonce : pyval) : result (list pyval) :=
  let* signatures :=
    match signatures with
    | SigObj PNone =>
        let* l := get_safe_signatures_from_call_data call_data in
        OK (SigList l)
    | _ => OK signatures
    end in
  let* safe_transaction_hash :=
    if is_none safe_transaction_hash then
      if is_none call_data || is_none nonce || is_none chain_id
         || is_none safe_address
      then Err MissingInputsError
      else
        let* safe_transaction :=
          get_safe_transaction_from_call_data call_data nonce in
        hash_safe_transaction safe_transaction chain_id safe_address
    else OK safe_transaction_hash in
  _get_safe_transaction_signers signatures safe_transaction_hash.

End gnosis_safe_transactions.

(* ===================================================================== *)
(** * ctc/binary/formats.py: the ASCII helpers *)
(* ===================================================================== *)

(** [s.encode('ascii')]: the code point of each character, below 128;
    [UnicodeEncodeError], a [ValueError], on any other character.  (A
    string of the model holds code points below 256.) *)
Fixpoint str_encode_ascii (s : string) : result (list byte) :=
  match s with
  | EmptyString => OK []
  | String c r =>
      if byte_val (byte_of_ascii c) <? 128 then
        let* bs := str_encode_ascii r in OK (byte_of_ascii c :: bs)
      else Err ValueError
  end.

(** [b.decode('ascii')]: [UnicodeDecodeError], a [ValueError], on a byte
    of 128 or more. *)
Fixpoint bytes_decode_ascii (b : list byte) : result string :=
  match b with
  | [] => OK EmptyString
  | x :: r =>
      if byte_val x <? 128 then
        let* s := bytes_decode_ascii r in OK (String (ascii_of_byte x) s)
      else Err ValueError
  end.

(** [codecs.decode(s, encoding='hex')], which is [binascii.a2b_hex]: two
    hexadecimal digits per byte and nothing else; [binascii.Error], a
    [ValueError], on an odd length or on any other character. *)
Definition codecs_decode_hex (s : string) : result (list byte) :=
  bytes_fromhex s.

Definition ascii_to_raw_hex (data : string) : result string :=
  let* encoded := str_encode_ascii data in OK (bytes_hex encoded).

Definition ascii_to_prefix_hex (data : string) : result string :=
  let* raw := ascii_to_raw_hex data in OK ("0x" +:+ raw).

Definition hex_to_ascii (data : string) : result string :=
  let data := if startswith data "0x" then str_drop 2 data else data in
  let* decoded := codecs_decode_hex data in
  bytes_decode_ascii decoded.

(* ===================================================================== *)
(** * ctc/evm/block_utils/block_chunks.py *)
(* ===================================================================== *)

(** [list(range(start, stop, step))] for a step other than zero: the
    length is that of CPython, the elements are [start + i * step]. *)
Definition py_range (start stop step : Z) : list Z :=
  let n :=
    if 0 <? step then
      if start <? stop then (stop - start - 1) / step + 1 else 0
    else if step <? 0 then
      if stop <? start then (start - stop - 1) / (- step) + 1 else 0
    else 0 in
  map (fun i => start + Z.of_nat i * step) (seq 0 (Z.to_nat n)).

(** What [get_chunks_in_range] returns: the chunks, each the two-element
    list [[first, last]] as a pair, or the [ZeroDivisionError] of [//]. *)
Inductive chunks_result :=
  | Chunks (chunks : list (Z * Z))
  | ZeroDivisionError.

(** The body of [if trim_excess:], the updates of [chunks[0]] and of
    [chunks[-1]] in place; the second reads the list the first left. *)
Definition trim_excess_chunks (chunks : list (Z * Z))
    (start_block end_block : Z) : list (Z * Z) :=
  if 0 <? Z.of_nat (List.length chunks) then
    let chunks :=
      match chunks !! 0%nat with
      | Some (lo, hi) =>
          if lo <? start_block
          then <[0%nat := (start_block, hi)]> chunks
          else chunks
      | None => chunks
      end in
    match last chunks with
    | Some (lo, hi) =>
        if hi >? end_block
        then <[(List.length chunks - 1)%nat := (lo, end_block)]> chunks
        else chunks
    | None => chunks
    end
  else chunks.

(** [//] is the floor division, which [Z.div] is for either sign of the
    divisor. *)
Definition get_chunks_in_range (start_block end_block chunk_size : Z)
    (trim_excess : bool) : chunks_result :=
  if chunk_size =? 0 then ZeroDivisionError
  else
    let chunk_start_block := (start_block / chunk_size) * chunk_size in
    let chunk_end_block := ((end_block / chunk_size) + 1) * chunk_size in
    let chunk_bounds :=
      py_range chunk_start_block (chunk_end_block + chunk_size) chunk_size in
    let chunks :=
      map (fun '(start, end_) => (start, end_ - 1))
        (zip (removelast chunk_bounds) (drop 1 chunk_bounds)) in
    if trim_excess
    then Chunks (trim_excess_chunks chunks start_block end_block)
    else Chunks chunks.

(* ===================================================================== *)
(** * Notions of the specification *)
(* ===================================================================== *)

(** The digits of a hex string: what follows the optional [0x]. *)
Definition hex_digits_of (s : string) : string :=
  if startswith s "0x" then str_drop 2 s else s.

(** A valid binary value: any bytes, a hex string with an even number of
    hexadecimal digits, or a non-negative integer. *)
Definition valid_binary_value (x : pyval) : bool :=
  match x with
  | PBytes _ => true
  | PStr s =>
      all_hex (hex_digits_of s) && (str_len (hex_digits_of s) mod 2 =? 0)
  | PInt z => 0 <=? z
  | PNone => false
  end.

(** A hex string with an odd number of hexadecimal digits. *)
Definition odd_hex_string (x : pyval) : bool :=
  match x with
  | PStr s =>
      all_hex (hex_digits_of s) && (str_len (hex_digits_of s) mod 2 =? 1)
  | _ => false
  end.

(** The four shapes of a parsed signature. *)
Definition ecdsa_record (signature : list byte) (v : Z) : gmap string pyval :=
  dict_of [("type", PStr "ecdsa");
           ("signature", PStr ("0x" +:+ bytes_hex signature));
           ("r", PInt (int_from_bytes (take 32 signature)));
           ("s", PInt (int_from_bytes (take 32 (drop 32 signature))));
           ("v", PInt v)].

Definition eth_sign_record (signature : list byte) (v : Z) : gmap string pyval :=
  dict_of [("type", PStr "eth_sign");
           ("signature", PStr ("0x" +:+ bytes_hex signature));
           ("r", PInt (int_from_bytes (take 32 signature)));
           ("s", PInt (int_from_bytes (take 32 (drop 32 signature))));
           ("v", PInt v)].

Definition eip1271_record (signature : list byte) : gmap string pyval :=
  dict_of [("type", PStr "eip1271");
           ("signature", PStr ("0x" +:+ bytes_hex signature));
           ("verifier",
            PStr ("0x" +:+ bytes_hex (drop 12 (take 32 signature))));
           ("position", PInt (int_from_bytes (take 32 (drop 32 signature))))].

Definition prevalidated_record (signature : list byte) : gmap string pyval :=
  dict_of [("type", PStr "prevalidated");
           ("signature", PStr ("0x" +:+ bytes_hex signature));
           ("validator",
            PStr ("0x" +:+ bytes_hex (drop 12 (take 32 signature))))].

(** A 65-byte record: [r] is 7, [s] is 65, and [t] is the trailing byte. *)
Definition sample_record (t : byte) : list byte :=
  repeat x00 31 ++ [x07] ++ repeat x00 31 ++ [x41] ++ [t].

(** The dynamic-payload offset a record announces: the [position] of an
    [eip1271] record, none for the other kinds. *)
Definition record_offset (record : gmap string pyval) : option Z :=
  match record !! "type", record !! "position" with
  | Some ty, Some (PInt p) => if str_eq ty "eip1271" then Some p else None
  | _, _ => None
  end.

(** The splitter as the specification words it: a state machine over the
    whole blob that counts the bytes consumed, carries the running minimum
    of the offsets discovered so far, and is done once the bytes consumed
    reach that minimum or the blob is exhausted. *)
Inductive splitter_phase := ConsumingInline | Done.

Record splitter_state := {
  consumed : Z;
  smallest_offset : option Z;
  records : list (gmap string pyval);
  phase : splitter_phase;
}.

Definition splitter_step (blob : list byte) (st : splitter_state)
    : result splitter_state :=
  let remaining := drop (Z.to_nat (consumed st)) blob in
  if bytes_len remaining <? 65 then Err TruncatedSignatureError
  else
    let* record := parse_signature (take 65 remaining) in
    let smallest :=
      match record_offset record, smallest_offset st with
      | Some p, Some m => Some (Z.min m p)
      | Some p, None => Some p
      | None, m => m
      end in
    let consumed' := consumed st + 65 in
    let exhausted := bytes_len blob <=? consumed' in
    let reached :=
      match smallest with
      | Some m => m <=? consumed'
      | None => false
      end in
    OK {| consumed := consumed';
          smallest_offset := smallest;
          records := records st ++ [record];
          phase := if exhausted || reached then Done else ConsumingInline |}.

Fixpoint splitter_run (fuel : nat) (blob : list byte) (st : splitter_state)
    : result (list (gmap string pyval)) :=
  match fuel with
  | O => Err OutOfFuel
  | S fuel' =>
      let* st' := splitter_step blob st in
      match phase st' with
      | Done => OK (records st')
      | ConsumingInline => splitter_run fuel' blob st'
      end
  end.

Definition splitter (blob : list byte) : result (list (gmap string pyval)) :=
  splitter_run (S (List.length blob)) blob
    {| consumed := 0; smallest_offset := None; records := [];
       phase := ConsumingInline |}.

(** The trailing type byte of a record, [signature[-1]]. *)
Definition type_byte (signature : list byte) : Z :=
  byte_val (List.last signature x00).

(** The [i]-th in-line record of a blob. *)
Definition inline_record (blob : list byte) (i : nat) : list byte :=
  take 65 (drop (65 * i) blob).

(** The splitter did not stop after [j] in-line records: the blob goes on,
    and every offset announced by the first [j] records lies beyond the
    [65 * j] bytes consumed. *)
Definition no_stop_after (blob : list byte)
    (recs : list (gmap string pyval)) (j : nat) : Prop :=
  (65 * j < List.length blob)%nat
  /\ forall p, p ∈ omap record_offset (take j recs) -> 65 * Z.of_nat j < p.

(** [recs] is what the splitter returns on [blob]: the in-line records in
    order, at least one, up to the first count at which the blob is
    exhausted or the bytes consumed reach an announced offset. *)
Definition split_result (blob : list byte)
    (recs : list (gmap string pyval)) : Prop :=
  (1 <= List.length recs)%nat
  /\ (65 * List.length recs <= List.length blob)%nat
  /\ (forall i r,
        recs !! i = Some r -> parse_signature (inline_record blob i) = OK r)
  /\ (forall j, (1 <= j < List.length recs)%nat -> no_stop_after blob recs j)
  /\ ((65 * List.length recs = List.length blob)%nat
      \/ exists p, p ∈ omap record_offset recs
                   /\ p <= 65 * Z.of_nat (List.length recs)).

(** The splitter fails with [e] on [blob]: some in-line records parse
    without the splitter stopping after any of them, and the next one
    fails with [e]. *)
Definition split_failure (blob : list byte) (e : error) : Prop :=
  exists recs,
    (forall i r,
       recs !! i = Some r -> parse_signature (inline_record blob i) = OK r)
    /\ (forall j, (1 <= j <= List.length recs)%nat -> no_stop_after blob recs j)
    /\ parse_signature (inline_record blob (List.length recs)) = Err e.

(** The signer of one record as the specification words it: what the
    recovery primitive returns on [(hash, v, r, s)] for [ecdsa] and
    [eth_sign], the [verifier] of [eip1271], the [validator] of
    [prevalidated]. *)
Inductive resolves
    (recover : pyval -> pyval * pyval * pyval -> option pyval)
    (hash : pyval) : gmap string pyval -> pyval -> Prop :=
  | resolves_ecdsa record v r s a :
      record !! "type" = Some (PStr "ecdsa") ->
      record !! "v" = Some v -> record !! "r" = Some r ->
      record !! "s" = Some s ->
      recover hash (v, r, s) = Some a ->
      resolves recover hash record a
  | resolves_eth_sign record v r s a :
      record !! "type" = Some (PStr "eth_sign") ->
      record !! "v" = Some v -> record !! "r" = Some r ->
      record !! "s" = Some s ->
      recover hash (v, r, s) = Some a ->
      resolves recover hash record a
  | resolves_eip1271 record a :
      record !! "type" = Some (PStr "eip1271") ->
      record !! "verifier" = Some a ->
      resolves recover hash record a
  | resolves_prevalidated record a :
      record !! "type" = Some (PStr "prevalidated") ->
      record !! "validator" = Some a ->
      resolves recover hash record a.

(** A classified record: what the classifier returns on some record. *)
Definition classified (record : gmap string pyval) : Prop :=
  exists signature, parse_signature signature = OK record.

(** The loop state and the state of the specification's machine describe
    the same point of the same blob. *)
Definition splitter_rel (blob : list byte) (st : parse_state)
    (sp : splitter_state) : Prop :=
  consumed sp = 65 * s st
  /\ 0 <= s st
  /\ as_bytes st = drop (Z.to_nat (consumed sp)) blob
  /\ records sp = parsed_signatures st
  /\ match smallest_offset sp with
     | Some m => list_min (eip_1271_positions st) = OK m
     | None => eip_1271_positions st = []
     end.

(** What the loop state records about the blob after its iterations. *)
Definition loop_inv (blob : list byte) (st : parse_state) : Prop :=
  s st = Z.of_nat (List.length (parsed_signatures st))
  /\ as_bytes st = drop (65 * List.length (parsed_signatures st)) blob
  /\ eip_1271_positions st = omap record_offset (parsed_signatures st)
  /\ (forall i r,
        parsed_signatures st !! i = Some r ->
        parse_signature (inline_record blob i) = OK r)
  /\ (forall j, (1 <= j <= List.length (parsed_signatures st))%nat ->
        no_stop_after blob (parsed_signatures st) j).

(** A decoder that knows one call: its parameters hold a stale [nonce]. *)
Definition sample_decoder (call_data : pyval) (abi : unit) : option decoded :=
  match call_data with
  | PNone => None
  | _ =>
      Some {| named_parameters :=
                dict_of [("to", PStr "0x01"); ("value", PInt 5);
                         ("nonce", PInt 99);
                         ("signatures", PBytes [])] |}
  end.

(** Bytes, [prefix_hex] and [raw_hex] strings: the formats of a byte
    string. *)
Definition byte_string_format (f : BinaryFormat) : bool :=
  match f with
  | integer => false
  | _ => true
  end.

(** The digits [convert] prints for a non-negative integer [v] on [m]
    bytes: all of them, or without the leading zeros. *)
Definition integer_digits (v m : Z) (keep : bool) : string :=
  if keep then bytes_hex (be_bytes (Z.to_nat m) v)
  else if v =? 0 then "0"%string
       else lstrip0 (bytes_hex (be_bytes (Z.to_nat m) v)).

(** Text of ASCII characters only. *)
Fixpoint is_ascii (t : string) : bool :=
  match t with
  | EmptyString => true
  | String c r => (byte_val (byte_of_ascii c) <? 128) && is_ascii r
  end.

(** The chunk of index [q] for a chunk size: blocks [q * size] to
    [(q + 1) * size - 1]. *)
Definition aligned_chunk (size q : Z) : Z * Z := (q * size, (q + 1) * size - 1).

(** The part of a chunk that lies in the range [lo] to [hi]. *)
Definition clip_chunk (lo hi : Z) (c : Z * Z) : Z * Z :=
  (Z.max lo (fst c), Z.min hi (snd c)).

(* ===================================================================== *)
(** * Properties of the built-ins *)
(* ===================================================================== *)

(** Linear arithmetic with division and remainder by constants. *)
Ltac lia_mod := Z.div_mod_to_equations; lia.

Lemma bind_ok {A B} (m : result A) (k : A -> result B) (b : B) :
  bind m k = OK b -> exists a, m = OK a /\ k a = OK b.
Proof. destruct m as [a|e]; simpl; [eauto | discriminate]. Qed.

Lemma byte_val_range (b : byte) : 0 <= byte_val b < 256.
Proof.
  unfold byte_val. pose proof (Byte.to_N_bounded b) as Hb.
  apply N.leb_le in Hb.
  split; [apply N2Z.is_nonneg |].
  apply N.leb_le in Hb. lia.
Qed.

Lemma byte_val_of_Z (z : Z) : byte_val (byte_of_Z z) = z mod 256.
Proof.
  unfold byte_val, byte_of_Z.
  assert (Hr : 0 <= z mod 256 < 256) by (apply Z.mod_pos_bound; lia).
  destruct (Byte.of_N (Z.to_N (z mod 256))) as [b|] eqn:E.
  - apply Byte.to_of_N in E. rewrite E. apply Z2N.id. lia.
  - apply Byte.of_N_None_iff in E. lia.
Qed.

Lemma int_from_bytes_snoc (b : list byte) (x : byte) :
  int_from_bytes (b ++ [x]) = int_from_bytes b * 256 + byte_val x.
Proof. unfold int_from_bytes. rewrite fold_left_app. reflexivity. Qed.

Lemma be_bytes_length (k : nat) (v : Z) : List.length (be_bytes k v) = k.
Proof.
  revert v. induction k as [|k IH]; intros v; simpl; [reflexivity |].
  rewrite length_app, IH. simpl. lia.
Qed.

Lemma int_from_be_bytes (k : nat) (v : Z) :
  int_from_bytes (be_bytes k v) = v mod 256 ^ Z.of_nat k.
Proof.
  revert v. induction k as [|k IH]; intros v.
  - simpl. rewrite Z.mod_1_r. reflexivity.
  - simpl be_bytes. rewrite int_from_bytes_snoc, IH, byte_val_of_Z.
    replace (Z.of_nat (S k)) with (1 + Z.of_nat k) by lia.
    rewrite Z.pow_add_r, Z.pow_1_r by lia.
    rewrite Z.mod_mod by lia.
    rewrite (Z.rem_mul_r v 256 (256 ^ Z.of_nat k)) by lia. lia.
Qed.

Lemma bit_length_bound (v : Z) : 0 <= v -> v < 2 ^ bit_length v.
Proof.
  intros Hv. unfold bit_length.
  destruct (v =? 0) eqn:E.
  - apply Z.eqb_eq in E. subst. cbn. lia.
  - apply Z.eqb_neq in E. rewrite Z.abs_eq by lia.
    pose proof (Z.log2_spec v ltac:(lia)) as [_ H].
    replace (Z.log2 v + 1) with (Z.succ (Z.log2 v)) by lia. exact H.
Qed.

Lemma bit_length_nonneg (v : Z) : 0 <= bit_length v.
Proof.
  unfold bit_length. destruct (v =? 0); [lia |].
  pose proof (Z.log2_nonneg (Z.abs v)). lia.
Qed.

(** An integer fits in as many bytes as [get_binary_n_bytes] counts. *)
Lemma n_bytes_fits (v n : Z) :
  0 <= v -> (bit_length v + 7) / 8 <= n -> v < 256 ^ n.
Proof.
  intros Hv Hn.
  pose proof (bit_length_bound v Hv) as Hb.
  pose proof (bit_length_nonneg v) as Hl.
  assert (Hle : bit_length v <= 8 * n).
  { pose proof (Z.div_mod (bit_length v + 7) 8 ltac:(lia)).
    pose proof (Z.mod_pos_bound (bit_length v + 7) 8 ltac:(lia)). lia. }
  assert (0 <= n) by lia.
  replace 256 with (2 ^ 8) by reflexivity.
  rewrite <- Z.pow_mul_r by lia.
  eapply Z.lt_le_trans; [exact Hb |].
  apply Z.pow_le_mono_r; lia.
Qed.

Lemma int_to_bytes_ok (v n : Z) :
  0 <= v -> 0 <= n -> v < 256 ^ n ->
  int_to_bytes v n = OK (be_bytes (Z.to_nat n) v).
Proof.
  intros Hv Hn Hlt. unfold int_to_bytes.
  destruct (n <? 0) eqn:E1; [apply Z.ltb_lt in E1; lia |].
  destruct (v <? 0) eqn:E2; [apply Z.ltb_lt in E2; lia |].
  destruct (256 ^ n <=? v) eqn:E3; [apply Z.leb_le in E3; lia |].
  reflexivity.
Qed.

Lemma startswith_0x (s : string) :
  startswith s "0x" = true -> "0x" +:+ str_drop 2 s = s.
Proof.
  unfold startswith. intros H. apply String.prefix_correct in H.
  destruct s as [|a [|b r]]; simpl in H; try discriminate.
  injection H as -> ->. reflexivity.
Qed.

Lemma bytes_hex_length (b : list byte) :
  String.length (bytes_hex b) = (2 * List.length b)%nat.
Proof. induction b as [|x b IH]; simpl; [reflexivity | rewrite IH; lia]. Qed.

(* ===================================================================== *)
(** * The codec: conversions *)
(* ===================================================================== *)

(** C5.  Round trip: a non-negative integer [v] converted to binary with an
    expected byte length [n] that is at least its byte length, and converted
    back to integer, is [v] again; the bytes in between are [n] long. *)
Theorem convert_integer_binary_roundtrip (v n m : Z) (k : option bool) :
  0 <= v ->
  get_binary_n_bytes (PInt v) = OK m ->
  m <= n ->
  exists b,
    convert (PInt v) (Some binary) (Some n) k = OK (PBytes b)
    /\ bytes_len b = n
    /\ convert (PBytes b) (Some integer) None None = OK (PInt v).
Proof.
  intros Hv Hm Hn. unfold get_binary_n_bytes in Hm.
  destruct (v <? 0) eqn:E; [apply Z.ltb_lt in E; lia |].
  injection Hm as <-.
  pose proof (bit_length_nonneg v) as Hl.
  assert (H0 : 0 <= (bit_length v + 7) / 8) by (apply Z.div_pos; lia).
  pose proof (n_bytes_fits v n Hv Hn) as Hfit.
  exists (be_bytes (Z.to_nat n) v). unfold convert. rewrite E. simpl.
  rewrite int_to_bytes_ok by lia. simpl.
  split; [destruct k as [[|]|]; reflexivity |].
  split.
  - unfold bytes_len. rewrite be_bytes_length. lia.
  - rewrite int_from_be_bytes, Z2Nat.id by lia.
    rewrite Z.mod_small by lia. reflexivity.
Qed.

Lemma convert_integer_binary_roundtrip_witness :
  exists b,
    convert (PInt 258) (Some binary) (Some 4) None = OK (PBytes b)
    /\ bytes_len b = 4
    /\ convert (PBytes b) (Some integer) None None = OK (PInt 258).
Proof.
  apply (convert_integer_binary_roundtrip 258 4 2 None);
    [lia | reflexivity | lia].
Defined.

(** C7.  Format idempotence: a valid binary value converted to its own
    detected format is returned unchanged, the detected format being
    [binary] for bytes, [prefix_hex] for a string that starts with [0x],
    [raw_hex] for any other string and [integer] for an integer. *)
Theorem convert_detected_format_id (x : pyval) :
  valid_binary_value x = true ->
  exists f,
    get_binary_format x = OK f
    /\ convert x (Some f) None None = OK x
    /\ f = match x with
           | PBytes _ => binary
           | PStr s => if startswith s "0x" then prefix_hex else raw_hex
           | _ => integer
           end.
Proof.
  intros Hx. destruct x as [b|s|z|]; simpl in Hx; try discriminate.
  - exists binary. repeat split; reflexivity.
  - unfold get_binary_format, convert.
    destruct (startswith s "0x") eqn:E.
    + exists prefix_hex. rewrite (startswith_0x s E). repeat split; reflexivity.
    + exists raw_hex. repeat split; reflexivity.
  - exists integer. apply Z.leb_le in Hx.
    unfold convert. destruct (z <? 0) eqn:E; [apply Z.ltb_lt in E; lia |].
    repeat split; reflexivity.
Qed.

Lemma convert_detected_format_id_witness :
  exists f,
    get_binary_format (PStr "0x00ff") = OK f
    /\ convert (PStr "0x00ff") (Some f) None None = OK (PStr "0x00ff")
    /\ f = prefix_hex.
Proof.
  apply (convert_detected_format_id (PStr "0x00ff")). reflexivity.
Defined.

(** With [keep_leading_0] left alone or true, an integer converted to a
    string is the hexadecimal print of some bytes, prefixed or not. *)
Lemma convert_int_hex_kept (v : Z) f n k (out : string) :
  k <> Some false ->
  convert (PInt v) f n k = OK (PStr out) ->
  exists b, out = "0x" +:+ bytes_hex b \/ out = bytes_hex b.
Proof.
  intros Hk Hc. unfold convert in Hc.
  destruct (v <? 0); [discriminate |].
  assert (Hkeep : negb (match k with None => true | Some k0 => k0 end) = false)
    by (destruct k as [[|]|]; [reflexivity | congruence | reflexivity]).
  destruct f as [[| | |]|]; try discriminate.
  all: apply bind_ok in Hc as (n' & _ & Hc).
  all: apply bind_ok in Hc as (b & _ & Hc).
  all: try discriminate.
  all: rewrite Hkeep in Hc; injection Hc as <-; exists b; auto.
Qed.

(** C10.  The integer [0] has byte length [0], so with the default
    arguments it converts to a hex string without any digit: [0x] in
    [prefix_hex], the empty string in [raw_hex].  With [keep_leading_0]
    false it converts to [0x0] whatever the byte length, and a result of a
    single digit [0] comes from no other setting of [keep_leading_0]. *)
Theorem convert_zero_hex_no_digit :
  get_binary_n_bytes (PInt 0) = OK 0
  /\ convert (PInt 0) (Some prefix_hex) None None = OK (PStr "0x")
  /\ convert (PInt 0) None None None = OK (PStr "0x")
  /\ convert (PInt 0) (Some raw_hex) None None = OK (PStr "")
  /\ convert (PInt 0) (Some prefix_hex) None (Some false) = OK (PStr "0x0")
  /\ (forall n, 0 <= n ->
        convert (PInt 0) (Some prefix_hex) (Some n) (Some false)
        = OK (PStr "0x0"))
  /\ (forall f n k out,
        convert (PInt 0) f n k = OK (PStr out) ->
        out = "0" \/ out = "0x0" ->
        k = Some false).
Proof.
  repeat split; try reflexivity.
  - intros n Hn. unfold convert. simpl.
    rewrite int_to_bytes_ok by (try lia; apply Z.pow_pos_nonneg; lia).
    reflexivity.
  - intros f n k out Hc Hout.
    destruct (decide (k = Some false)) as [|Hk]; [assumption | exfalso].
    destruct (convert_int_hex_kept 0 f n k out Hk Hc) as (b & Hb).
    assert (Hodd : forall d, bytes_hex b <> String d EmptyString).
    { intros d Hd. apply (f_equal String.length) in Hd.
      rewrite bytes_hex_length in Hd. simpl in Hd. lia. }
    destruct Hout as [-> | ->], Hb as [Hb | Hb]; try discriminate.
    + symmetry in Hb. exact (Hodd _ Hb).
    + injection Hb as Hb. symmetry in Hb. exact (Hodd _ Hb).
    + apply (f_equal String.length) in Hb.
      rewrite bytes_hex_length in Hb. simpl in Hb. lia.
Qed.

Lemma convert_zero_hex_no_digit_witness :
  convert (PInt 0) (Some prefix_hex) (Some 1) (Some false) = OK (PStr "0x0")
  /\ Some false = Some false.
Proof.
  split.
  - apply (proj1 (proj2 (proj2 (proj2 (proj2 (proj2
             convert_zero_hex_no_digit))))) 1). lia.
  - apply (proj2 (proj2 (proj2 (proj2 (proj2 (proj2
             convert_zero_hex_no_digit)))))
             (Some raw_hex) (Some 0) (Some false) "0").
    + reflexivity.
    + left. reflexivity.
Defined.

(* ===================================================================== *)
(** * The codec: hex strings *)
(* ===================================================================== *)

Lemma str_len_app (a b : string) : str_len (a +:+ b) = str_len a + str_len b.
Proof.
  unfold str_len. induction a as [|c a IH]; simpl String.length; [reflexivity |].
  lia.
Qed.

Lemma str_len_cons (c : ascii) (s : string) : str_len (String c s) = str_len s + 1.
Proof. unfold str_len. simpl String.length. lia. Qed.

Lemma str_len_nonneg (s : string) : 0 <= str_len s.
Proof. unfold str_len. lia. Qed.

Lemma str_len_zeros (k : Z) :
  0 <= k -> str_len (str_repeat (str_repeat "0" 2) k) = 2 * k.
Proof.
  intros Hk. unfold str_repeat at 1.
  rewrite <- (Z2Nat.id k) at 2 by lia.
  induction (Z.to_nat k) as [|j IH]; [reflexivity |].
  simpl str_repeat_nat. rewrite str_len_app, IH.
  change (str_len (str_repeat "0" 2)) with 2. lia.
Qed.

Lemma all_hex_app (a b : string) :
  all_hex (a +:+ b) = all_hex a && all_hex b.
Proof.
  induction a as [|c a IH]; simpl; [reflexivity |].
  rewrite IH. destruct (is_hex_digit c); reflexivity.
Qed.

Lemma all_hex_zeros (k : Z) : all_hex (str_repeat (str_repeat "0" 2) k) = true.
Proof.
  unfold str_repeat at 1.
  induction (Z.to_nat k) as [|j IH]; [reflexivity |].
  simpl str_repeat_nat. rewrite all_hex_app, IH. reflexivity.
Qed.

(** No string of hexadecimal digits starts with [0x] or [0X]. *)
Lemma all_hex_no_prefix (s : string) :
  all_hex s = true -> startswith s "0x" = false /\ startswith s "0X" = false.
Proof.
  intros H. split.
  all: destruct (startswith s _) eqn:E; [exfalso | reflexivity].
  all: unfold startswith in E; apply String.prefix_correct in E.
  all: destruct s as [|a [|b r]]; simpl in E; try discriminate.
  all: injection E as -> ->; simpl in H; discriminate.
Qed.

Lemma startswith_0x_len (s : string) :
  startswith s "0x" = true -> str_len s = str_len (str_drop 2 s) + 2.
Proof.
  intros H. rewrite <- (startswith_0x s H) at 1.
  rewrite str_len_app. change (str_len "0x") with 2. lia.
Qed.

Lemma hex_value_app (a b : string) (acc : Z) :
  hex_value acc (a +:+ b)
  = match hex_value acc a with
    | Some v => hex_value v b
    | None => None
    end.
Proof.
  revert acc. induction a as [|c a IH]; intros acc; simpl; [reflexivity |].
  destruct (hex_digit c); [apply IH | reflexivity].
Qed.

Lemma hex_value_zeros (k : Z) :
  hex_value 0 (str_repeat (str_repeat "0" 2) k) = Some 0.
Proof.
  unfold str_repeat at 1.
  induction (Z.to_nat k) as [|j IH]; [reflexivity |].
  simpl str_repeat_nat. rewrite hex_value_app. exact IH.
Qed.

Lemma all_hex_value (s : string) (acc : Z) :
  all_hex s = true -> exists v, hex_value acc s = Some v.
Proof.
  revert acc. induction s as [|c s IH]; intros acc H; simpl in *; [eauto |].
  unfold is_hex_digit in H. destruct (hex_digit c); [| discriminate].
  apply IH. exact H.
Qed.

(** [bytes.fromhex] decodes every even-length string of hexadecimal digits,
    and every odd-length one once a digit is put in front of it. *)
Lemma bytes_fromhex_ok (s : string) :
  all_hex s = true ->
  (str_len s mod 2 = 0 -> is_ok (bytes_fromhex s))
  /\ (str_len s mod 2 = 1 ->
      forall c, is_hex_digit c = true -> is_ok (bytes_fromhex (String c s))).
Proof.
  induction s as [|a r IH]; intros H.
  - split; [intros _; exists []; reflexivity |].
    intros Hp. vm_compute in Hp. discriminate Hp.
  - simpl in H. apply andb_prop in H as [Ha Hr].
    destruct (IH Hr) as [IH0 IH1]. rewrite str_len_cons. split.
    + intros Hp. apply IH1; [lia_mod | exact Ha].
    + intros Hp c Hc. simpl bytes_fromhex.
      unfold is_hex_digit in Ha, Hc.
      destruct (hex_digit c); [| discriminate].
      destruct (hex_digit a); [| discriminate].
      destruct IH0 as [b Hb]; [lia_mod |]. rewrite Hb. simpl. eexists. reflexivity.
Qed.

(** [int(s, 16)] on a hex string with at least one digit. *)
Lemma int_base16_digits (s : string) :
  all_hex (hex_digits_of s) = true ->
  0 < str_len (hex_digits_of s) ->
  exists v,
    hex_value 0 (hex_digits_of s) = Some v /\ int_base16 s = OK v.
Proof.
  intros Hh Hl. destruct (all_hex_value _ 0 Hh) as [v Hv].
  exists v. split; [exact Hv |].
  assert (Hd : int_base16 s
               = match hex_digits_of s with
                 | EmptyString => Err ValueError
                 | _ => match hex_value 0 (hex_digits_of s) with
                        | Some v => OK v
                        | None => Err ValueError
                        end
                 end).
  { unfold int_base16, hex_digits_of in *.
    destruct (startswith s "0x") eqn:E; [reflexivity |].
    destruct (all_hex_no_prefix s Hh) as [_ ->]. reflexivity. }
  rewrite Hd, Hv.
  destruct (hex_digits_of s); [vm_compute in Hl; discriminate | reflexivity].
Qed.

(** C6, as amended.  For a hex string with an odd number of digits:
    [get_binary_n_bytes] fails with the odd-length error; [convert] to
    binary succeeds and decodes the digits with a single zero digit put in
    front; [convert] to [prefix_hex], [raw_hex] and [integer] succeeds as
    well, on the digits as they are; with an expected byte length every
    [convert] fails with the length mismatch; [add_binary_pad] fails with
    the odd-length error. *)
Theorem odd_hex_string_tolerance (s : string) :
  odd_hex_string (PStr s) = true ->
  get_binary_n_bytes (PStr s) = Err OddLengthError
  /\ (exists b,
        bytes_fromhex ("0" +:+ hex_digits_of s) = OK b
        /\ convert (PStr s) (Some binary) None None = OK (PBytes b))
  /\ convert (PStr s) (Some prefix_hex) None None
     = OK (PStr ("0x" +:+ hex_digits_of s))
  /\ convert (PStr s) (Some raw_hex) None None = OK (PStr (hex_digits_of s))
  /\ (exists v,
        hex_value 0 (hex_digits_of s) = Some v
        /\ convert (PStr s) (Some integer) None None = OK (PInt v))
  /\ (forall f n k, convert (PStr s) f (Some n) k = Err LengthMismatchError)
  /\ (forall side n, add_binary_pad (PStr s) side n = Err OddLengthError).
Proof.
  intros H. simpl in H. apply andb_prop in H as [Hh Hodd].
  apply Z.eqb_eq in Hodd.
  assert (Hlen : str_len s mod 2 = 1).
  { unfold hex_digits_of in Hodd. destruct (startswith s "0x") eqn:E; [| exact Hodd].
    rewrite (startswith_0x_len s E). lia_mod. }
  assert (Hn : get_binary_n_bytes (PStr s) = Err OddLengthError).
  { unfold get_binary_n_bytes. rewrite Hlen. reflexivity. }
  split; [exact Hn |].
  split.
  { destruct (bytes_fromhex_ok _ Hh) as [_ Hok].
    destruct (Hok Hodd "0"%char eq_refl) as [b Hb].
    exists b. split; [exact Hb |].
    unfold convert. fold (hex_digits_of s). cbv beta iota zeta.
    rewrite Hodd, Z.eqb_refl.
    change ("0" +:+ hex_digits_of s) with (String "0"%char (hex_digits_of s)).
    rewrite Hb. reflexivity. }
  split; [reflexivity |].
  split; [reflexivity |].
  split.
  { destruct (int_base16_digits s Hh) as (v & Hv & Hi).
    { pose proof (str_len_nonneg (hex_digits_of s)). lia_mod. }
    exists v. split; [exact Hv |]. unfold convert. simpl. rewrite Hi. reflexivity. }
  split.
  - intros f n k. unfold convert. fold (hex_digits_of s).
    assert (Hne : (str_len (hex_digits_of s) =? 2 * n) = false)
      by (apply Z.eqb_neq; lia_mod).
    rewrite Hne. reflexivity.
  - intros side n. unfold add_binary_pad. rewrite Hn.
    unfold get_binary_format. destruct (startswith s "0x"); reflexivity.
Qed.

Lemma odd_hex_string_tolerance_witness :
  get_binary_n_bytes (PStr "0xabc") = Err OddLengthError
  /\ convert (PStr "0xabc") (Some binary) None None = OK (PBytes [x0a; xbc]).
Proof.
  pose proof (odd_hex_string_tolerance "0xabc" eq_refl) as (Hn & (b & Hb & Hc) & _).
  split; [exact Hn |].
  rewrite Hc. f_equal. f_equal.
  injection Hb. intros <-. reflexivity.
Defined.

(** The odd-length hex string [abc]: the claim that only the conversion to
    binary tolerates it fails, the conversion to [raw_hex] returns it. *)
Lemma odd_hex_string_tolerated_elsewhere :
  odd_hex_string (PStr "abc") = true
  /\ ~ (forall f,
         is_ok (convert (PStr "abc") (Some f) None None) -> f = binary).
Proof.
  split; [reflexivity |].
  intros H. specialize (H raw_hex). discriminate H. eexists. reflexivity.
Qed.

(* ===================================================================== *)
(** * The codec: padding *)
(* ===================================================================== *)

(** What [add_binary_pad] puts on the left of a hex string is a run of
    zero digits, two per byte of padding. *)
Lemma padded_hex_value (d : string) (k : Z) :
  hex_value 0 (str_repeat (str_repeat "0" 2) k +:+ d) = hex_value 0 d.
Proof. rewrite hex_value_app, hex_value_zeros. reflexivity. Qed.

Lemma startswith_prefixed (t : string) : startswith ("0x" +:+ t) "0x" = true.
Proof. destruct t; reflexivity. Qed.

(** Byte length of a hex string with an even number of digits. *)
Lemma get_binary_n_bytes_hex (s : string) :
  str_len (hex_digits_of s) mod 2 = 0 ->
  get_binary_n_bytes (PStr s) = OK (str_len (hex_digits_of s) / 2).
Proof.
  intros He. unfold get_binary_n_bytes, hex_digits_of in *.
  destruct (startswith s "0x") eqn:E.
  - rewrite (startswith_0x_len s E).
    replace ((str_len (str_drop 2 s) + 2) mod 2 =? 0) with true
      by (symmetry; apply Z.eqb_eq; lia_mod).
    simpl. f_equal. lia_mod.
  - replace (str_len s mod 2 =? 0) with true
      by (symmetry; apply Z.eqb_eq; exact He).
    reflexivity.
Qed.

(** [convert] to integer reads the digits of a hex string. *)
Lemma convert_hex_integer (s : string) :
  all_hex (hex_digits_of s) = true ->
  0 < str_len (hex_digits_of s) ->
  exists v,
    hex_value 0 (hex_digits_of s) = Some v
    /\ convert (PStr s) (Some integer) None None = OK (PInt v).
Proof.
  intros Hh Hl. destruct (int_base16_digits s Hh Hl) as (v & Hv & Hi).
  exists v. split; [exact Hv |].
  unfold convert. cbv beta iota zeta. rewrite Hi. reflexivity.
Qed.

(** Left padding of a hex string, on its digits. *)
Lemma add_binary_pad_hex_left (s : string) (n : Z) :
  all_hex (hex_digits_of s) = true ->
  str_len (hex_digits_of s) mod 2 = 0 ->
  str_len (hex_digits_of s) / 2 <= n ->
  exists y,
    add_binary_pad (PStr s) (Some left_side) (Some n) = OK (PStr y)
    /\ get_binary_format (PStr y) = get_binary_format (PStr s)
    /\ hex_digits_of y
       = str_repeat (str_repeat "0" 2) (n - str_len (hex_digits_of s) / 2)
         +:+ hex_digits_of s.
Proof.
  intros Hh He Hn. unfold add_binary_pad.
  rewrite (get_binary_n_bytes_hex s He).
  set (m := str_len (hex_digits_of s) / 2) in *.
  set (zeros := str_repeat (str_repeat "0" 2) (n - m)).
  assert (Hlt : (n <? m) = false) by (apply Z.ltb_ge; lia).
  unfold get_binary_format, hex_digits_of in *.
  destruct (startswith s "0x") eqn:E; simpl bind; rewrite Hlt.
  - exists ("0x" +:+ zeros +:+ str_drop 2 s).
    rewrite startswith_prefixed. repeat split; reflexivity.
  - exists (zeros +:+ s).
    assert (Hy : all_hex (zeros +:+ s) = true).
    { rewrite all_hex_app. unfold zeros. rewrite all_hex_zeros. exact Hh. }
    destruct (all_hex_no_prefix _ Hy) as [-> _]. repeat split; reflexivity.
Qed.

(** The binary branch pads with copies of the empty [bytes(0)]: bytes come
    back as they are, whatever the padded size. *)
Lemma add_binary_pad_bytes_unchanged (b : list byte) side (n : Z) :
  bytes_len b <= n ->
  add_binary_pad (PBytes b) side (Some n) = OK (PBytes b).
Proof.
  intros Hn. unfold add_binary_pad. simpl bind.
  assert (Hlt : (n <? bytes_len b) = false) by (apply Z.ltb_ge; lia).
  rewrite Hlt.
  assert (Hnil : bytes_repeat (bytes_zeros 0) (n - bytes_len b) = []).
  { unfold bytes_repeat. induction (Z.to_nat _) as [|j IH]; [reflexivity |].
    simpl. exact IH. }
  rewrite Hnil, app_nil_r. destruct side as [[|]|]; reflexivity.
Qed.

(** C4, as amended.  For a valid binary value [x] of byte length [m] and a
    target byte length [n]: when [n < m], left padding fails with the
    pad-too-small error, in each of the four representations; when
    [m <= n] and [x] is a hex string, left padding succeeds with a valid
    hex string in the format of [x], of byte length exactly [n], and of
    the integer value of [x] (which [x] has when it has a digit); when
    [m <= n] and [x] is an integer, padding fails with the invalid-format
    error. *)
Theorem add_binary_pad_left (x : pyval) (n m : Z) :
  valid_binary_value x = true ->
  get_binary_n_bytes x = OK m ->
  (n < m -> add_binary_pad x (Some left_side) (Some n) = Err PadTooSmallError)
  /\ (m <= n ->
      match x with
      | PStr _ =>
          exists y,
            add_binary_pad x (Some left_side) (Some n) = OK y
            /\ valid_binary_value y = true
            /\ get_binary_format y = get_binary_format x
            /\ get_binary_n_bytes y = OK n
            /\ (0 < m ->
                exists v,
                  convert x (Some integer) None None = OK (PInt v)
                  /\ convert y (Some integer) None None = OK (PInt v))
      | PInt _ =>
          add_binary_pad x (Some left_side) (Some n)
          = Err InvalidBinaryFormatError
      | _ => True
      end).
Proof.
  intros Hx Hm. split.
  - intros Hlt. unfold add_binary_pad. rewrite Hm.
    assert (E : (n <? m) = true) by (apply Z.ltb_lt; exact Hlt).
    destruct x as [b|s|z|]; simpl in *; try discriminate.
    + rewrite E. reflexivity.
    + destruct (startswith s "0x"); simpl; rewrite E; reflexivity.
    + rewrite E. reflexivity.
  - intros Hle. destruct x as [b|s|z|]; try exact I.
    + simpl in Hx. apply andb_prop in Hx as [Hh He]. apply Z.eqb_eq in He.
      rewrite (get_binary_n_bytes_hex s He) in Hm. injection Hm as Hm.
      rewrite <- Hm in *.
      destruct (add_binary_pad_hex_left s n Hh He Hle) as (y & Hp & Hf & Hd).
      pose proof (str_len_nonneg (hex_digits_of s)) as H0.
      assert (Hmn : 0 <= n - str_len (hex_digits_of s) / 2) by lia.
      assert (Hyh : all_hex (hex_digits_of y) = true).
      { rewrite Hd, all_hex_app, all_hex_zeros. exact Hh. }
      assert (Hyl : str_len (hex_digits_of y) = 2 * n).
      { rewrite Hd, str_len_app, str_len_zeros by lia. lia_mod. }
      exists (PStr y). split; [exact Hp |].
      split; [simpl; rewrite Hyh, Hyl; apply Z.eqb_eq; lia_mod |].
      split; [exact Hf |].
      split.
      * rewrite get_binary_n_bytes_hex by (rewrite Hyl; lia_mod).
        rewrite Hyl. f_equal. lia_mod.
      * intros Hpos.
        destruct (convert_hex_integer s Hh) as (v & Hv & Hc); [lia_mod |].
        destruct (convert_hex_integer y Hyh) as (w & Hw & Hc'); [lia_mod |].
        exists v. split; [exact Hc |].
        rewrite Hd, padded_hex_value, Hv in Hw. injection Hw as <-. exact Hc'.
    + simpl in Hx. apply Z.leb_le in Hx.
      unfold add_binary_pad. rewrite Hm. simpl bind.
      assert (E : (n <? m) = false) by (apply Z.ltb_ge; lia).
      rewrite E. reflexivity.
Qed.

Lemma add_binary_pad_left_witness :
  add_binary_pad (PStr "0xff") (Some left_side) (Some 0) = Err PadTooSmallError
  /\ (exists y,
        add_binary_pad (PStr "0xff") (Some left_side) (Some 4) = OK y
        /\ valid_binary_value y = true
        /\ get_binary_format y = get_binary_format (PStr "0xff")
        /\ get_binary_n_bytes y = OK 4
        /\ (0 < 1 ->
            exists v,
              convert (PStr "0xff") (Some integer) None None = OK (PInt v)
              /\ convert y (Some integer) None None = OK (PInt v))).
Proof.
  split.
  - apply (proj1 (add_binary_pad_left (PStr "0xff") 0 1 eq_refl eq_refl)). lia.
  - apply (proj2 (add_binary_pad_left (PStr "0xff") 4 1 eq_refl eq_refl)). lia.
Defined.

(** The integer [5] is a valid binary value of byte length [1], and no
    target byte length makes its left padding succeed: not [32]. *)
Lemma add_binary_pad_integer_fails :
  valid_binary_value (PInt 5) = true
  /\ get_binary_n_bytes (PInt 5) = OK 1
  /\ 1 <= 32
  /\ ~ is_ok (add_binary_pad (PInt 5) (Some left_side) (Some 32)).
Proof.
  repeat split; [lia |]. intros [y Hy]. discriminate Hy.
Qed.

(* ===================================================================== *)
(** * The signature classifier *)
(* ===================================================================== *)

Lemma convert_bytes_prefix_hex (b : list byte) :
  convert (PBytes b) (Some prefix_hex) None None
  = OK (PStr ("0x" +:+ bytes_hex b)).
Proof. reflexivity. Qed.

Lemma convert_bytes_integer (b : list byte) :
  convert (PBytes b) (Some integer) None None = OK (PInt (int_from_bytes b)).
Proof. reflexivity. Qed.

Lemma convert_int_integer (z : Z) :
  0 <= z -> convert (PInt z) (Some integer) None None = OK (PInt z).
Proof.
  intros Hz. unfold convert.
  destruct (z <? 0) eqn:E; [apply Z.ltb_lt in E; lia | reflexivity].
Qed.

Lemma bind_OK {A B} (a : A) (k : A -> result B) : bind (OK a) k = k a.
Proof. reflexivity. Qed.

(** The low 20 bytes of the first 32-byte word are bytes 12 to 31. *)
Lemma bytes_suffix_word (signature : list byte) :
  bytes_len signature = 65 ->
  bytes_suffix 20 (take 32 signature) = drop 12 (take 32 signature).
Proof.
  intros Hl. unfold bytes_suffix, bytes_len in *.
  rewrite length_take. f_equal. lia.
Qed.

(** The classifier by cases on the trailing byte, for any record length. *)
Lemma parse_signature_cases (signature : list byte) :
  bytes_len signature = 65 ->
  let t := byte_val (List.last signature x00) in
  parse_signature signature
  = if (27 <=? t) && (t <=? 30) then OK (ecdsa_record signature t)
    else if 31 <=? t then OK (eth_sign_record signature (t - 4))
    else if t =? 0 then OK (eip1271_record signature)
    else if t =? 1 then OK (prevalidated_record signature)
    else Err UnknownSignatureTypeError.
Proof.
  intros Hl t. unfold parse_signature. fold t.
  rewrite Hl, Z.eqb_refl. cbv beta iota zeta. simpl negb. cbv iota.
  rewrite (bytes_suffix_word signature Hl).
  rewrite !convert_bytes_prefix_hex, !convert_bytes_integer, !bind_OK.
  pose proof (byte_val_range (List.last signature x00)) as Ht. fold t in Ht.
  destruct ((31 >? t) && (t >? 26)) eqn:E1.
  - apply andb_prop in E1 as [Ea Eb].
    apply Z.gtb_lt in Ea. apply Z.gtb_lt in Eb.
    replace ((27 <=? t) && (t <=? 30)) with true
      by (symmetry; apply andb_true_intro; split; apply Z.leb_le; lia).
    rewrite convert_int_integer by lia. reflexivity.
  - replace ((27 <=? t) && (t <=? 30)) with false.
    2:{ symmetry. apply andb_false_iff. apply andb_false_iff in E1.
        destruct E1 as [E|E]; [right | left].
        - apply Z.leb_gt. destruct (Z.gtb_spec 31 t); [discriminate | lia].
        - apply Z.leb_gt. destruct (Z.gtb_spec t 26); [discriminate | lia]. }
    destruct (Z.gtb_spec t 30) as [Hg|Hg].
    + replace (31 <=? t) with true by (symmetry; apply Z.leb_le; lia).
      rewrite convert_int_integer by lia. reflexivity.
    + replace (31 <=? t) with false by (symmetry; apply Z.leb_gt; lia).
      reflexivity.
Qed.

(** C1.  A 65-byte record is classified by its trailing type byte [t]:
    27 to 30 is [ecdsa] with [v = t]; 31 and above is [eth_sign] with
    [v = t - 4]; both with [r] and [s] the big-endian values of bytes 0 to
    31 and 32 to 63; 0 is [eip1271] with the verifier in bytes 12 to 31 and
    the position in bytes 32 to 63; 1 is [prevalidated] with the validator
    in bytes 12 to 31; 2 to 26 fails with the unknown-type error.  The
    type byte is below 256, so the cases cover every record. *)
Theorem parse_signature_classification (signature : list byte) :
  bytes_len signature = 65 ->
  let t := byte_val (List.last signature x00) in
  0 <= t < 256
  /\ (27 <= t <= 30 ->
      parse_signature signature = OK (ecdsa_record signature t))
  /\ (31 <= t ->
      parse_signature signature = OK (eth_sign_record signature (t - 4)))
  /\ (t = 0 -> parse_signature signature = OK (eip1271_record signature))
  /\ (t = 1 -> parse_signature signature = OK (prevalidated_record signature))
  /\ (2 <= t <= 26 ->
      parse_signature signature = Err UnknownSignatureTypeError).
Proof.
  intros Hl t. pose proof (parse_signature_cases signature Hl) as Hc.
  fold t in Hc. cbv zeta in Hc.
  split; [apply byte_val_range |].
  repeat split; intros Ht; rewrite Hc.
  - replace ((27 <=? t) && (t <=? 30)) with true
      by (symmetry; apply andb_true_intro; split; apply Z.leb_le; lia).
    reflexivity.
  - replace ((27 <=? t) && (t <=? 30)) with false
      by (symmetry; apply andb_false_iff; right; apply Z.leb_gt; lia).
    replace (31 <=? t) with true by (symmetry; apply Z.leb_le; lia).
    reflexivity.
  - rewrite Ht. reflexivity.
  - rewrite Ht. reflexivity.
  - replace ((27 <=? t) && (t <=? 30)) with false
      by (symmetry; apply andb_false_iff; left; apply Z.leb_gt; lia).
    replace (31 <=? t) with false by (symmetry; apply Z.leb_gt; lia).
    replace (t =? 0) with false by (symmetry; apply Z.eqb_neq; lia).
    replace (t =? 1) with false by (symmetry; apply Z.eqb_neq; lia).
    reflexivity.
Qed.

Lemma parse_signature_classification_witness :
  parse_signature (sample_record x1e) = OK (ecdsa_record (sample_record x1e) 30)
  /\ parse_signature (sample_record x1f)
     = OK (eth_sign_record (sample_record x1f) 27)
  /\ parse_signature (sample_record x1c) = OK (ecdsa_record (sample_record x1c) 28)
  /\ parse_signature (sample_record x02) = Err UnknownSignatureTypeError.
Proof.
  split; [| split; [| split]].
  - apply (parse_signature_classification (sample_record x1e) eq_refl).
    vm_compute. split; discriminate.
  - apply (parse_signature_classification (sample_record x1f) eq_refl).
    vm_compute. discriminate.
  - apply (parse_signature_classification (sample_record x1c) eq_refl).
    vm_compute. split; discriminate.
  - apply (parse_signature_classification (sample_record x02) eq_refl).
    vm_compute. split; discriminate.
Defined.

(* ===================================================================== *)
(** * The signature splitter *)
(* ===================================================================== *)

Lemma parse_signature_short (signature : list byte) :
  bytes_len signature <> 65 ->
  parse_signature signature = Err TruncatedSignatureError.
Proof.
  intros H. unfold parse_signature.
  destruct (bytes_len signature =? 65) eqn:E; [| reflexivity].
  apply Z.eqb_eq in E. contradiction.
Qed.

Lemma parse_signature_length (signature : list byte) record :
  parse_signature signature = OK record -> bytes_len signature = 65.
Proof.
  intros H. destruct (decide (bytes_len signature = 65)) as [|Hn]; [assumption |].
  rewrite (parse_signature_short _ Hn) in H. discriminate.
Qed.

(** Only the [eip1271] branch, taken on type byte 0, stores a position. *)
Lemma parse_signature_offset (signature : list byte) record :
  parse_signature signature = OK record ->
  (byte_val (List.last signature x00) = 0
   /\ exists p, getitem record "position" = OK (PInt p)
                /\ record_offset record = Some p)
  \/ (byte_val (List.last signature x00) <> 0 /\ record_offset record = None).
Proof.
  intros H. pose proof (parse_signature_length _ _ H) as Hl.
  rewrite (parse_signature_cases _ Hl) in H. cbv zeta in H.
  set (t := byte_val (List.last signature x00)) in *.
  destruct ((27 <=? t) && (t <=? 30)) eqn:E1.
  { apply andb_prop in E1 as [Ea _]. apply Z.leb_le in Ea.
    injection H as <-. right. split; [lia | reflexivity]. }
  destruct (31 <=? t) eqn:E2.
  { apply Z.leb_le in E2. injection H as <-. right. split; [lia | reflexivity]. }
  destruct (t =? 0) eqn:E3.
  { apply Z.eqb_eq in E3. injection H as <-. left. split; [exact E3 |].
    eexists. split; reflexivity. }
  apply Z.eqb_neq in E3.
  destruct (t =? 1); [| discriminate].
  injection H as <-. right. split; [exact E3 | reflexivity].
Qed.

Lemma list_min_snoc (l : list Z) (p : Z) :
  list_min (l ++ [p])
  = OK (match list_min l with OK m => Z.min m p | Err _ => p end).
Proof.
  destruct l as [|q l]; simpl; [reflexivity |].
  rewrite fold_left_app. reflexivity.
Qed.

(** One iteration of the loop on a record that parses, with the offset of
    the record read through [record_offset]. *)
Lemma parse_loop_S (fuel : nat) (st : parse_state) record :
  parse_signature (take 65 (as_bytes st)) = OK record ->
  exists indices,
    let positions :=
      match record_offset record with
      | Some p => eip_1271_positions st ++ [p]
      | None => eip_1271_positions st
      end in
    let parsed := parsed_signatures st ++ [record] in
    parse_loop (S fuel) st
    = if bytes_len (drop 65 (as_bytes st)) =? 0 then OK parsed
      else if match list_min positions with
              | OK m => m <=? (s st + 1) * 65
              | Err _ => false
              end
      then OK parsed
      else parse_loop fuel
             {| as_bytes := drop 65 (as_bytes st);
                eip_1271_positions := positions;
                eip_1271_indices := indices;
                s := s st + 1;
                parsed_signatures := parsed |}.
Proof.
  intros Hp. cbn [parse_loop]. rewrite Hp, bind_OK.
  set (t := byte_val (List.last (take 65 (as_bytes st)) x00)).
  assert (Hstop : forall positions : list Z,
    (if 0 <? Z.of_nat (List.length positions)
     then let* m := list_min positions in OK ((s st + 1) * 65 >=? m)
     else OK false)
    = OK (match list_min positions with
          | OK m => m <=? (s st + 1) * 65
          | Err _ => false
          end)).
  { intros [|q l]; [reflexivity |]. simpl. rewrite Z.geb_leb. reflexivity. }
  destruct (parse_signature_offset _ _ Hp) as [(Ht & p & Hg & Ho) | (Ht & Ho)];
    fold t in Ht; rewrite Ho.
  - rewrite Ht. simpl Z.eqb. cbv iota. rewrite Hg, !bind_OK.
    eexists. cbv zeta. rewrite Hstop, bind_OK. reflexivity.
  - apply Z.eqb_neq in Ht. rewrite Ht. cbv iota. rewrite bind_OK.
    eexists. cbv zeta. rewrite Hstop, bind_OK. reflexivity.
Qed.

Lemma parse_loop_refines (blob : list byte) (fuel : nat) :
  forall st sp,
    splitter_rel blob st sp ->
    parse_loop fuel st = splitter_run fuel blob sp.
Proof.
  induction fuel as [|fuel IH]; intros st sp (Hc & Hs & Hb & Hr & Hm);
    [reflexivity |].
  cbn [splitter_run]. unfold splitter_step. rewrite <- Hb.
  destruct (bytes_len (as_bytes st) <? 65) eqn:E.
  { apply Z.ltb_lt in E. cbn [parse_loop bind].
    rewrite parse_signature_short; [reflexivity |].
    unfold bytes_len in *. rewrite length_take. lia. }
  apply Z.ltb_ge in E.
  destruct (parse_signature (take 65 (as_bytes st))) as [record|e] eqn:Hp;
    [| cbn [parse_loop bind]; rewrite Hp; reflexivity].
  destruct (parse_loop_S fuel st record Hp) as (indices & Hstep).
  cbv zeta in Hstep. rewrite Hstep. clear Hstep. rewrite bind_OK.
  cbn [phase records consumed smallest_offset].
  assert (Hlen : bytes_len (as_bytes st)
                 = bytes_len blob - consumed sp).
  { rewrite Hb. unfold bytes_len. rewrite length_drop. 
    rewrite Hb in E. unfold bytes_len in E. rewrite length_drop in E. lia. }
  assert (Hex : (bytes_len (drop 65 (as_bytes st)) =? 0)
                = (bytes_len blob <=? consumed sp + 65)).
  { unfold bytes_len in *. rewrite length_drop.
    destruct (Z.leb_spec (Z.of_nat (List.length blob)) (consumed sp + 65));
      [apply Z.eqb_eq | apply Z.eqb_neq]; lia. }
  rewrite Hex. rewrite <- Hr.
  set (positions := match record_offset record with
                    | Some p => eip_1271_positions st ++ [p]
                    | None => eip_1271_positions st
                    end).
  set (smallest := match record_offset record, smallest_offset sp with
                   | Some p, Some m => Some (Z.min m p)
                   | Some p, None => Some p
                   | None, m => m
                   end).
  assert (Hmin : match smallest with
                 | Some m => list_min positions = OK m
                 | None => positions = []
                 end).
  { unfold smallest, positions.
    destruct (record_offset record) as [p|]; [| exact Hm].
    rewrite list_min_snoc.
    destruct (smallest_offset sp) as [m|]; [rewrite Hm | rewrite Hm];
      reflexivity. }
  assert (Hre : match list_min positions with
                | OK m => m <=? (s st + 1) * 65
                | Err _ => false
                end
                = match smallest with
                  | Some m => m <=? consumed sp + 65
                  | None => false
                  end).
  { destruct smallest as [m|].
    - rewrite Hmin. f_equal. lia.
    - rewrite Hmin. reflexivity. }
  rewrite Hre.
  destruct (bytes_len blob <=? consumed sp + 65); [reflexivity |].
  cbn [orb].
  destruct (match smallest with
            | Some m => m <=? consumed sp + 65
            | None => false
            end); [reflexivity |].
  apply IH. repeat split; cbn; try lia; try assumption.
  rewrite Hb, drop_drop. f_equal. lia.
Qed.

(** The loop returns within the fuel it is given: each iteration that
    continues leaves at least one byte less. *)
Lemma parse_loop_fuel (fuel : nat) :
  forall st,
    (List.length (as_bytes st) < fuel)%nat ->
    parse_loop fuel st <> Err OutOfFuel.
Proof.
  induction fuel as [|fuel IH]; intros st Hf; [lia |].
  destruct (parse_signature (take 65 (as_bytes st))) as [record|e] eqn:Hp.
  - destruct (parse_loop_S fuel st record Hp) as (indices & Hstep).
    cbv zeta in Hstep. rewrite Hstep.
    destruct (bytes_len (drop 65 (as_bytes st)) =? 0) eqn:E; [discriminate |].
    destruct (match list_min _ with OK m => _ | Err _ => false end);
      [discriminate |].
    apply IH. cbn. rewrite length_drop.
    apply Z.eqb_neq in E. unfold bytes_len in E. rewrite length_drop in E. lia.
  - cbn [parse_loop]. rewrite Hp. cbn [bind].
    intros He. injection He as He. subst e.
    destruct (decide (bytes_len (take 65 (as_bytes st)) = 65)) as [Hl|Hl].
    + rewrite (parse_signature_cases _ Hl) in Hp. cbv zeta in Hp.
      repeat match type of Hp with
             | context [if ?c then _ else _] => destruct c
             end; discriminate.
    + rewrite (parse_signature_short _ Hl) in Hp. discriminate.
Qed.

Lemma fold_min_spec (l : list Z) (q : Z) :
  let m := fold_left Z.min l q in
  (m = q \/ m ∈ l) /\ m <= q /\ forall p, p ∈ l -> m <= p.
Proof.
  revert q. induction l as [|a l IH]; intros q; simpl.
  - split; [left; reflexivity |]. split; [lia |].
    intros p Hp. inversion Hp.
  - destruct (IH (Z.min q a)) as (Hin & Hle & Hall). split; [| split].
    + destruct Hin as [Hq | Hq].
      * rewrite Hq. destruct (Z.min_spec q a) as [[_ ->] | [_ ->]];
          [left; reflexivity | right; left].
      * right. right. exact Hq.
    + lia.
    + intros p Hp. apply elem_of_cons in Hp as [-> | Hp]; [lia | auto].
Qed.

(** The stop test on the offsets: it holds when some offset is reached. *)
Lemma list_min_reached (l : list Z) (c : Z) :
  match list_min l with OK m => m <=? c | Err _ => false end = true ->
  exists p, p ∈ l /\ p <= c.
Proof.
  destruct l as [|q l]; simpl; [discriminate |].
  intros H. apply Z.leb_le in H.
  destruct (fold_min_spec l q) as ([Hq | Hq] & _ & _).
  - exists q. split; [left | lia].
  - eexists. split; [right; exact Hq | lia].
Qed.

Lemma list_min_not_reached (l : list Z) (c : Z) :
  match list_min l with OK m => m <=? c | Err _ => false end = false ->
  forall p, p ∈ l -> c < p.
Proof.
  destruct l as [|q l]; simpl; intros H p Hp; [inversion Hp |].
  apply Z.leb_gt in H.
  destruct (fold_min_spec l q) as (_ & Hle & Hall).
  apply elem_of_cons in Hp as [-> | Hp]; [lia |].
  specialize (Hall p Hp). lia.
Qed.

Lemma parse_loop_outcome (blob : list byte) (fuel : nat) :
  forall st,
    loop_inv blob st ->
    match parse_loop fuel st with
    | OK recs => split_result blob recs
    | Err e => e = OutOfFuel \/ split_failure blob e
    end.
Proof.
  induction fuel as [|fuel IH]; intros st (Hs & Hb & Hpos & Hrec & Hno);
    [left; reflexivity |].
  set (parsed := parsed_signatures st) in *.
  set (j := List.length parsed) in *.
  assert (Hchunk : take 65 (as_bytes st) = inline_record blob j)
    by (rewrite Hb; reflexivity).
  destruct (parse_signature (take 65 (as_bytes st))) as [record|e] eqn:Hp.
  2:{ cbn [parse_loop]. rewrite Hp. cbn [bind]. right.
      exists parsed. fold j. rewrite <- Hchunk. auto. }
  destruct (parse_loop_S fuel st record Hp) as (indices & Hstep).
  cbv zeta in Hstep. rewrite Hstep. clear Hstep. fold parsed.
  pose proof (parse_signature_length _ _ Hp) as Hl.
  unfold bytes_len in Hl. rewrite Hb, length_take, length_drop in Hl.
  assert (Hlen' : List.length (parsed ++ [record]) = S j)
    by (rewrite length_app; simpl; lia).
  assert (Hpos' : match record_offset record with
                  | Some p => eip_1271_positions st ++ [p]
                  | None => eip_1271_positions st
                  end = omap record_offset (parsed ++ [record])).
  { rewrite omap_app, Hpos. simpl.
    destruct (record_offset record); [reflexivity |].
    rewrite app_nil_r. reflexivity. }
  rewrite Hpos'.
  assert (Hrec' : forall i r,
            (parsed ++ [record]) !! i = Some r ->
            parse_signature (inline_record blob i) = OK r).
  { intros i r Hi. apply lookup_app_Some in Hi as [Hi | [Hge Hi]];
      [exact (Hrec i r Hi) |].
    fold j in Hge, Hi. apply list_lookup_singleton_Some in Hi as [Hi <-].
    replace i with j by lia. rewrite <- Hchunk. exact Hp. }
  assert (Hno' : forall j', (1 <= j' <= j)%nat ->
            no_stop_after blob (parsed ++ [record]) j').
  { intros j' Hj'. destruct (Hno j' Hj') as [H1 H2]. split; [exact H1 |].
    rewrite take_app_le by (fold j; lia). exact H2. }
  destruct (bytes_len (drop 65 (as_bytes st)) =? 0) eqn:Eex.
  { apply Z.eqb_eq in Eex. unfold bytes_len in Eex.
    rewrite Hb, !length_drop in Eex. fold j in Eex.
    unfold split_result. rewrite Hlen'.
    split; [lia |]. split; [lia |]. split; [exact Hrec' |].
    split; [intros j' Hj'; apply Hno'; lia |]. left. lia. }
  apply Z.eqb_neq in Eex. unfold bytes_len in Eex.
  rewrite Hb, !length_drop in Eex. fold j in Eex.
  destruct (match list_min _ with OK m => _ | Err _ => false end) eqn:Ere.
  { apply list_min_reached in Ere as (p & Hp1 & Hp2).
    unfold split_result. rewrite Hlen'.
    split; [lia |]. split; [lia |]. split; [exact Hrec' |].
    split; [intros j' Hj'; apply Hno'; lia |]. right.
    exists p. split; [exact Hp1 | lia]. }
  apply IH. unfold loop_inv. cbn. rewrite Hlen'.
  split; [lia |]. split; [rewrite Hb, drop_drop; f_equal; lia |].
  split; [reflexivity |]. split; [exact Hrec' |].
  intros j' Hj'. destruct (decide (j' = S j)) as [-> | Hne];
    [| apply Hno'; lia].
  split; [lia |]. intros p Hin.
  rewrite take_ge in Hin by lia.
  pose proof (list_min_not_reached _ _ Ere p Hin). lia.
Qed.

(** Why classifying one record fails. *)
Lemma parse_signature_errors (signature : list byte) (e : error) :
  parse_signature signature = Err e ->
  (e = TruncatedSignatureError /\ bytes_len signature <> 65)
  \/ (e = UnknownSignatureTypeError
      /\ bytes_len signature = 65
      /\ 2 <= byte_val (List.last signature x00) <= 26).
Proof.
  intros H. destruct (decide (bytes_len signature = 65)) as [Hl | Hl].
  - right. rewrite (parse_signature_cases _ Hl) in H. cbv zeta in H.
    pose proof (byte_val_range (List.last signature x00)) as Hr.
    set (t := byte_val (List.last signature x00)) in *.
    destruct ((27 <=? t) && (t <=? 30)) eqn:E1; [discriminate |].
    destruct (31 <=? t) eqn:E2; [discriminate |].
    destruct (t =? 0) eqn:E3; [discriminate |].
    destruct (t =? 1) eqn:E4; [discriminate |].
    injection H as <-. apply Z.leb_gt in E2.
    apply Z.eqb_neq in E3. apply Z.eqb_neq in E4.
    apply andb_false_iff in E1.
    repeat split; try assumption; lia.
  - left. rewrite (parse_signature_short _ Hl) in H. injection H as <-.
    split; [reflexivity | exact Hl].
Qed.

(** A record with type byte 27 or more is [ecdsa] or [eth_sign] and
    announces no offset. *)
Lemma parse_signature_signed (signature : list byte) :
  bytes_len signature = 65 ->
  27 <= type_byte signature ->
  exists r,
    parse_signature signature = OK r
    /\ record_offset r = None
    /\ (r !! "type" = Some (PStr "ecdsa")
        \/ r !! "type" = Some (PStr "eth_sign")).
Proof.
  intros Hl Ht. unfold type_byte in Ht.
  rewrite (parse_signature_cases _ Hl). cbv zeta.
  destruct ((27 <=? _) && (_ <=? 30)) eqn:E1.
  - eexists. split; [reflexivity |]. split; [reflexivity | left; reflexivity].
  - replace (31 <=? _) with true.
    + eexists. split; [reflexivity |].
      split; [reflexivity | right; reflexivity].
    + symmetry. apply Z.leb_le. apply andb_false_iff in E1.
      destruct E1 as [E1 | E1]; apply Z.leb_gt in E1; lia.
Qed.

Lemma parse_safe_signatures_bytes (blob : list byte) :
  parse_safe_signatures (PBytes blob)
  = parse_loop (S (List.length blob))
      {| as_bytes := blob; eip_1271_positions := []; eip_1271_indices := [];
         s := 0; parsed_signatures := [] |}.
Proof. reflexivity. Qed.

(** A blob of two [ecdsa] or [eth_sign] records gives those two records. *)
Lemma parse_two_signed_records (blob : list byte) :
  bytes_len blob = 130 ->
  27 <= type_byte (inline_record blob 0) ->
  27 <= type_byte (inline_record blob 1) ->
  exists r1 r2,
    parse_signature (inline_record blob 0) = OK r1
    /\ parse_signature (inline_record blob 1) = OK r2
    /\ parse_safe_signatures (PBytes blob) = OK [r1; r2].
Proof.
  intros Hl H0 H1. unfold bytes_len in Hl.
  assert (Hn : List.length blob = 130%nat) by lia.
  assert (Hl0 : bytes_len (inline_record blob 0) = 65).
  { unfold bytes_len, inline_record. rewrite length_take, length_drop. lia. }
  assert (Hl1 : bytes_len (inline_record blob 1) = 65).
  { unfold bytes_len, inline_record. rewrite length_take, length_drop. lia. }
  destruct (parse_signature_signed _ Hl0 H0) as (r1 & Hp1 & Ho1 & _).
  destruct (parse_signature_signed _ Hl1 H1) as (r2 & Hp2 & Ho2 & _).
  exists r1, r2. split; [exact Hp1 |]. split; [exact Hp2 |].
  assert (He1 : (bytes_len (drop 65 blob) =? 0) = false)
    by (apply Z.eqb_neq; unfold bytes_len; rewrite length_drop; lia).
  assert (He2 : (bytes_len (drop 65 (drop 65 blob)) =? 0) = true)
    by (apply Z.eqb_eq; unfold bytes_len; rewrite !length_drop; lia).
  rewrite parse_safe_signatures_bytes.
  match goal with
  | |- parse_loop _ ?st = _ =>
      destruct (parse_loop_S (List.length blob) st r1 Hp1) as (ix1 & Hs1)
  end.
  etransitivity; [exact Hs1 |]. clear Hs1.
  cbv zeta. cbn [as_bytes eip_1271_positions parsed_signatures s].
  rewrite He1, Ho1. cbn [list_min].
  rewrite Hn.
  match goal with
  | |- parse_loop _ ?st = _ =>
      destruct (parse_loop_S 129 st r2 Hp2) as (ix2 & Hs2)
  end.
  etransitivity; [exact Hs2 |]. clear Hs2.
  cbv zeta. cbn [as_bytes eip_1271_positions parsed_signatures s].
  rewrite He2. reflexivity.
Qed.

(** A blob whose first record is [eip1271] with position 65 gives that one
    record, whatever follows it. *)
Lemma parse_eip1271_position_65 (blob : list byte) :
  65 <= bytes_len blob ->
  type_byte (inline_record blob 0) = 0 ->
  int_from_bytes (take 32 (drop 32 (inline_record blob 0))) = 65 ->
  parse_safe_signatures (PBytes blob)
  = OK [eip1271_record (inline_record blob 0)].
Proof.
  intros Hl Ht Hpos. unfold bytes_len in Hl.
  assert (Hl0 : bytes_len (inline_record blob 0) = 65).
  { unfold bytes_len, inline_record. rewrite length_take, length_drop. lia. }
  assert (Hp : parse_signature (inline_record blob 0)
               = OK (eip1271_record (inline_record blob 0))).
  { rewrite (parse_signature_cases _ Hl0). cbv zeta.
    unfold type_byte in Ht. rewrite Ht. reflexivity. }
  assert (Ho : record_offset (eip1271_record (inline_record blob 0)) = Some 65).
  { rewrite <- Hpos. reflexivity. }
  rewrite parse_safe_signatures_bytes.
  match goal with
  | |- parse_loop _ ?st = _ =>
      destruct (parse_loop_S (List.length blob) st _ Hp) as (ix & Hs)
  end.
  etransitivity; [exact Hs |]. clear Hs.
  cbv zeta. cbn [as_bytes eip_1271_positions parsed_signatures s].
  rewrite Ho.
  destruct (bytes_len (drop 65 blob) =? 0); reflexivity.
Qed.

(** The splitter agrees with the machine of the specification. *)
Lemma parse_safe_signatures_refines (blob : list byte) :
  parse_safe_signatures (PBytes blob) = splitter blob.
Proof.
  rewrite parse_safe_signatures_bytes. unfold splitter.
  apply parse_loop_refines. repeat split; cbn; lia.
Qed.

(** C2.  On every packed blob: the splitter is the machine that consumes
    65 bytes per in-line record and is done once the bytes consumed reach
    the smallest offset discovered so far or the blob is exhausted; what it
    returns are the in-line records up to the first such count, and when it
    fails, it is on a record that is shorter than 65 bytes (truncated) or of
    unknown type, met before any such count.  A 130-byte blob of two
    [ecdsa] or [eth_sign] records gives exactly two records; a blob whose
    first record is [eip1271] with position 65 gives exactly one. *)
Theorem parse_safe_signatures_splits (blob : list byte) :
  parse_safe_signatures (PBytes blob) = splitter blob
  /\ match parse_safe_signatures (PBytes blob) with
     | OK recs => split_result blob recs
     | Err e =>
         split_failure blob e
         /\ (e = TruncatedSignatureError \/ e = UnknownSignatureTypeError)
     end
  /\ (bytes_len blob < 65 ->
      parse_safe_signatures (PBytes blob) = Err TruncatedSignatureError)
  /\ (bytes_len blob = 130 ->
      27 <= type_byte (inline_record blob 0) ->
      27 <= type_byte (inline_record blob 1) ->
      exists r1 r2,
        parse_signature (inline_record blob 0) = OK r1
        /\ parse_signature (inline_record blob 1) = OK r2
        /\ parse_safe_signatures (PBytes blob) = OK [r1; r2])
  /\ (65 <= bytes_len blob ->
      type_byte (inline_record blob 0) = 0 ->
      int_from_bytes (take 32 (drop 32 (inline_record blob 0))) = 65 ->
      parse_safe_signatures (PBytes blob)
      = OK [eip1271_record (inline_record blob 0)]).
Proof.
  split; [apply parse_safe_signatures_refines |].
  split.
  { rewrite parse_safe_signatures_bytes.
    set (st := {| as_bytes := blob; eip_1271_positions := [];
                  eip_1271_indices := []; s := 0;
                  parsed_signatures := [] |}).
    assert (Hinv : loop_inv blob st).
    { unfold loop_inv, st.
      cbn [as_bytes eip_1271_positions parsed_signatures s List.length].
      split; [reflexivity |]. split; [reflexivity |]. split; [reflexivity |].
      split.
      - intros i r Hi. rewrite lookup_nil in Hi. discriminate.
      - intros j Hj. lia. }
    pose proof (parse_loop_outcome blob (S (List.length blob)) st Hinv) as Hout.
    assert (Hfuel : parse_loop (S (List.length blob)) st <> Err OutOfFuel)
      by (apply parse_loop_fuel; unfold st; cbn [as_bytes]; lia).
    destruct (parse_loop (S (List.length blob)) st) as [recs | e];
      [exact Hout |].
    destruct Hout as [-> | Hf]; [contradiction |].
    split; [exact Hf |].
    destruct Hf as (recs & _ & _ & He).
    destruct (parse_signature_errors _ _ He) as [[-> _] | [-> _]]; auto. }
  split.
  { intros Hl. rewrite parse_safe_signatures_bytes. cbn [parse_loop as_bytes].
    rewrite parse_signature_short; [reflexivity |].
    unfold bytes_len in *. rewrite length_take. lia. }
  split; [apply parse_two_signed_records | apply parse_eip1271_position_65].
Qed.

Lemma parse_safe_signatures_splits_witness :
  (exists r1 r2,
     parse_safe_signatures (PBytes (sample_record x1b ++ sample_record x1c))
     = OK [r1; r2])
  /\ parse_safe_signatures (PBytes (sample_record x00 ++ sample_record x1c))
     = OK [eip1271_record (sample_record x00)]
  /\ parse_safe_signatures (PBytes [x1b]) = Err TruncatedSignatureError.
Proof.
  split; [| split].
  - destruct (proj1 (proj2 (proj2 (proj2
        (parse_safe_signatures_splits
           (sample_record x1b ++ sample_record x1c))))))
      as (r1 & r2 & _ & _ & H).
    + reflexivity.
    + vm_compute. discriminate.
    + vm_compute. discriminate.
    + exists r1, r2. exact H.
  - apply (proj2 (proj2 (proj2 (proj2
        (parse_safe_signatures_splits
           (sample_record x00 ++ sample_record x1c)))))).
    + vm_compute. discriminate.
    + reflexivity.
    + reflexivity.
  - apply (proj1 (proj2 (proj2 (parse_safe_signatures_splits [x1b])))).
    reflexivity.
Defined.

(* ===================================================================== *)
(** * The signer resolver *)
(* ===================================================================== *)

Lemma str_eq_true (v : pyval) (s : string) : str_eq v s = true -> v = PStr s.
Proof.
  destruct v as [b|s'|z|]; simpl; try discriminate.
  intros H. apply String.eqb_eq in H. subst. reflexivity.
Qed.

Lemma getitem_ok (d : gmap string pyval) (k : string) (v : pyval) :
  getitem d k = OK v <-> d !! k = Some v.
Proof.
  unfold getitem. destruct (d !! k); split; intros H; try discriminate;
    injection H as <-; reflexivity.
Qed.

Section resolver.

Context (recover : pyval -> pyval * pyval * pyval -> option pyval).
Context (hash : pyval).

(** The loop body computes the signer the specification names. *)
Lemma signer_of_resolves (record : gmap string pyval) (a : pyval) :
  signer_of recover hash record = OK a <-> resolves recover hash record a.
Proof.
  unfold signer_of. split.
  - intros H. apply bind_ok in H as (ty & Hty & H).
    apply getitem_ok in Hty.
    destruct (str_eq ty "ecdsa") eqn:E1;
      [| destruct (str_eq ty "eth_sign") eqn:E2]; cbn [orb] in H.
    + apply str_eq_true in E1. subst ty.
      apply bind_ok in H as (v & Hv & H).
      apply bind_ok in H as (r & Hr & H).
      apply bind_ok in H as (s0 & Hs & H).
      apply getitem_ok in Hv, Hr, Hs.
      destruct (recover hash (v, r, s0)) as [a'|] eqn:Hrec; [| discriminate].
      injection H as <-. eapply resolves_ecdsa; eassumption.
    + apply str_eq_true in E2. subst ty.
      apply bind_ok in H as (v & Hv & H).
      apply bind_ok in H as (r & Hr & H).
      apply bind_ok in H as (s0 & Hs & H).
      apply getitem_ok in Hv, Hr, Hs.
      destruct (recover hash (v, r, s0)) as [a'|] eqn:Hrec; [| discriminate].
      injection H as <-. eapply resolves_eth_sign; eassumption.
    + destruct (str_eq ty "eip1271") eqn:E3.
      { apply str_eq_true in E3. subst ty. apply getitem_ok in H.
        apply resolves_eip1271; assumption. }
      destruct (str_eq ty "prevalidated") eqn:E4; [| discriminate].
      apply str_eq_true in E4. subst ty. apply getitem_ok in H.
      apply resolves_prevalidated; assumption.
  - intros H. unfold getitem.
    destruct H as [record v r s0 a Hty Hv Hr Hs Hrec
                  | record v r s0 a Hty Hv Hr Hs Hrec
                  | record a Hty Ha | record a Hty Ha];
      rewrite Hty; cbn [bind].
    + change (str_eq (PStr "ecdsa") "ecdsa") with true. cbn [orb].
      rewrite Hv, Hr, Hs. cbn [bind]. rewrite Hrec. reflexivity.
    + change (str_eq (PStr "eth_sign") "ecdsa") with false.
      change (str_eq (PStr "eth_sign") "eth_sign") with true. cbn [orb].
      rewrite Hv, Hr, Hs. cbn [bind]. rewrite Hrec. reflexivity.
    + change (str_eq (PStr "eip1271") "ecdsa") with false.
      change (str_eq (PStr "eip1271") "eth_sign") with false.
      change (str_eq (PStr "eip1271") "eip1271") with true. cbn [orb].
      rewrite Ha. reflexivity.
    + change (str_eq (PStr "prevalidated") "ecdsa") with false.
      change (str_eq (PStr "prevalidated") "eth_sign") with false.
      change (str_eq (PStr "prevalidated") "eip1271") with false.
      change (str_eq (PStr "prevalidated") "prevalidated") with true.
      cbn [orb]. rewrite Ha. reflexivity.
Qed.

Lemma signers_loop_resolves (records : list (gmap string pyval)) :
  forall acc out,
    signers_loop recover hash records acc = OK out
    <-> exists addrs,
          out = acc ++ addrs /\ Forall2 (resolves recover hash) records addrs.
Proof.
  induction records as [|record records IH]; intros acc out; simpl.
  - split.
    + intros [= <-]. exists []. rewrite app_nil_r. split; constructor.
    + intros (addrs & -> & HF). inversion HF. rewrite app_nil_r. reflexivity.
  - split.
    + intros H. apply bind_ok in H as (a & Ha & H).
      apply signer_of_resolves in Ha.
      apply IH in H as (addrs & -> & HF).
      exists (a :: addrs). rewrite <- app_assoc. split; [reflexivity |].
      constructor; assumption.
    + intros (addrs & -> & HF).
      inversion HF as [| record' a records' addrs' Ha HF' ]; subst.
      apply signer_of_resolves in Ha. rewrite Ha. cbn [bind].
      apply IH. exists addrs'. rewrite <- app_assoc. split; [reflexivity |].
      exact HF'.
Qed.

(** The loop body on each shape of classified record. *)
Lemma signer_of_ecdsa (signature : list byte) (v : Z) :
  signer_of recover hash (ecdsa_record signature v)
  = external InvalidSignatureError
      (recover hash
         (PInt v, PInt (int_from_bytes (take 32 signature)),
          PInt (int_from_bytes (take 32 (drop 32 signature))))).
Proof. reflexivity. Qed.

Lemma signer_of_eth_sign (signature : list byte) (v : Z) :
  signer_of recover hash (eth_sign_record signature v)
  = external InvalidSignatureError
      (recover hash
         (PInt v, PInt (int_from_bytes (take 32 signature)),
          PInt (int_from_bytes (take 32 (drop 32 signature))))).
Proof. reflexivity. Qed.

Lemma signer_of_eip1271 (signature : list byte) :
  signer_of recover hash (eip1271_record signature)
  = OK (PStr ("0x" +:+ bytes_hex (drop 12 (take 32 signature)))).
Proof. reflexivity. Qed.

Lemma signer_of_prevalidated (signature : list byte) :
  signer_of recover hash (prevalidated_record signature)
  = OK (PStr ("0x" +:+ bytes_hex (drop 12 (take 32 signature)))).
Proof. reflexivity. Qed.

(** A classified record has the entries the loop body reads, so that
    only the recovery primitive can make the body fail. *)
Lemma signer_of_classified (record : gmap string pyval) (e : error) :
  classified record ->
  signer_of recover hash record = Err e ->
  e = InvalidSignatureError.
Proof.
  intros (signature & Hp) H.
  pose proof (parse_signature_length _ _ Hp) as Hl.
  rewrite (parse_signature_cases _ Hl) in Hp. cbv zeta in Hp.
  destruct ((27 <=? _) && (_ <=? 30)).
  { injection Hp as <-. rewrite signer_of_ecdsa in H.
    destruct (recover _ _); [discriminate | injection H as <-; reflexivity]. }
  destruct (31 <=? _).
  { injection Hp as <-. rewrite signer_of_eth_sign in H.
    destruct (recover _ _); [discriminate | injection H as <-; reflexivity]. }
  destruct (_ =? 0).
  { injection Hp as <-. rewrite signer_of_eip1271 in H. discriminate. }
  destruct (_ =? 1); [| discriminate].
  injection Hp as <-. rewrite signer_of_prevalidated in H. discriminate.
Qed.

(** On classified records the body returns whenever recovery does. *)
Lemma signer_of_classified_total (record : gmap string pyval) :
  classified record ->
  (forall vrs, is_Some (recover hash vrs)) ->
  is_ok (signer_of recover hash record).
Proof.
  intros (signature & Hp) Hrec.
  pose proof (parse_signature_length _ _ Hp) as Hl.
  rewrite (parse_signature_cases _ Hl) in Hp. cbv zeta in Hp.
  destruct ((27 <=? _) && (_ <=? 30)).
  { injection Hp as <-. rewrite signer_of_ecdsa.
    destruct (Hrec (PInt (byte_val (List.last signature x00)),
                    PInt (int_from_bytes (take 32 signature)),
                    PInt (int_from_bytes (take 32 (drop 32 signature)))))
      as [a Ha].
    rewrite Ha. eexists. reflexivity. }
  destruct (31 <=? _).
  { injection Hp as <-. rewrite signer_of_eth_sign.
    destruct (Hrec (PInt (byte_val (List.last signature x00) - 4),
                    PInt (int_from_bytes (take 32 signature)),
                    PInt (int_from_bytes (take 32 (drop 32 signature)))))
      as [a Ha].
    rewrite Ha. eexists. reflexivity. }
  destruct (_ =? 0).
  { injection Hp as <-. rewrite signer_of_eip1271. eexists. reflexivity. }
  destruct (_ =? 1); [| discriminate].
  injection Hp as <-. rewrite signer_of_prevalidated. eexists. reflexivity.
Qed.

Lemma signers_loop_total (records : list (gmap string pyval)) :
  forall acc,
    Forall classified records ->
    (forall vrs, is_Some (recover hash vrs)) ->
    is_ok (signers_loop recover hash records acc).
Proof.
  induction records as [|record records IH]; intros acc HF Hrec; simpl.
  - eexists. reflexivity.
  - inversion HF as [| ? ? Hc HF']; subst.
    destruct (signer_of_classified_total record Hc Hrec) as [a Ha].
    rewrite Ha. cbn [bind]. apply IH; assumption.
Qed.

Lemma signers_loop_classified (records : list (gmap string pyval)) :
  forall acc e,
    Forall classified records ->
    signers_loop recover hash records acc = Err e ->
    e = InvalidSignatureError.
Proof.
  induction records as [|record records IH]; intros acc e HF H; simpl in H;
    [discriminate |].
  inversion HF as [| ? ? Hc HF']; subst.
  destruct (signer_of recover hash record) as [a|e'] eqn:Ha; cbn [bind] in H.
  - eapply IH; eassumption.
  - injection H as <-. eapply signer_of_classified; eassumption.
Qed.

(** C3.  The resolver returns [addrs] on a list of records exactly when
    [addrs] holds, in the order of the records, one signer per record: the
    result of the recovery primitive on [(hash, v, r, s)] for [ecdsa] and
    [eth_sign], the [verifier] entry for [eip1271] and the [validator]
    entry for [prevalidated], neither of which involves any call.  On
    classified records it fails only when the recovery primitive does,
    and returns as many addresses as there are records when the
    primitive never fails.  A packed blob is split and classified
    first. *)
Theorem resolver_signers (records : list (gmap string pyval)) :
  (forall addrs,
     _get_safe_transaction_signers recover (SigList records) hash = OK addrs
     <-> Forall2 (resolves recover hash) records addrs)
  /\ (forall e,
        Forall classified records ->
        _get_safe_transaction_signers recover (SigList records) hash = Err e ->
        e = InvalidSignatureError)
  /\ (Forall classified records ->
      (forall vrs, is_Some (recover hash vrs)) ->
      exists addrs,
        _get_safe_transaction_signers recover (SigList records) hash
        = OK addrs
        /\ List.length addrs = List.length records)
  /\ (forall blob,
        _get_safe_transaction_signers recover (SigObj (PBytes blob)) hash
        = let* parsed := parse_safe_signatures (PBytes blob) in
          _get_safe_transaction_signers recover (SigList parsed) hash).
Proof.
  assert (Hiff : forall addrs,
    _get_safe_transaction_signers recover (SigList records) hash = OK addrs
    <-> Forall2 (resolves recover hash) records addrs).
  { intros addrs. unfold _get_safe_transaction_signers. cbn [bind].
    rewrite signers_loop_resolves. split.
    + intros (addrs' & -> & HF). exact HF.
    + intros HF. exists addrs. split; [reflexivity | exact HF]. }
  split; [exact Hiff |]. split; [| split].
  - intros e HF H. unfold _get_safe_transaction_signers in H. cbn [bind] in H.
    eapply signers_loop_classified; eassumption.
  - intros HF Hrec.
    destruct (signers_loop_total records [] HF Hrec) as [addrs Ha].
    exists addrs. split; [exact Ha |].
    apply Hiff in Ha. symmetry. exact (Forall2_length _ _ _ Ha).
  - intros blob. reflexivity.
Qed.

End resolver.

Lemma resolver_signers_witness :
  _get_safe_transaction_signers (fun _ _ => Some (PStr "0x01"))
    (SigList [ecdsa_record (sample_record x1c) 28;
              eip1271_record (sample_record x00)])
    (PBytes [])
  = OK [PStr "0x01"; PStr "0x0000000000000000000000000000000000000007"].
Proof.
  apply (proj1 (resolver_signers (fun _ _ => Some (PStr "0x01")) (PBytes [])
                  [ecdsa_record (sample_record x1c) 28;
                   eip1271_record (sample_record x00)])).
  constructor; [| constructor; [| constructor]].
  - eapply resolves_ecdsa; reflexivity.
  - eapply resolves_eip1271; reflexivity.
Defined.

(* ===================================================================== *)
(** * The call-data bridge *)
(* ===================================================================== *)

Section bridge.

Context {function_abi : Type}.
Context (decode_call_data : pyval -> function_abi -> option decoded).
Context (execTransaction_abi : function_abi).
Context (safe_transaction_keys : list string).

(** The comprehension copies the parameter of every key but [nonce] and
    leaves the other entries of the accumulator alone. *)
Lemma copy_parameters_spec (keys : list string)
    (parameters : gmap string pyval) :
  forall acc : gmap string pyval,
    (forall key, key ∈ keys -> key <> "nonce" -> is_Some (parameters !! key)) ->
    exists tx : gmap string pyval,
      copy_parameters keys parameters acc = OK tx
      /\ forall key,
           tx !! key
           = if decide (key ∈ keys /\ key <> "nonce")
             then parameters !! key
             else acc !! key.
Proof.
  induction keys as [|k keys IH]; intros acc Hin; cbn [copy_parameters].
  - exists acc. split; [reflexivity |]. intros key.
    case_decide as H; [destruct H as [H _]; inversion H | reflexivity].
  - destruct (String.eqb_spec k "nonce") as [-> | Hk]; cbn [negb].
    + destruct (IH acc) as (tx & Htx & Hl).
      { intros key Hkey. apply Hin. right. exact Hkey. }
      exists tx. split; [exact Htx |]. intros key. rewrite Hl.
      destruct (decide (key ∈ keys /\ key <> "nonce")) as [[H1 H2] | Hn];
        destruct (decide (key ∈ "nonce" :: keys /\ key <> "nonce"))
          as [[H3 H4] | Hn']; try reflexivity.
      * exfalso. apply Hn'. split; [right; exact H1 | exact H2].
      * exfalso. apply Hn. split; [| exact H4].
        apply elem_of_cons in H3 as [-> | H3]; [contradiction | exact H3].
    + destruct (Hin k) as [v Hv]; [left | exact Hk |].
      unfold getitem. rewrite Hv. cbn [bind].
      destruct (IH (<[k := v]> acc)) as (tx & Htx & Hl).
      { intros key Hkey. apply Hin. right. exact Hkey. }
      exists tx. split; [exact Htx |]. intros key. rewrite Hl.
      destruct (decide (key ∈ keys /\ key <> "nonce")) as [[H1 H2] | Hn];
        destruct (decide (key ∈ k :: keys /\ key <> "nonce"))
          as [[H3 H4] | Hn']; try reflexivity.
      * exfalso. apply Hn'. split; [right; exact H1 | exact H2].
      * apply elem_of_cons in H3 as [-> | H3].
        { rewrite lookup_insert_eq. symmetry. exact Hv. }
        exfalso. apply Hn. split; assumption.
      * destruct (decide (k = key)) as [-> | Hne].
        { exfalso. destruct (decide (key = "nonce")) as [-> | Hk'];
            [contradiction |]. apply Hn'. split; [left | exact Hk']. }
        rewrite lookup_insert_ne by exact Hne. reflexivity.
Qed.

(** C9.  When the call data decodes and holds a parameter for every key
    of the safe transaction other than [nonce], the transaction is built:
    its [nonce] is the nonce of the caller, whatever was decoded, and each
    other key of the safe transaction holds the decoded parameter of that
    key; it has no further entry. *)
Theorem safe_transaction_from_call_data_fields
    (call_data nonce : pyval) (d : decoded) :
  decode_call_data call_data execTransaction_abi = Some d ->
  (forall key,
     key ∈ safe_transaction_keys -> key <> "nonce" ->
     is_Some (named_parameters d !! key)) ->
  exists tx : gmap string pyval,
    get_safe_transaction_from_call_data decode_call_data execTransaction_abi
      safe_transaction_keys call_data nonce = OK tx
    /\ tx !! "nonce" = Some nonce
    /\ (forall key,
         key ∈ safe_transaction_keys -> key <> "nonce" ->
         tx !! key = named_parameters d !! key)
    /\ (forall key,
         key ∉ safe_transaction_keys -> key <> "nonce" -> tx !! key = None).
Proof.
  intros Hd Hin. unfold get_safe_transaction_from_call_data.
  rewrite Hd. cbn [external bind].
  destruct (copy_parameters_spec safe_transaction_keys (named_parameters d)
              ∅ Hin) as (tx & Htx & Hl).
  rewrite Htx. cbn [bind]. eexists. split; [reflexivity |].
  split; [apply lookup_insert_eq |]. split.
  - intros key Hk Hn. rewrite lookup_insert_ne by congruence. rewrite Hl.
    case_decide as Hno; [reflexivity |].
    exfalso. apply Hno. split; assumption.
  - intros key Hk Hn. rewrite lookup_insert_ne by congruence. rewrite Hl.
    case_decide as Hyes; [destruct Hyes as [Hyes _]; contradiction |].
    apply lookup_empty.
Qed.

End bridge.

Lemma safe_transaction_from_call_data_fields_witness :
  exists tx : gmap string pyval,
    get_safe_transaction_from_call_data sample_decoder tt
      ["to"; "value"; "nonce"] (PStr "0xab") (PInt 7) = OK tx
    /\ tx !! "nonce" = Some (PInt 7)
    /\ tx !! "to" = Some (PStr "0x01")
    /\ tx !! "value" = Some (PInt 5)
    /\ tx !! "signatures" = None.
Proof.
  destruct (safe_transaction_from_call_data_fields sample_decoder tt
              ["to"; "value"; "nonce"] (PStr "0xab") (PInt 7) _ eq_refl)
    as (tx & Htx & Hn & Hin & Hout).
  - intros key Hk Hne.
    apply elem_of_cons in Hk as [-> | Hk]; [eexists; reflexivity |].
    apply elem_of_cons in Hk as [-> | Hk]; [eexists; reflexivity |].
    apply elem_of_cons in Hk as [-> | Hk]; [contradiction | inversion Hk].
  - exists tx. split; [exact Htx |]. split; [exact Hn |].
    split; [| split].
    + rewrite Hin; [reflexivity | left | discriminate].
    + rewrite Hin; [reflexivity | right; left | discriminate].
    + apply Hout; [| discriminate].
      intros Hk. repeat (apply elem_of_cons in Hk as [Hk | Hk];
                         [discriminate Hk |]). inversion Hk.
Defined.

(* ===================================================================== *)
(** * The missing-inputs check *)
(* ===================================================================== *)

Lemma bind_err {A B} (m : result A) (k : A -> result B) (e : error) :
  bind m k = Err e -> m = Err e \/ exists a, m = OK a /\ k a = Err e.
Proof. destruct m as [a|e']; simpl; [eauto | intros [= <-]; auto]. Qed.

(** Case analysis on every test a failing computation went through. *)
Ltac failure_cases H :=
  unfold bind, getitem, external in H;
  repeat match goal with
         | H' : context [match ?x with _ => _ end] |- _ => destruct x eqn:?
         end;
  try congruence.

Lemma bytes_fromhex_err (s : string) :
  (forall e, bytes_fromhex s = Err e -> e = ValueError)
  /\ (forall c e, bytes_fromhex (String c s) = Err e -> e = ValueError).
Proof.
  induction s as [|a r [IH0 IH1]].
  - split; [discriminate |]. intros c e [= <-]. reflexivity.
  - split; [apply IH1 |]. intros c e H. cbn [bytes_fromhex] in H.
    destruct (hex_digit c); [| injection H as <-; reflexivity].
    destruct (hex_digit a); [| injection H as <-; reflexivity].
    apply bind_err in H as [H | (b & _ & H)]; [eauto | discriminate].
Qed.

Lemma convert_binary_not_missing (x : pyval) :
  convert x (Some binary) None None <> Err MissingInputsError.
Proof.
  intros H. unfold convert in H.
  destruct x as [b|s|z|]; cbv beta iota zeta in H.
  - discriminate.
  - apply bind_err in H as [H | (b & _ & H)]; [| discriminate].
    apply (proj1 (bytes_fromhex_err _)) in H. discriminate.
  - destruct (z <? 0) eqn:E; [discriminate |].
    unfold get_binary_n_bytes, int_to_bytes in H. rewrite E in H.
    failure_cases H.
  - discriminate.
Qed.

Lemma parse_loop_not_missing (fuel : nat) :
  forall st, parse_loop fuel st <> Err MissingInputsError.
Proof.
  induction fuel as [|fuel IH]; intros st; [discriminate |].
  destruct (parse_signature (take 65 (as_bytes st))) as [record|e] eqn:Hp.
  - destruct (parse_loop_S fuel st record Hp) as (indices & Hstep).
    cbv zeta in Hstep. rewrite Hstep.
    destruct (bytes_len _ =? 0); [discriminate |].
    destruct (match list_min _ with OK m => _ | Err _ => false end);
      [discriminate | apply IH].
  - cbn [parse_loop]. rewrite Hp. cbn [bind].
    destruct (parse_signature_errors _ _ Hp) as [[-> _] | [-> _]]; discriminate.
Qed.

Lemma parse_safe_signatures_not_missing (x : pyval) :
  parse_safe_signatures x <> Err MissingInputsError.
Proof.
  unfold parse_safe_signatures. intros H.
  apply bind_err in H as [H | (v & _ & H)].
  - exact (convert_binary_not_missing x H).
  - destruct v; try discriminate. exact (parse_loop_not_missing _ _ H).
Qed.

Section missing_inputs.

Context {function_abi struct_type : Type}.
Context (recover : pyval -> pyval * pyval * pyval -> option pyval).
Context (decode_call_data : pyval -> function_abi -> option decoded).
Context (eip712_hash :
           gmap string pyval -> struct_type -> gmap string pyval
           -> option pyval).
Context (execTransaction_abi : function_abi).
Context (safe_transaction_type : struct_type).
Context (safe_transaction_keys : list string).

Lemma signers_loop_not_missing (hash : pyval)
    (records : list (gmap string pyval)) :
  forall acc,
    signers_loop recover hash records acc <> Err MissingInputsError.
Proof.
  induction records as [|record records IH]; intros acc H; simpl in H;
    [discriminate |].
  apply bind_err in H as [H | (a & _ & H)]; [| exact (IH _ H)].
  unfold signer_of in H. failure_cases H.
Qed.

Lemma resolver_not_missing (signatures : signatures_arg) (hash : pyval) :
  _get_safe_transaction_signers recover signatures hash
  <> Err MissingInputsError.
Proof.
  unfold _get_safe_transaction_signers. intros H.
  apply bind_err in H as [H | (l & _ & H)].
  - destruct signatures as [l | [b|s0|z|]]; try discriminate;
      exact (parse_safe_signatures_not_missing _ H).
  - exact (signers_loop_not_missing _ _ _ H).
Qed.

Lemma signatures_from_call_data_not_missing (call_data : pyval) :
  get_safe_signatures_from_call_data decode_call_data execTransaction_abi
    call_data <> Err MissingInputsError.
Proof.
  unfold get_safe_signatures_from_call_data. intros H.
  apply bind_err in H as [H | (d & _ & H)]; [failure_cases H |].
  apply bind_err in H as [H | (raw & _ & H)]; [failure_cases H |].
  exact (parse_safe_signatures_not_missing _ H).
Qed.

Lemma copy_parameters_not_missing (keys : list string)
    (parameters : gmap string pyval) :
  forall acc, copy_parameters keys parameters acc <> Err MissingInputsError.
Proof.
  induction keys as [|k keys IH]; intros acc H; cbn [copy_parameters] in H;
    [discriminate |].
  destruct (negb _); [| exact (IH _ H)].
  apply bind_err in H as [H | (v & _ & H)]; [failure_cases H |].
  exact (IH _ H).
Qed.

Lemma built_hash_not_missing (chain_id safe_address call_data nonce : pyval) :
  (let* safe_transaction :=
     get_safe_transaction_from_call_data decode_call_data
       execTransaction_abi safe_transaction_keys call_data nonce in
   hash_safe_transaction eip712_hash safe_transaction_type safe_transaction
     chain_id safe_address)
  <> Err MissingInputsError.
Proof.
  intros H. apply bind_err in H as [H | (tx & _ & H)].
  - unfold get_safe_transaction_from_call_data in H.
    apply bind_err in H as [H | (d & _ & H)]; [failure_cases H |].
    apply bind_err in H as [H | (tx & _ & H)]; [| discriminate].
    exact (copy_parameters_not_missing _ _ _ H).
  - unfold hash_safe_transaction in H. failure_cases H.
Qed.

(** C8, as amended.  [get_safe_transaction_signers] raises the
    missing-inputs error only when no transaction hash is supplied and one
    of [call_data], [nonce], [chain_id], [safe_address] is missing; it
    does raise it then, provided the signatures are supplied or their
    extraction from [call_data] succeeds; when the signatures are not
    supplied and their extraction fails, the failure of the extraction is
    what is raised; when a hash is supplied or the four ingredients are,
    the missing-inputs error is not raised. *)
Theorem missing_inputs_error (signatures : signatures_arg)
    (safe_transaction_hash : pyval)
    (safe_transaction : option (gmap string pyval))
    (chain_id safe_address call_data nonce : pyval) :
  let result :=
    get_safe_transaction_signers recover decode_call_data eip712_hash
      execTransaction_abi safe_transaction_type safe_transaction_keys
      signatures safe_transaction_hash safe_transaction
      chain_id safe_address call_data nonce in
  let no_hash := is_none safe_transaction_hash in
  let missing :=
    is_none call_data || is_none nonce || is_none chain_id
    || is_none safe_address in
  (result = Err MissingInputsError -> no_hash = true /\ missing = true)
  /\ (no_hash = true -> missing = true ->
      signatures <> SigObj PNone
      \/ is_ok (get_safe_signatures_from_call_data decode_call_data
                  execTransaction_abi call_data) ->
      result = Err MissingInputsError)
  /\ (signatures = SigObj PNone ->
      forall e,
        get_safe_signatures_from_call_data decode_call_data
          execTransaction_abi call_data = Err e ->
        result = Err e)
  /\ (no_hash = false \/ missing = false ->
      result <> Err MissingInputsError).
Proof.
  intros result no_hash missing.
  assert (Honly : result = Err MissingInputsError ->
                  no_hash = true /\ missing = true).
  { unfold result, get_safe_transaction_signers. intros H.
    apply bind_err in H as [H | (sigs & _ & H)].
    { exfalso. destruct signatures as [l | [b|s0|z|]]; try discriminate.
      apply bind_err in H as [H | (l & _ & H)]; [| discriminate].
      exact (signatures_from_call_data_not_missing _ H). }
    apply bind_err in H as [H | (h & _ & H)];
      [| exfalso; exact (resolver_not_missing _ _ H)].
    fold no_hash missing in H.
    destruct no_hash; [| discriminate].
    destruct missing; [split; reflexivity |].
    exfalso. exact (built_hash_not_missing _ _ _ _ H). }
  split; [exact Honly |]. split; [| split].
  - intros Hh Hm Hs. unfold result, get_safe_transaction_signers.
    fold no_hash missing. rewrite Hh, Hm.
    destruct Hs as [Hs | [l Hl]].
    + destruct signatures as [l | [b|s0|z|]]; try reflexivity.
      contradiction.
    + destruct signatures as [l' | [b|s0|z|]]; try reflexivity.
      rewrite Hl. reflexivity.
  - intros -> e He. unfold result, get_safe_transaction_signers.
    rewrite He. reflexivity.
  - intros Hor Hres. destruct (Honly Hres) as [Hh Hm].
    destruct Hor as [Hor | Hor]; congruence.
Qed.

End missing_inputs.

Lemma missing_inputs_error_witness :
  get_safe_transaction_signers (fun _ _ => None) sample_decoder
    (fun _ (_ : unit) _ => None) tt tt ["to"; "value"; "nonce"]
    (SigList []) PNone None (PInt 1) (PStr "0x01") (PStr "0xab") PNone
  = Err MissingInputsError.
Proof.
  apply (proj1 (proj2 (missing_inputs_error (fun _ _ => None) sample_decoder
                         (fun _ (_ : unit) _ => None) tt tt
                         ["to"; "value"; "nonce"]
                         (SigList []) PNone None (PInt 1) (PStr "0x01")
                         (PStr "0xab") PNone))).
  - reflexivity.
  - reflexivity.
  - left. discriminate.
Defined.

(** No hash and no ingredient at all, and no signatures either: the
    extraction of the signatures from the absent call data runs first, and
    the error raised is that of the decoder, not the missing-inputs one. *)
Lemma missing_inputs_preempted_by_decoding :
  is_none PNone = true
  /\ get_safe_transaction_signers (fun _ _ => None) sample_decoder
       (fun _ (_ : unit) _ => None) tt tt ["to"; "value"; "nonce"]
       (SigObj PNone) PNone None PNone PNone PNone PNone
     = Err DecodeError
  /\ get_safe_transaction_signers (fun _ _ => None) sample_decoder
       (fun _ (_ : unit) _ => None) tt tt ["to"; "value"; "nonce"]
       (SigObj PNone) PNone None PNone PNone PNone PNone
     <> Err MissingInputsError.
Proof.
  split; [reflexivity |]. split; [reflexivity | discriminate].
Qed.

(* ===================================================================== *)
(** * The codec: bytes and their hexadecimal print *)
(* ===================================================================== *)

Lemma byte_of_Z_val (b : byte) : byte_of_Z (byte_val b) = b.
Proof.
  unfold byte_of_Z, byte_val.
  rewrite Z.mod_small by apply (byte_val_range b).
  rewrite N2Z.id, Byte.of_to_N. reflexivity.
Qed.

(** The two digits [bytes.hex()] prints for a byte read back as its
    high and low half. *)
Lemma hex_digit_hex_char (x : byte) :
  hex_digit (hex_char (byte_val x / 16)) = Some (byte_val x / 16)
  /\ hex_digit (hex_char (byte_val x mod 16)) = Some (byte_val x mod 16).
Proof. destruct x; split; reflexivity. Qed.

Lemma bytes_fromhex_hex (b : list byte) : bytes_fromhex (bytes_hex b) = OK b.
Proof.
  induction b as [|x b IH]; [reflexivity |].
  cbn [bytes_hex bytes_fromhex].
  destruct (hex_digit_hex_char x) as [-> ->]. rewrite IH. cbn [bind].
  replace (16 * (byte_val x / 16) + byte_val x mod 16) with (byte_val x)
    by lia_mod.
  rewrite byte_of_Z_val. reflexivity.
Qed.

Lemma all_hex_bytes_hex (b : list byte) : all_hex (bytes_hex b) = true.
Proof.
  induction b as [|x b IH]; [reflexivity |].
  cbn [bytes_hex all_hex]. unfold is_hex_digit.
  destruct (hex_digit_hex_char x) as [-> ->]. exact IH.
Qed.

Lemma str_len_bytes_hex (b : list byte) :
  str_len (bytes_hex b) = 2 * bytes_len b.
Proof. unfold str_len, bytes_len. rewrite bytes_hex_length. lia. Qed.

Lemma hex_value_bytes_hex (b : list byte) (acc : Z) :
  hex_value acc (bytes_hex b)
  = Some (acc * 256 ^ bytes_len b + int_from_bytes b).
Proof.
  unfold bytes_len. revert acc.
  induction b as [|x b IH] using rev_ind; intros acc.
  - cbn. f_equal. lia.
  - assert (Happ : forall l1 l2,
              bytes_hex (l1 ++ l2) = bytes_hex l1 +:+ bytes_hex l2).
    { intros l1 l2. induction l1 as [|y l1 IH1]; [reflexivity |].
      cbn [bytes_hex app String.append]. rewrite IH1. reflexivity. }
    rewrite Happ, hex_value_app, IH. cbn [bytes_hex hex_value].
    destruct (hex_digit_hex_char x) as [-> ->].
    rewrite int_from_bytes_snoc, length_app. cbn [List.length].
    replace (Z.of_nat (List.length b + 1)) with (Z.of_nat (List.length b) + 1)
      by lia.
    rewrite Z.pow_add_r by lia. f_equal. lia_mod.
Qed.

Lemma bytes_fromhex_length (s : string) (b : list byte) :
  bytes_fromhex s = OK b -> str_len s = 2 * bytes_len b.
Proof.
  assert (H : forall t,
            (forall b, bytes_fromhex t = OK b -> str_len t = 2 * bytes_len b)
            /\ (forall c b, bytes_fromhex (String c t) = OK b ->
                            str_len (String c t) = 2 * bytes_len b)).
  { clear. intros t. induction t as [|a r [IH0 IH1]].
    - split; [intros b [= <-]; reflexivity | discriminate].
    - split; [apply IH1 |]. intros c b H. cbn [bytes_fromhex] in H.
      destruct (hex_digit c); [| discriminate].
      destruct (hex_digit a); [| discriminate].
      apply bind_ok in H as (bs & Hbs & [= <-]).
      rewrite !str_len_cons, (IH0 _ Hbs). unfold bytes_len.
      cbn [List.length]. lia. }
  apply H.
Qed.

(** X1.  Bytes converted to [prefix_hex] or [raw_hex] and converted back to
    [binary] are the same bytes. *)
Theorem convert_bytes_hex_roundtrip (b : list byte) (f : BinaryFormat) :
  f = prefix_hex \/ f = raw_hex ->
  exists s,
    convert (PBytes b) (Some f) None None = OK (PStr s)
    /\ convert (PStr s) (Some binary) None None = OK (PBytes b).
Proof.
  assert (Hraw : convert (PStr (bytes_hex b)) (Some binary) None None
                 = OK (PBytes b)).
  { unfold convert.
    destruct (all_hex_no_prefix _ (all_hex_bytes_hex b)) as [-> _].
    cbv beta iota zeta.
    replace (str_len (bytes_hex b) mod 2 =? 1) with false
      by (symmetry; apply Z.eqb_neq; rewrite str_len_bytes_hex; lia_mod).
    rewrite bytes_fromhex_hex. reflexivity. }
  intros [-> | ->]; eexists; (split; [reflexivity |]); [| exact Hraw].
  unfold convert. rewrite startswith_prefixed. cbv beta iota zeta.
  change (str_drop 2 ("0x" +:+ bytes_hex b)) with (bytes_hex b).
  replace (str_len (bytes_hex b) mod 2 =? 1) with false
    by (symmetry; apply Z.eqb_neq; rewrite str_len_bytes_hex; lia_mod).
  rewrite bytes_fromhex_hex. reflexivity.
Qed.

Lemma convert_bytes_hex_roundtrip_witness :
  exists s,
    convert (PBytes [x00; xff]) (Some prefix_hex) None None = OK (PStr s)
    /\ convert (PStr s) (Some binary) None None = OK (PBytes [x00; xff]).
Proof.
  apply (convert_bytes_hex_roundtrip [x00; xff] prefix_hex).
  left. reflexivity.
Defined.

(** What the codec says of a string of an even number of hexadecimal
    digits, bare and behind [0x]. *)
Lemma raw_hex_facts (d : string) :
  all_hex d = true -> str_len d mod 2 = 0 ->
  get_binary_format (PStr d) = OK raw_hex
  /\ get_binary_n_bytes (PStr d) = OK (str_len d / 2)
  /\ valid_binary_value (PStr d) = true.
Proof.
  intros Hh He.
  assert (Hd : hex_digits_of d = d).
  { unfold hex_digits_of. destruct (all_hex_no_prefix d Hh) as [-> _].
    reflexivity. }
  split; [| split].
  - unfold get_binary_format. destruct (all_hex_no_prefix d Hh) as [-> _].
    reflexivity.
  - rewrite get_binary_n_bytes_hex by (rewrite Hd; exact He).
    rewrite Hd. reflexivity.
  - cbn [valid_binary_value]. rewrite Hd, Hh, He. reflexivity.
Qed.

Lemma prefix_hex_facts (d : string) :
  all_hex d = true -> str_len d mod 2 = 0 ->
  get_binary_format (PStr ("0x" +:+ d)) = OK prefix_hex
  /\ get_binary_n_bytes (PStr ("0x" +:+ d)) = OK (str_len d / 2)
  /\ valid_binary_value (PStr ("0x" +:+ d)) = true.
Proof.
  intros Hh He.
  assert (Hd : hex_digits_of ("0x" +:+ d) = d).
  { unfold hex_digits_of. rewrite startswith_prefixed. reflexivity. }
  split; [| split].
  - unfold get_binary_format. rewrite startswith_prefixed. reflexivity.
  - rewrite get_binary_n_bytes_hex by (rewrite Hd; exact He).
    rewrite Hd. reflexivity.
  - cbn [valid_binary_value]. rewrite Hd, Hh, He. reflexivity.
Qed.

(** [convert] of a hex string to each format of a byte string. *)
Lemma convert_hex_string (s : string) :
  convert (PStr s) (Some prefix_hex) None None
  = OK (PStr ("0x" +:+ hex_digits_of s))
  /\ convert (PStr s) (Some raw_hex) None None = OK (PStr (hex_digits_of s))
  /\ (str_len (hex_digits_of s) mod 2 = 0 ->
      convert (PStr s) (Some binary) None None
      = let* b := bytes_fromhex (hex_digits_of s) in OK (PBytes b)).
Proof.
  split; [reflexivity |]. split; [reflexivity |].
  intros He. unfold convert. fold (hex_digits_of s). cbv beta iota zeta.
  replace (str_len (hex_digits_of s) mod 2 =? 1) with false
    by (symmetry; apply Z.eqb_neq; lia).
  reflexivity.
Qed.

(** [convert] of a non-negative integer to each format of a byte string,
    with the default arguments. *)
Lemma convert_integer_default (v : Z) :
  0 <= v ->
  let b := be_bytes (Z.to_nat ((bit_length v + 7) / 8)) v in
  convert (PInt v) (Some binary) None None = OK (PBytes b)
  /\ convert (PInt v) (Some prefix_hex) None None
     = OK (PStr ("0x" +:+ bytes_hex b))
  /\ convert (PInt v) (Some raw_hex) None None = OK (PStr (bytes_hex b))
  /\ bytes_len b = (bit_length v + 7) / 8.
Proof.
  intros Hv b.
  pose proof (bit_length_nonneg v) as Hl.
  assert (H0 : 0 <= (bit_length v + 7) / 8) by (apply Z.div_pos; lia).
  assert (Hfit : v < 256 ^ ((bit_length v + 7) / 8))
    by (apply n_bytes_fits; lia).
  assert (Hneg : (v <? 0) = false) by (apply Z.ltb_ge; exact Hv).
  unfold convert, get_binary_n_bytes. rewrite Hneg. cbn [bind].
  rewrite int_to_bytes_ok by lia. cbn [bind negb]. fold b.
  repeat split. unfold bytes_len, b. rewrite be_bytes_length. lia.
Qed.

(** X2.  A valid binary value, in any of the four representations,
    converted to [binary], [prefix_hex] or [raw_hex] with the default
    arguments gives a valid value of that format and of the same byte
    length. *)
Theorem convert_preserves_byte_length (x : pyval) (f : BinaryFormat) (n : Z) :
  valid_binary_value x = true ->
  byte_string_format f = true ->
  get_binary_n_bytes x = OK n ->
  exists y,
    convert x (Some f) None None = OK y
    /\ get_binary_format y = OK f
    /\ get_binary_n_bytes y = OK n
    /\ valid_binary_value y = true.
Proof.
  intros Hx Hf Hn.
  assert (Hbytes : forall b,
            bytes_len b = n ->
            get_binary_format (PBytes b) = OK binary
            /\ get_binary_n_bytes (PBytes b) = OK n
            /\ valid_binary_value (PBytes b) = true).
  { intros b <-. repeat split. }
  assert (Hhex : forall b, str_len (bytes_hex b) mod 2 = 0).
  { intros b. rewrite str_len_bytes_hex. lia_mod. }
  assert (Hhalf : forall b, str_len (bytes_hex b) / 2 = bytes_len b).
  { intros b. rewrite str_len_bytes_hex. lia_mod. }
  destruct x as [b|s0|v|]; try discriminate.
  - cbn [get_binary_n_bytes] in Hn. injection Hn as Hn.
    destruct f; try discriminate.
    + exists (PBytes b). split; [reflexivity | apply Hbytes; exact Hn].
    + exists (PStr ("0x" +:+ bytes_hex b)). split; [reflexivity |].
      rewrite <- Hn, <- Hhalf.
      apply prefix_hex_facts; [apply all_hex_bytes_hex | apply Hhex].
    + exists (PStr (bytes_hex b)). split; [reflexivity |].
      rewrite <- Hn, <- Hhalf.
      apply raw_hex_facts; [apply all_hex_bytes_hex | apply Hhex].
  - cbn [valid_binary_value] in Hx. apply andb_prop in Hx as [Hh He].
    apply Z.eqb_eq in He.
    rewrite (get_binary_n_bytes_hex s0 He) in Hn. injection Hn as Hn.
    destruct (convert_hex_string s0) as (Hp & Hr & Hb).
    destruct f; try discriminate.
    + destruct (proj1 (bytes_fromhex_ok _ Hh) He) as [b Hfrom].
      exists (PBytes b). rewrite (Hb He), Hfrom. split; [reflexivity |].
      apply Hbytes. pose proof (bytes_fromhex_length _ _ Hfrom). lia_mod.
    + eexists. split; [exact Hp |]. rewrite <- Hn.
      apply prefix_hex_facts; assumption.
    + eexists. split; [exact Hr |]. rewrite <- Hn.
      apply raw_hex_facts; assumption.
  - cbn [valid_binary_value] in Hx. apply Z.leb_le in Hx.
    destruct (convert_integer_default v Hx) as (Hb & Hp & Hr & Hl).
    cbn [get_binary_n_bytes] in Hn.
    replace (v <? 0) with false in Hn by (symmetry; apply Z.ltb_ge; lia).
    injection Hn as <-.
    set (b0 := be_bytes _ v) in *. clearbody b0.
    destruct f; try discriminate.
    + eexists. split; [exact Hb |]. apply Hbytes. exact Hl.
    + eexists. split; [exact Hp |]. rewrite <- Hl, <- Hhalf.
      apply prefix_hex_facts; [apply all_hex_bytes_hex | apply Hhex].
    + eexists. split; [exact Hr |]. rewrite <- Hl, <- Hhalf.
      apply raw_hex_facts; [apply all_hex_bytes_hex | apply Hhex].
Qed.

Lemma convert_preserves_byte_length_witness :
  exists y,
    convert (PInt 258) (Some raw_hex) None None = OK y
    /\ get_binary_format y = OK raw_hex
    /\ get_binary_n_bytes y = OK 2
    /\ valid_binary_value y = true.
Proof.
  apply (convert_preserves_byte_length (PInt 258) raw_hex 2);
    reflexivity.
Defined.

(* ===================================================================== *)
(** * The codec: integers and their hexadecimal print *)
(* ===================================================================== *)

Lemma lstrip0_value (t : string) : hex_value 0 (lstrip0 t) = hex_value 0 t.
Proof.
  induction t as [|c r IH]; [reflexivity |]. cbn [lstrip0].
  destruct (Ascii.eqb_spec c "0") as [-> | _]; [| reflexivity].
  rewrite IH. reflexivity.
Qed.

Lemma lstrip0_all_hex (t : string) : all_hex t = true -> all_hex (lstrip0 t) = true.
Proof.
  induction t as [|c r IH]; [reflexivity |]. intros H. cbn [lstrip0].
  destruct (Ascii.eqb c "0"); [| exact H].
  apply IH. cbn [all_hex] in H. apply andb_prop in H as [_ H]. exact H.
Qed.

(** [int(s, 16)] on digits, bare and behind [0x]. *)
Lemma int_base16_of_digits (h : string) (v : Z) :
  all_hex h = true -> h <> EmptyString -> hex_value 0 h = Some v ->
  int_base16 h = OK v /\ int_base16 ("0x" +:+ h) = OK v.
Proof.
  intros Hh Hne Hv.
  assert (Hl : 0 < str_len h).
  { destruct h; [contradiction |]. rewrite str_len_cons.
    pose proof (str_len_nonneg h). lia. }
  split.
  - destruct (int_base16_digits h) as (w & Hw & Hi).
    + unfold hex_digits_of. destruct (all_hex_no_prefix h Hh) as [-> _].
      exact Hh.
    + unfold hex_digits_of. destruct (all_hex_no_prefix h Hh) as [-> _].
      exact Hl.
    + unfold hex_digits_of in Hw.
      destruct (all_hex_no_prefix h Hh) as [E _]. rewrite E in Hw.
      congruence.
  - destruct (int_base16_digits ("0x" +:+ h)) as (w & Hw & Hi).
    + unfold hex_digits_of. rewrite startswith_prefixed. exact Hh.
    + unfold hex_digits_of. rewrite startswith_prefixed. exact Hl.
    + unfold hex_digits_of in Hw. rewrite startswith_prefixed in Hw.
      change (str_drop 2 ("0x" +:+ h)) with h in Hw. congruence.
Qed.

Lemma convert_str_integer (s0 : string) :
  convert (PStr s0) (Some integer) None None
  = let* v := int_base16 s0 in OK (PInt v).
Proof. reflexivity. Qed.

Lemma convert_integer_hex (v m : Z) (n : option Z) (k : option bool) :
  0 <= v ->
  (bit_length v + 7) / 8 <= m ->
  n = None /\ m = (bit_length v + 7) / 8 \/ n = Some m ->
  let keep := match k with None => true | Some b => b end in
  convert (PInt v) (Some prefix_hex) n k
  = OK (PStr ("0x" +:+ integer_digits v m keep))
  /\ convert (PInt v) (Some raw_hex) n k = OK (PStr (integer_digits v m keep)).
Proof.
  intros Hv Hm Hn keep.
  pose proof (bit_length_nonneg v) as Hl.
  assert (H0 : 0 <= (bit_length v + 7) / 8) by (apply Z.div_pos; lia).
  assert (Hfit : v < 256 ^ m) by (apply n_bytes_fits; lia).
  assert (Hneg : (v <? 0) = false) by (apply Z.ltb_ge; exact Hv).
  assert (Hw : (let* n_bytes :=
                  match n with
                  | None => get_binary_n_bytes (PInt v)
                  | Some n0 => OK n0
                  end in int_to_bytes v n_bytes)
               = OK (be_bytes (Z.to_nat m) v)).
  { destruct Hn as [[-> ->] | ->]; cbn [get_binary_n_bytes bind];
      rewrite ?Hneg; cbn [bind]; apply int_to_bytes_ok; lia. }
  unfold convert, integer_digits. rewrite Hneg. fold keep.
  destruct n as [n0|]; cbn [bind] in Hw |- *.
  - rewrite Hw. cbn [bind]. destruct keep; split; reflexivity.
  - apply bind_ok in Hw as (n1 & Hn1 & Hw). rewrite Hn1. cbn [bind].
    rewrite Hw. cbn [bind]. destruct keep; split; reflexivity.
Qed.

Lemma integer_digits_value (v m : Z) (keep : bool) :
  0 <= v -> 0 <= m -> v < 256 ^ m ->
  all_hex (integer_digits v m keep) = true
  /\ hex_value 0 (integer_digits v m keep) = Some v.
Proof.
  intros Hv Hm Hfit.
  assert (Hval : hex_value 0 (bytes_hex (be_bytes (Z.to_nat m) v)) = Some v).
  { rewrite hex_value_bytes_hex, int_from_be_bytes, Z2Nat.id by lia.
    rewrite Z.mod_small by lia. reflexivity. }
  unfold integer_digits. destruct keep.
  - split; [apply all_hex_bytes_hex | exact Hval].
  - destruct (Z.eqb_spec v 0) as [-> | Hne]; [split; reflexivity |].
    split; [apply lstrip0_all_hex, all_hex_bytes_hex |].
    rewrite lstrip0_value. exact Hval.
Qed.

(** X3.  A non-negative integer printed in [prefix_hex] or [raw_hex], on
    its own byte length or on a larger expected one, reads back as the
    same integer, provided the print has a digit: the integer is positive,
    or the expected byte length is, or leading zeros are dropped (zero is
    then the digit 0).  Otherwise the print is [0x] or the empty string,
    and reading it back fails with a [ValueError]. *)
Theorem convert_integer_hex_roundtrip (v : Z) (f : BinaryFormat)
    (n : option Z) (k : option bool) :
  0 <= v ->
  f = prefix_hex \/ f = raw_hex ->
  match n with Some m => (bit_length v + 7) / 8 <= m | None => True end ->
  let has_digit :=
    (0 <? v) || match n with Some m => 0 <? m | None => false end
    || negb (match k with None => true | Some b => b end) in
  exists s0,
    convert (PInt v) (Some f) n k = OK (PStr s0)
    /\ convert (PStr s0) (Some integer) None None
       = if has_digit then OK (PInt v) else Err ValueError.
Proof.
  intros Hv Hf Hn has_digit.
  pose proof (bit_length_nonneg v) as Hl.
  assert (H0 : 0 <= (bit_length v + 7) / 8) by (apply Z.div_pos; lia).
  remember (match n with Some m => m | None => (bit_length v + 7) / 8 end)
    as m eqn:Em.
  assert (Hm : (bit_length v + 7) / 8 <= m)
    by (subst m; destruct n; [exact Hn | lia]).
  assert (Hnm : n = None /\ m = (bit_length v + 7) / 8 \/ n = Some m)
    by (subst m; destruct n; [right | left]; auto).
  set (keep := match k with None => true | Some b => b end) in *.
  destruct (convert_integer_hex v m n k Hv Hm Hnm) as [Hp Hr].
  fold keep in Hp, Hr.
  assert (Hfit : v < 256 ^ m) by (apply n_bytes_fits; lia).
  destruct (integer_digits_value v m keep Hv ltac:(lia) Hfit) as [Hh Hval].
  assert (Hpos : 0 < v -> 0 < m).
  { intros Hv0. unfold bit_length in Hm.
    destruct (Z.eqb_spec v 0); [lia |].
    pose proof (Z.log2_nonneg (Z.abs v)). lia_mod. }
  assert (Hempty : integer_digits v m keep = EmptyString <-> has_digit = false).
  { unfold has_digit, integer_digits in *. destruct keep; cbn [negb orb].
    - rewrite orb_false_r. split.
      + intros He. apply (f_equal str_len) in He.
        rewrite str_len_bytes_hex in He. unfold bytes_len in He.
        rewrite be_bytes_length in He. change (str_len "") with 0 in He.
        assert (Hm0 : m = 0) by lia. rewrite Hm0 in Hfit.
        apply orb_false_intro; [apply Z.ltb_ge; lia |].
        destruct n as [m'|]; [| reflexivity]. apply Z.ltb_ge. lia.
      + intros Hd. apply orb_false_elim in Hd as [Hd1 Hd2].
        apply Z.ltb_ge in Hd1.
        assert (Hv0 : v = 0) by lia.
        assert (Hm0 : m = 0).
        { destruct n as [m'|].
          - apply Z.ltb_ge in Hd2. lia.
          - rewrite Em, Hv0. reflexivity. }
        rewrite Hm0. reflexivity.
    - rewrite orb_true_r. split; [| discriminate].
      destruct (Z.eqb_spec v 0) as [-> | Hne]; [discriminate |].
      intros He. rewrite He in Hval. cbn in Hval. congruence. }
  assert (Hback :
    convert (PStr (integer_digits v m keep)) (Some integer) None None
    = (if has_digit then OK (PInt v) else Err ValueError)
    /\ convert (PStr ("0x" +:+ integer_digits v m keep)) (Some integer)
         None None
       = (if has_digit then OK (PInt v) else Err ValueError)).
  { rewrite !convert_str_integer. destruct has_digit.
    - destruct (int_base16_of_digits _ v Hh) as [-> ->];
        [| exact Hval | split; reflexivity].
      intros He. apply Hempty in He. discriminate.
    - rewrite (proj2 Hempty eq_refl). split; reflexivity. }
  destruct Hf as [-> | ->]; eexists; (split; [eassumption |]); apply Hback.
Qed.

Lemma convert_integer_hex_roundtrip_witness :
  (exists s0,
     convert (PInt 255) (Some prefix_hex) (Some 4) (Some false) = OK (PStr s0)
     /\ convert (PStr s0) (Some integer) None None = OK (PInt 255))
  /\ (exists s0,
        convert (PInt 0) (Some prefix_hex) None None = OK (PStr s0)
        /\ convert (PStr s0) (Some integer) None None = Err ValueError).
Proof.
  split.
  - apply (convert_integer_hex_roundtrip 255 prefix_hex (Some 4) (Some false));
      [lia | left; reflexivity | vm_compute; discriminate].
  - apply (convert_integer_hex_roundtrip 0 prefix_hex None None);
      [lia | left; reflexivity | exact I].
Defined.

(* ===================================================================== *)
(** * The codec: expected byte lengths and rejected integers *)
(* ===================================================================== *)

(** X4.  For bytes and for a hex string with an even number of digits, an
    expected byte length is a check: [convert] with the byte length of the
    value behaves as without any, to every format, and with any other
    expected byte length it fails with the length mismatch. *)
Theorem convert_expected_byte_length (x : pyval) (f : option BinaryFormat)
    (n m : Z) (k : option bool) :
  match x with
  | PBytes _ => True
  | PStr s0 => str_len (hex_digits_of s0) mod 2 = 0
  | _ => False
  end ->
  get_binary_n_bytes x = OK m ->
  convert x f (Some n) k
  = if n =? m then convert x f None k else Err LengthMismatchError.
Proof.
  intros Hx Hm. destruct x as [b|s0|v|]; try contradiction.
  - cbn [get_binary_n_bytes] in Hm. injection Hm as <-.
    unfold convert. rewrite (Z.eqb_sym n).
    destruct (bytes_len b =? n); reflexivity.
  - rewrite (get_binary_n_bytes_hex s0 Hx) in Hm. injection Hm as <-.
    unfold convert. fold (hex_digits_of s0).
    destruct (Z.eqb_spec n (str_len (hex_digits_of s0) / 2)) as [-> | Hne].
    + replace (str_len (hex_digits_of s0)
               =? 2 * (str_len (hex_digits_of s0) / 2)) with true
        by (symmetry; apply Z.eqb_eq; lia_mod).
      reflexivity.
    + replace (str_len (hex_digits_of s0) =? 2 * n) with false
        by (symmetry; apply Z.eqb_neq; lia_mod).
      reflexivity.
Qed.

Lemma convert_expected_byte_length_witness :
  convert (PStr "0x00ff") (Some binary) (Some 2) None
  = convert (PStr "0x00ff") (Some binary) None None
  /\ convert (PStr "0x00ff") (Some binary) (Some 1) None
     = Err LengthMismatchError.
Proof.
  split.
  - apply (convert_expected_byte_length (PStr "0x00ff") (Some binary) 2 2 None);
      reflexivity.
  - apply (convert_expected_byte_length (PStr "0x00ff") (Some binary) 1 2 None);
      reflexivity.
Defined.

(** An integer does not fit in fewer bytes than its byte length. *)
Lemma n_bytes_needed (v n : Z) :
  0 <= v -> 0 <= n -> n < (bit_length v + 7) / 8 -> 256 ^ n <= v.
Proof.
  intros Hv Hn Hlt. unfold bit_length in Hlt.
  destruct (v =? 0) eqn:E; [lia_mod |]. apply Z.eqb_neq in E.
  rewrite Z.abs_eq in Hlt by lia.
  pose proof (Z.log2_spec v ltac:(lia)) as [Hlo _].
  assert (Hle : 8 * n <= Z.log2 v) by lia_mod.
  replace 256 with (2 ^ 8) by reflexivity.
  rewrite <- Z.pow_mul_r by lia.
  eapply Z.le_trans; [| exact Hlo].
  apply Z.pow_le_mono_r; lia.
Qed.

(** X6.  For a non-negative integer, an expected byte length is a width
    and not a check: to [integer] it is ignored; to the other formats a
    width below the byte length of the integer fails with an
    [OverflowError], a negative one with a [ValueError], and in no case is
    the failure the length mismatch. *)
Theorem convert_integer_width (v n : Z) (f : BinaryFormat) (k : option bool) :
  0 <= v ->
  convert (PInt v) (Some integer) (Some n) k = OK (PInt v)
  /\ (f <> integer -> n < 0 ->
      convert (PInt v) (Some f) (Some n) k = Err ValueError)
  /\ (f <> integer -> 0 <= n < (bit_length v + 7) / 8 ->
      convert (PInt v) (Some f) (Some n) k = Err OverflowError)
  /\ convert (PInt v) (Some f) (Some n) k <> Err LengthMismatchError.
Proof.
  intros Hv.
  assert (Hneg : (v <? 0) = false) by (apply Z.ltb_ge; exact Hv).
  assert (Hne : forall e,
            (f <> integer -> int_to_bytes v n = Err e ->
             convert (PInt v) (Some f) (Some n) k = Err e)).
  { intros e Hf He. unfold convert. rewrite Hneg. cbn [bind].
    rewrite He. destruct f; try reflexivity. contradiction. }
  split; [unfold convert; rewrite Hneg; reflexivity |].
  split; [| split].
  - intros Hf Hn. apply Hne; [exact Hf |]. unfold int_to_bytes.
    replace (n <? 0) with true by (symmetry; apply Z.ltb_lt; lia).
    reflexivity.
  - intros Hf Hn. apply Hne; [exact Hf |]. unfold int_to_bytes.
    replace (n <? 0) with false by (symmetry; apply Z.ltb_ge; lia).
    rewrite Hneg.
    replace (256 ^ n <=? v) with true
      by (symmetry; apply Z.leb_le; apply n_bytes_needed; lia).
    reflexivity.
  - intros H. unfold convert in H. rewrite Hneg in H.
    destruct f; try discriminate; cbn [bind] in H;
      unfold int_to_bytes in H; failure_cases H.
Qed.

Lemma convert_integer_width_witness :
  convert (PInt 256) (Some binary) (Some 1) None = Err OverflowError
  /\ convert (PInt 256) (Some binary) (Some (-1)) None = Err ValueError.
Proof.
  destruct (convert_integer_width 256 1 binary None ltac:(lia))
    as (_ & _ & H1 & _).
  destruct (convert_integer_width 256 (-1) binary None ltac:(lia))
    as (_ & H2 & _).
  split.
  - apply H1; [discriminate | vm_compute; split; [discriminate | reflexivity]].
  - apply H2; [discriminate | lia].
Defined.

(** X5.  A negative integer is rejected by every operation of the codec,
    whatever the other arguments: byte length, conversion to every format
    including [integer], padding, and format matching against any
    reference whose format is detected. *)
Theorem negative_integer_rejected (v : Z) :
  v < 0 ->
  get_binary_n_bytes (PInt v) = Err NegativeValueError
  /\ (forall f n k, convert (PInt v) f n k = Err NegativeValueError)
  /\ (forall side n, add_binary_pad (PInt v) side n = Err NegativeValueError)
  /\ (forall like pad,
        is_ok (get_binary_format like) ->
        match_format (PInt v) like pad = Err NegativeValueError).
Proof.
  intros Hv.
  assert (Hneg : (v <? 0) = true) by (apply Z.ltb_lt; exact Hv).
  assert (Hc : forall f n k, convert (PInt v) f n k = Err NegativeValueError).
  { intros f n k. unfold convert. rewrite Hneg. reflexivity. }
  split; [unfold get_binary_n_bytes; rewrite Hneg; reflexivity |].
  split; [exact Hc |]. split.
  - intros side n. unfold add_binary_pad, get_binary_n_bytes.
    rewrite Hneg. reflexivity.
  - intros like pad [f Hf]. unfold match_format. rewrite Hf. cbn [bind].
    rewrite Hc. reflexivity.
Qed.

Lemma negative_integer_rejected_witness :
  convert (PInt (-1)) (Some integer) None None = Err NegativeValueError
  /\ match_format (PInt (-1)) (PStr "0x00") true = Err NegativeValueError.
Proof.
  destruct (negative_integer_rejected (-1) ltac:(lia)) as (_ & Hc & _ & Hm).
  split; [apply Hc |]. apply Hm. eexists. reflexivity.
Defined.

(* ===================================================================== *)
(** * The codec: what padding does to the bytes *)
(* ===================================================================== *)

Lemma bytes_fromhex_app (a : string) :
  (forall ba b,
     bytes_fromhex a = OK ba ->
     bytes_fromhex (a +:+ b) = let* bb := bytes_fromhex b in OK (ba ++ bb))
  /\ (forall c ba b,
        bytes_fromhex (String c a) = OK ba ->
        bytes_fromhex (String c a +:+ b)
        = let* bb := bytes_fromhex b in OK (ba ++ bb)).
Proof.
  induction a as [|x r [IH0 IH1]].
  - split; [| discriminate]. intros ba b [= <-].
    change ("" +:+ b) with b. destruct (bytes_fromhex b); reflexivity.
  - split; [apply IH1 |]. intros c ba b H.
    change (String c (String x r) +:+ b) with (String c (String x (r +:+ b))).
    cbn [bytes_fromhex] in H |- *.
    destruct (hex_digit c); [| discriminate].
    destruct (hex_digit x); [| discriminate].
    apply bind_ok in H as (bs & Hbs & [= <-]).
    rewrite (IH0 _ b Hbs). destruct (bytes_fromhex b); reflexivity.
Qed.

Lemma bytes_fromhex_zeros (k : Z) :
  bytes_fromhex (str_repeat (str_repeat "0" 2) k) = OK (repeat x00 (Z.to_nat k)).
Proof.
  unfold str_repeat at 1.
  induction (Z.to_nat k) as [|j IH]; [reflexivity |].
  cbn [str_repeat_nat repeat].
  change (str_repeat "0" 2 +:+ str_repeat_nat (str_repeat "0" 2) j)
    with (String "0" (String "0" (str_repeat_nat (str_repeat "0" 2) j))).
  cbn [bytes_fromhex]. change (hex_digit "0") with (Some 0). cbv iota.
  rewrite IH. reflexivity.
Qed.

Lemma add_binary_pad_default_side (x : pyval) (n : option Z) :
  add_binary_pad x None n = add_binary_pad x (Some left_side) n.
Proof. reflexivity. Qed.

(** Right padding of a hex string, on its digits. *)
Lemma add_binary_pad_hex_right (s0 : string) (n : Z) :
  all_hex (hex_digits_of s0) = true ->
  str_len (hex_digits_of s0) mod 2 = 0 ->
  str_len (hex_digits_of s0) / 2 <= n ->
  exists y,
    add_binary_pad (PStr s0) (Some right_side) (Some n) = OK (PStr y)
    /\ get_binary_format (PStr y) = get_binary_format (PStr s0)
    /\ hex_digits_of y
       = hex_digits_of s0
         +:+ str_repeat (str_repeat "0" 2) (n - str_len (hex_digits_of s0) / 2).
Proof.
  intros Hh He Hn. unfold add_binary_pad.
  rewrite (get_binary_n_bytes_hex s0 He).
  set (m := str_len (hex_digits_of s0) / 2) in *.
  set (zeros := str_repeat (str_repeat "0" 2) (n - m)).
  assert (Hlt : (n <? m) = false) by (apply Z.ltb_ge; lia).
  unfold get_binary_format, hex_digits_of in *.
  destruct (startswith s0 "0x") eqn:E; simpl bind; rewrite Hlt.
  - pose proof (startswith_0x s0 E) as Hs.
    set (t := str_drop 2 s0) in *. clearbody t. subst s0.
    exists (("0x" +:+ t) +:+ zeros). split; [reflexivity |].
    change (("0x" +:+ t) +:+ zeros) with ("0x" +:+ (t +:+ zeros)).
    rewrite startswith_prefixed. split; reflexivity.
  - exists (s0 +:+ zeros).
    assert (Hy : all_hex (s0 +:+ zeros) = true).
    { rewrite all_hex_app. unfold zeros. rewrite all_hex_zeros, Hh.
      reflexivity. }
    destruct (all_hex_no_prefix _ Hy) as [-> _]. repeat split; reflexivity.
Qed.

(** X7.  Padding a hex string with an even number of digits to [n] bytes,
    at least its byte length [m], zero-extends the bytes it stands for:
    converted to [binary], the left-padded string is [n - m] zero bytes
    followed by the bytes of the string, the right-padded string is those
    bytes followed by [n - m] zero bytes; the right-padded string keeps the
    format and has byte length [n]. *)
Theorem add_binary_pad_hex_decodes (s0 : string) (n m : Z) (b : list byte) :
  valid_binary_value (PStr s0) = true ->
  get_binary_n_bytes (PStr s0) = OK m ->
  m <= n ->
  convert (PStr s0) (Some binary) None None = OK (PBytes b) ->
  (exists y,
     add_binary_pad (PStr s0) (Some left_side) (Some n) = OK y
     /\ convert y (Some binary) None None
        = OK (PBytes (repeat x00 (Z.to_nat (n - m)) ++ b)))
  /\ (exists y,
        add_binary_pad (PStr s0) (Some right_side) (Some n) = OK y
        /\ get_binary_format y = get_binary_format (PStr s0)
        /\ get_binary_n_bytes y = OK n
        /\ convert y (Some binary) None None
           = OK (PBytes (b ++ repeat x00 (Z.to_nat (n - m))))).
Proof.
  intros Hx Hm Hle Hb.
  cbn [valid_binary_value] in Hx. apply andb_prop in Hx as [Hh He].
  apply Z.eqb_eq in He.
  rewrite (get_binary_n_bytes_hex s0 He) in Hm. injection Hm as Hm.
  rewrite <- Hm in *.
  pose proof (str_len_nonneg (hex_digits_of s0)) as H0.
  assert (Hk : 0 <= n - str_len (hex_digits_of s0) / 2) by lia.
  set (d := hex_digits_of s0) in *.
  set (zeros := str_repeat (str_repeat "0" 2) (n - str_len d / 2)).
  assert (Hd : bytes_fromhex d = OK b).
  { rewrite (proj2 (proj2 (convert_hex_string s0)) He) in Hb. fold d in Hb.
    destruct (bytes_fromhex d); [injection Hb as <-; reflexivity | discriminate]. }
  assert (Hz : str_len zeros = 2 * (n - str_len d / 2))
    by (apply str_len_zeros; exact Hk).
  split.
  - destruct (add_binary_pad_hex_left s0 n Hh He Hle) as (y & Hp & _ & Hy).
    fold d zeros in Hy. exists (PStr y). split; [exact Hp |].
    rewrite (proj2 (proj2 (convert_hex_string y)))
      by (rewrite Hy, str_len_app, Hz; lia_mod).
    rewrite Hy.
    rewrite (proj1 (bytes_fromhex_app zeros) _ d (bytes_fromhex_zeros _)).
    rewrite Hd. reflexivity.
  - destruct (add_binary_pad_hex_right s0 n Hh He Hle) as (y & Hp & Hf & Hy).
    fold d zeros in Hy. exists (PStr y). split; [exact Hp |].
    split; [exact Hf |].
    assert (Hyl : str_len (hex_digits_of y) = 2 * n)
      by (rewrite Hy, str_len_app, Hz; lia_mod).
    split.
    + rewrite get_binary_n_bytes_hex by (rewrite Hyl; lia_mod).
      rewrite Hyl. f_equal. lia_mod.
    + rewrite (proj2 (proj2 (convert_hex_string y))) by (rewrite Hyl; lia_mod).
      rewrite Hy, (proj1 (bytes_fromhex_app d) _ zeros Hd).
      unfold zeros. rewrite bytes_fromhex_zeros. reflexivity.
Qed.

Lemma add_binary_pad_hex_decodes_witness :
  exists y,
    add_binary_pad (PStr "0xab") (Some right_side) (Some 3) = OK y
    /\ get_binary_format y = get_binary_format (PStr "0xab")
    /\ get_binary_n_bytes y = OK 3
    /\ convert y (Some binary) None None = OK (PBytes [xab; x00; x00]).
Proof.
  apply (proj2 (add_binary_pad_hex_decodes "0xab" 3 1 [xab]
                  eq_refl eq_refl ltac:(lia) eq_refl)).
Defined.

(** X8.  Bytes are returned as they are by [add_binary_pad], on either
    side and for every padded size that is not below their length: the
    pad is made of copies of [bytes(0)], which is empty.  The byte length of
    the result is that of the input, not the padded size. *)
Theorem add_binary_pad_bytes_not_padded (b : list byte)
    (side : option PadSide) (n : Z) :
  bytes_len b <= n ->
  add_binary_pad (PBytes b) side (Some n) = OK (PBytes b)
  /\ (bytes_len b < n ->
      forall y, add_binary_pad (PBytes b) side (Some n) = OK y ->
                get_binary_n_bytes y <> OK n).
Proof.
  intros Hn. pose proof (add_binary_pad_bytes_unchanged b side n Hn) as H.
  split; [exact H |]. intros Hlt y Hy. rewrite H in Hy. injection Hy as <-.
  cbn [get_binary_n_bytes]. intros [= He]. lia.
Qed.

Lemma add_binary_pad_bytes_not_padded_witness :
  add_binary_pad (PBytes [x01]) None (Some 32) = OK (PBytes [x01]).
Proof.
  apply (proj1 (add_binary_pad_bytes_not_padded [x01] None 32
                  ltac:(vm_compute; discriminate))).
Defined.

(* ===================================================================== *)
(** * The codec: matching the format of a reference *)
(* ===================================================================== *)

Lemma int_from_bytes_nonneg (b : list byte) : 0 <= int_from_bytes b.
Proof.
  induction b as [|x b IH] using rev_ind; [cbn; lia |].
  rewrite int_from_bytes_snoc. pose proof (byte_val_range x). lia.
Qed.

Lemma hex_digit_range (c : ascii) (d : Z) : hex_digit c = Some d -> 0 <= d < 16.
Proof.
  unfold hex_digit.
  repeat match goal with
         | |- context [if ?t then _ else _] => destruct t eqn:?
         end; intros [= <-]; lia.
Qed.

Lemma hex_value_nonneg (t : string) :
  forall acc v, 0 <= acc -> hex_value acc t = Some v -> 0 <= v.
Proof.
  induction t as [|c r IH]; intros acc v Hacc H; cbn [hex_value] in H.
  - injection H as <-. exact Hacc.
  - destruct (hex_digit c) as [d|] eqn:Hd; [| discriminate].
    apply hex_digit_range in Hd. eapply IH; [| exact H]. lia.
Qed.

Lemma valid_n_bytes (x : pyval) :
  valid_binary_value x = true -> exists n, get_binary_n_bytes x = OK n.
Proof.
  intros Hx. destruct x as [b|s0|v|]; try discriminate.
  - eexists. reflexivity.
  - cbn [valid_binary_value] in Hx. apply andb_prop in Hx as [_ He].
    apply Z.eqb_eq in He. eexists. apply get_binary_n_bytes_hex. exact He.
  - cbn [valid_binary_value] in Hx. apply Z.leb_le in Hx.
    cbn [get_binary_n_bytes].
    replace (v <? 0) with false by (symmetry; apply Z.ltb_ge; lia).
    eexists. reflexivity.
Qed.

(** [convert] to [integer] of a valid value that has a digit. *)
Lemma convert_to_integer (x : pyval) :
  valid_binary_value x = true ->
  match x with PStr s0 => hex_digits_of s0 <> EmptyString | _ => True end ->
  exists v, convert x (Some integer) None None = OK (PInt v) /\ 0 <= v.
Proof.
  intros Hx Hd. destruct x as [b|s0|v|]; try discriminate.
  - exists (int_from_bytes b). split; [reflexivity | apply int_from_bytes_nonneg].
  - cbn [valid_binary_value] in Hx. apply andb_prop in Hx as [Hh _].
    destruct (convert_hex_integer s0 Hh) as (v & Hv & Hc).
    { destruct (hex_digits_of s0); [contradiction |]. rewrite str_len_cons.
      pose proof (str_len_nonneg s1). lia. }
    exists v. split; [exact Hc |]. eapply hex_value_nonneg; [| exact Hv]. lia.
  - cbn [valid_binary_value] in Hx. apply Z.leb_le in Hx.
    exists v. split; [apply convert_int_integer; exact Hx | exact Hx].
Qed.

(** X9.  Without padding, [match_format] of a valid value against a valid
    reference gives a valid value in the format of the reference, and of
    the byte length of the value unless that format is [integer]; the one
    exception is a hex string without any digit against an integer
    reference, which fails with a [ValueError]. *)
Theorem match_format_takes_reference_format (x y : pyval) :
  valid_binary_value x = true ->
  valid_binary_value y = true ->
  (match x, y with
   | PStr s0, PInt _ => hex_digits_of s0 <> EmptyString
   | _, _ => True
   end ->
   exists z f,
     get_binary_format y = OK f
     /\ match_format x y false = OK z
     /\ get_binary_format z = OK f
     /\ valid_binary_value z = true
     /\ (f <> integer -> get_binary_n_bytes z = get_binary_n_bytes x))
  /\ (match x, y with
      | PStr s0, PInt _ => hex_digits_of s0 = EmptyString
      | _, _ => False
      end ->
      match_format x y false = Err ValueError).
Proof.
  intros Hx Hy.
  destruct (valid_n_bytes x Hx) as [n Hn].
  assert (Hbs : forall f,
            byte_string_format f = true -> get_binary_format y = OK f ->
            exists z f0,
              get_binary_format y = OK f0
              /\ match_format x y false = OK z
              /\ get_binary_format z = OK f0
              /\ valid_binary_value z = true
              /\ (f0 <> integer ->
                  get_binary_n_bytes z = get_binary_n_bytes x)).
  { intros f Hf Hfy.
    destruct (convert_preserves_byte_length x f n Hx Hf Hn)
      as (z & Hc & Hfz & Hnz & Hvz).
    exists z, f. unfold match_format. rewrite Hfy. cbn [bind]. rewrite Hc.
    cbn [bind]. repeat split; try assumption. intros _. congruence. }
  split.
  - intros Hd. destruct y as [b|r|w|]; try discriminate.
    + apply (Hbs binary); reflexivity.
    + cbn [get_binary_format] in *.
      destruct (startswith r "0x");
        [apply (Hbs prefix_hex) | apply (Hbs raw_hex)]; reflexivity.
    + destruct (convert_to_integer x Hx) as (v & Hc & Hv).
      { destruct x; try exact I. exact Hd. }
      exists (PInt v), integer. unfold match_format. cbn [get_binary_format bind].
      rewrite Hc. cbn [bind]. repeat split; try reflexivity.
      * cbn [valid_binary_value]. apply Z.leb_le. exact Hv.
      * intros Hne. contradiction.
  - intros Hd. destruct x as [b|s0|v|]; try contradiction.
    destruct y as [b|r|w|]; try contradiction.
    unfold match_format. cbn [get_binary_format bind].
    rewrite convert_str_integer. unfold int_base16.
    assert (Hz : (if startswith s0 "0x" || startswith s0 "0X"
                  then str_drop 2 s0 else s0) = EmptyString).
    { unfold hex_digits_of in Hd. destruct (startswith s0 "0x"); cbn [orb].
      - exact Hd.
      - subst s0. reflexivity. }
    rewrite Hz. reflexivity.
Qed.

Lemma match_format_takes_reference_format_witness :
  exists z f,
    get_binary_format (PStr "0xabcdef") = OK f
    /\ match_format (PBytes [x01; x02]) (PStr "0xabcdef") false = OK z
    /\ get_binary_format z = OK f
    /\ valid_binary_value z = true
    /\ (f <> integer ->
        get_binary_n_bytes z = get_binary_n_bytes (PBytes [x01; x02])).
Proof.
  apply (proj1 (match_format_takes_reference_format
                  (PBytes [x01; x02]) (PStr "0xabcdef") eq_refl eq_refl)).
  exact I.
Defined.

(** Left padding of a valid hex string to at least its byte length. *)
Lemma add_binary_pad_hex_left_facts (s0 : string) (n m : Z) :
  valid_binary_value (PStr s0) = true ->
  get_binary_n_bytes (PStr s0) = OK m ->
  m <= n ->
  exists y,
    add_binary_pad (PStr s0) None (Some n) = OK (PStr y)
    /\ valid_binary_value (PStr y) = true
    /\ get_binary_format (PStr y) = get_binary_format (PStr s0)
    /\ get_binary_n_bytes (PStr y) = OK n.
Proof.
  intros Hx Hm Hle.
  cbn [valid_binary_value] in Hx. apply andb_prop in Hx as [Hh He].
  apply Z.eqb_eq in He.
  rewrite (get_binary_n_bytes_hex s0 He) in Hm. injection Hm as Hm.
  rewrite <- Hm in *.
  destruct (add_binary_pad_hex_left s0 n Hh He Hle) as (y & Hp & Hf & Hd).
  pose proof (str_len_nonneg (hex_digits_of s0)) as H0.
  assert (Hyh : all_hex (hex_digits_of y) = true).
  { rewrite Hd, all_hex_app, all_hex_zeros. exact Hh. }
  assert (Hyl : str_len (hex_digits_of y) = 2 * n).
  { rewrite Hd, str_len_app, str_len_zeros by lia. lia_mod. }
  exists y. rewrite add_binary_pad_default_side.
  split; [exact Hp |]. split; [| split; [exact Hf |]].
  - cbn [valid_binary_value]. rewrite Hyh, Hyl. apply Z.eqb_eq. lia_mod.
  - rewrite get_binary_n_bytes_hex by (rewrite Hyl; lia_mod).
    rewrite Hyl. f_equal. lia_mod.
Qed.

(** X10.  With padding and a valid hex-string reference, [match_format] of
    a valid value gives a valid hex string in the format of the reference
    and of its byte length when the value is not longer than the
    reference, and fails with the pad-too-small error when it is. *)
Theorem match_format_pads_to_reference (x : pyval) (r : string) (mx my : Z) :
  valid_binary_value x = true ->
  valid_binary_value (PStr r) = true ->
  get_binary_n_bytes x = OK mx ->
  get_binary_n_bytes (PStr r) = OK my ->
  (mx <= my ->
   exists z,
     match_format x (PStr r) true = OK z
     /\ get_binary_format z = get_binary_format (PStr r)
     /\ get_binary_n_bytes z = OK my
     /\ valid_binary_value z = true)
  /\ (my < mx -> match_format x (PStr r) true = Err PadTooSmallError).
Proof.
  intros Hx Hr Hmx Hmy.
  assert (Hf : exists f, get_binary_format (PStr r) = OK f
                         /\ byte_string_format f = true
                         /\ f <> binary).
  { cbn [get_binary_format]. destruct (startswith r "0x"); eexists;
      (split; [reflexivity |]); split; (reflexivity || discriminate). }
  destruct Hf as (f & Hfr & Hbs & Hnb).
  destruct (convert_preserves_byte_length x f mx Hx Hbs Hmx)
    as (out & Hc & Hfo & Hno & Hvo).
  assert (Hout : exists o, out = PStr o).
  { destruct out as [b|o|v|]; [exfalso | eauto | exfalso | discriminate];
      cbn [get_binary_format] in Hfo; injection Hfo as <-;
      [apply Hnb; reflexivity | discriminate Hbs]. }
  destruct Hout as [o ->].
  unfold match_format. rewrite Hfr. cbn [bind]. rewrite Hc, Hmy. cbn [bind].
  split.
  - intros Hle.
    destruct (add_binary_pad_hex_left_facts o my mx Hvo Hno Hle)
      as (y & Hp & Hvy & Hfy & Hny).
    exists (PStr y). rewrite Hfy, Hfo. auto.
  - intros Hlt. unfold add_binary_pad. rewrite Hfo, Hno. cbn [bind].
    replace (my <? mx) with true by (symmetry; apply Z.ltb_lt; lia).
    reflexivity.
Qed.

Lemma match_format_pads_to_reference_witness :
  (exists z,
     match_format (PBytes [xff]) (PStr "0x000000") true = OK z
     /\ get_binary_format z = get_binary_format (PStr "0x000000")
     /\ get_binary_n_bytes z = OK 3
     /\ valid_binary_value z = true)
  /\ match_format (PBytes [xff; xff]) (PStr "00") true = Err PadTooSmallError.
Proof.
  split.
  - apply (proj1 (match_format_pads_to_reference (PBytes [xff]) "0x000000"
                    1 3 eq_refl eq_refl eq_refl eq_refl)). lia.
  - apply (proj2 (match_format_pads_to_reference (PBytes [xff; xff]) "00"
                    2 1 eq_refl eq_refl eq_refl eq_refl)). lia.
Defined.

Lemma convert_integer_result (x out : pyval) :
  convert x (Some integer) None None = OK out -> exists v, out = PInt v.
Proof.
  intros H. unfold convert in H. destruct x as [b|s0|v|];
    cbv beta iota zeta in H.
  - injection H as <-. eauto.
  - apply bind_ok in H as (v & _ & [= <-]). eauto.
  - destruct (v <? 0); [discriminate |]. injection H as <-. eauto.
  - discriminate.
Qed.

(** X11.  With padding, [match_format] never succeeds against an integer
    reference: the value is converted to an integer, which
    [add_binary_pad] does not pad. *)
Theorem match_format_pad_integer_reference_fails (x : pyval) (w : Z) :
  ~ is_ok (match_format x (PInt w) true).
Proof.
  intros [z H]. unfold match_format in H. cbn [get_binary_format bind] in H.
  apply bind_ok in H as (out & Hc & H).
  apply convert_integer_result in Hc as [v ->].
  apply bind_ok in H as (size & _ & H).
  unfold add_binary_pad in H. cbn [get_binary_format bind] in H.
  apply bind_ok in H as (m & _ & H).
  destruct (_ <? m); discriminate.
Qed.

(* ===================================================================== *)
(** * The codec: ASCII text *)
(* ===================================================================== *)

Lemma str_encode_ascii_ok (t : string) :
  is_ascii t = true ->
  exists b,
    str_encode_ascii t = OK b
    /\ bytes_decode_ascii b = OK t
    /\ bytes_len b = str_len t.
Proof.
  induction t as [|c r IH]; intros H.
  - exists []. repeat split.
  - cbn [is_ascii] in H. apply andb_prop in H as [Hc Hr].
    destruct (IH Hr) as (b & He & Hd & Hl).
    exists (byte_of_ascii c :: b). cbn [str_encode_ascii bytes_decode_ascii].
    rewrite Hc, He, Hd. cbn [bind]. rewrite ascii_of_byte_of_ascii.
    repeat split. rewrite str_len_cons. unfold bytes_len in *.
    cbn [List.length]. lia.
Qed.

Lemma str_encode_ascii_fails (t : string) :
  is_ascii t = false -> str_encode_ascii t = Err ValueError.
Proof.
  induction t as [|c r IH]; intros H; [discriminate |].
  cbn [is_ascii] in H. cbn [str_encode_ascii].
  destruct (byte_val (byte_of_ascii c) <? 128); [| reflexivity].
  rewrite (IH H). reflexivity.
Qed.

Lemma bytes_decode_ascii_ok (b : list byte) (t : string) :
  bytes_decode_ascii b = OK t ->
  is_ascii t = true /\ str_encode_ascii t = OK b.
Proof.
  revert t. induction b as [|x b IH]; intros t H; cbn [bytes_decode_ascii] in H.
  - injection H as <-. split; reflexivity.
  - destruct (byte_val x <? 128) eqn:Hx; [| discriminate].
    apply bind_ok in H as (r & Hr & [= <-]).
    destruct (IH r Hr) as [Ha He].
    cbn [is_ascii str_encode_ascii].
    rewrite byte_of_ascii_of_byte, Hx, Ha, He. split; reflexivity.
Qed.

(** X12.  Text of ASCII characters printed by [ascii_to_raw_hex] or
    [ascii_to_prefix_hex] is a valid hex string of as many bytes as the
    text has characters, and [hex_to_ascii] reads the text back from
    either print. *)
Theorem ascii_hex_roundtrip (t : string) :
  is_ascii t = true ->
  exists h,
    ascii_to_raw_hex t = OK h
    /\ ascii_to_prefix_hex t = OK ("0x" +:+ h)
    /\ valid_binary_value (PStr h) = true
    /\ get_binary_n_bytes (PStr h) = OK (str_len t)
    /\ get_binary_n_bytes (PStr ("0x" +:+ h)) = OK (str_len t)
    /\ hex_to_ascii h = OK t
    /\ hex_to_ascii ("0x" +:+ h) = OK t.
Proof.
  intros Ha. destruct (str_encode_ascii_ok t Ha) as (b & He & Hd & Hl).
  exists (bytes_hex b). unfold ascii_to_prefix_hex, ascii_to_raw_hex.
  rewrite He. cbn [bind].
  pose proof (all_hex_bytes_hex b) as Hh.
  assert (Hev : str_len (bytes_hex b) mod 2 = 0)
    by (rewrite str_len_bytes_hex; lia_mod).
  assert (Hhalf : str_len (bytes_hex b) / 2 = str_len t)
    by (rewrite str_len_bytes_hex; lia_mod).
  destruct (raw_hex_facts _ Hh Hev) as (_ & Hn & Hv).
  destruct (prefix_hex_facts _ Hh Hev) as (_ & Hn' & _).
  rewrite Hhalf in Hn, Hn'.
  split; [reflexivity |]. split; [reflexivity |]. split; [exact Hv |].
  split; [exact Hn |]. split; [exact Hn' |]. split.
  - unfold hex_to_ascii, codecs_decode_hex.
    destruct (all_hex_no_prefix _ Hh) as [-> _].
    rewrite bytes_fromhex_hex. exact Hd.
  - unfold hex_to_ascii, codecs_decode_hex. rewrite startswith_prefixed.
    change (str_drop 2 ("0x" +:+ bytes_hex b)) with (bytes_hex b).
    rewrite bytes_fromhex_hex. exact Hd.
Qed.

Lemma ascii_hex_roundtrip_witness :
  exists h,
    ascii_to_raw_hex "Safe" = OK h
    /\ ascii_to_prefix_hex "Safe" = OK ("0x" +:+ h)
    /\ valid_binary_value (PStr h) = true
    /\ get_binary_n_bytes (PStr h) = OK (str_len "Safe")
    /\ get_binary_n_bytes (PStr ("0x" +:+ h)) = OK (str_len "Safe")
    /\ hex_to_ascii h = OK "Safe"%string
    /\ hex_to_ascii ("0x" +:+ h) = OK "Safe"%string.
Proof. apply (ascii_hex_roundtrip "Safe"). reflexivity. Defined.

(** X13.  The ASCII helpers fail with a [ValueError] on what is not ASCII
    or not hexadecimal: [ascii_to_raw_hex] and [ascii_to_prefix_hex] on
    text with a character of code 128 or more; [hex_to_ascii] on an odd
    number of digits.  When [hex_to_ascii] returns a text, the text is
    ASCII and encodes to the bytes the digits stand for. *)
Theorem ascii_hex_failures (t : string) :
  (is_ascii t = false ->
   ascii_to_raw_hex t = Err ValueError
   /\ ascii_to_prefix_hex t = Err ValueError)
  /\ (str_len (hex_digits_of t) mod 2 = 1 -> hex_to_ascii t = Err ValueError)
  /\ (forall text,
        hex_to_ascii t = OK text ->
        is_ascii text = true
        /\ exists b,
             bytes_fromhex (hex_digits_of t) = OK b
             /\ str_encode_ascii text = OK b).
Proof.
  split; [| split].
  - intros Ha. unfold ascii_to_prefix_hex, ascii_to_raw_hex.
    rewrite (str_encode_ascii_fails t Ha). split; reflexivity.
  - intros Hodd. unfold hex_to_ascii, codecs_decode_hex.
    fold (hex_digits_of t).
    destruct (bytes_fromhex (hex_digits_of t)) as [b|e] eqn:Hb.
    + apply bytes_fromhex_length in Hb. lia_mod.
    + apply (proj1 (bytes_fromhex_err _)) in Hb. subst e. reflexivity.
  - intros text H. unfold hex_to_ascii, codecs_decode_hex in H.
    fold (hex_digits_of t) in H. apply bind_ok in H as (b & Hb & Hd).
    destruct (bytes_decode_ascii_ok b text Hd) as [Ha He].
    split; [exact Ha |]. exists b. split; assumption.
Qed.

Lemma ascii_hex_failures_witness :
  hex_to_ascii "0x616" = Err ValueError
  /\ is_ascii "ab" = true.
Proof.
  destruct (ascii_hex_failures "0x616") as (_ & Hodd & _).
  destruct (ascii_hex_failures "0x6162") as (_ & _ & Hok).
  split; [apply Hodd; reflexivity |].
  apply (Hok "ab"%string). reflexivity.
Defined.

(* ===================================================================== *)
(** * The splitter: further properties *)
(* ===================================================================== *)

Lemma parse_safe_signatures_outcome (blob : list byte) :
  match parse_safe_signatures (PBytes blob) with
  | OK recs => split_result blob recs
  | Err e => split_failure blob e
  end.
Proof.
  rewrite parse_safe_signatures_bytes.
  set (st := {| as_bytes := blob; eip_1271_positions := [];
                eip_1271_indices := []; s := 0;
                parsed_signatures := [] |}).
  assert (Hinv : loop_inv blob st).
  { unfold loop_inv, st.
    cbn [as_bytes eip_1271_positions parsed_signatures s List.length].
    split; [reflexivity |]. split; [reflexivity |]. split; [reflexivity |].
    split.
    - intros i r Hi. rewrite lookup_nil in Hi. discriminate.
    - intros j Hj. lia. }
  pose proof (parse_loop_outcome blob (S (List.length blob)) st Hinv) as Hout.
  assert (Hfuel : parse_loop (S (List.length blob)) st <> Err OutOfFuel)
    by (apply parse_loop_fuel; unfold st; cbn [as_bytes]; lia).
  destruct (parse_loop (S (List.length blob)) st) as [recs | e];
    [exact Hout |].
  destruct Hout as [-> | Hf]; [contradiction | exact Hf].
Qed.

(** X14.  A packed blob given as a hex string, with or without [0x], is
    split as the bytes it prints. *)
Theorem parse_safe_signatures_hex_blob (blob : list byte) :
  parse_safe_signatures (PStr ("0x" +:+ bytes_hex blob))
  = parse_safe_signatures (PBytes blob)
  /\ parse_safe_signatures (PStr (bytes_hex blob))
     = parse_safe_signatures (PBytes blob).
Proof.
  destruct (convert_bytes_hex_roundtrip blob prefix_hex) as (p & Hp & Hpb);
    [left; reflexivity |].
  destruct (convert_bytes_hex_roundtrip blob raw_hex) as (r & Hr & Hrb);
    [right; reflexivity |].
  cbn in Hp, Hr. injection Hp as <-. injection Hr as <-.
  unfold parse_safe_signatures. rewrite Hpb, Hrb. split; reflexivity.
Qed.

(** The entries every parsed record has. *)
Lemma parse_signature_entries (signature : list byte)
    (record : gmap string pyval) :
  parse_signature signature = OK record ->
  record !! "signature" = Some (PStr ("0x" +:+ bytes_hex signature))
  /\ (record !! "type" = Some (PStr "ecdsa")
      \/ record !! "type" = Some (PStr "eth_sign")
      \/ record !! "type" = Some (PStr "eip1271")
      \/ record !! "type" = Some (PStr "prevalidated")).
Proof.
  intros H. pose proof (parse_signature_length _ _ H) as Hl.
  rewrite (parse_signature_cases _ Hl) in H. cbv zeta in H.
  destruct ((27 <=? _) && (_ <=? 30)).
  { injection H as <-. split; [reflexivity | auto]. }
  destruct (31 <=? _).
  { injection H as <-. split; [reflexivity | auto]. }
  destruct (_ =? 0).
  { injection H as <-. split; [reflexivity | auto]. }
  destruct (_ =? 1); [| discriminate].
  injection H as <-. split; [reflexivity | auto 6].
Qed.

(** X15.  Every record the splitter returns has a [type] among the four
    kinds and a [signature] entry, a [prefix_hex] string that converts back
    to the 65 bytes of its in-line record: the [i]-th record to bytes
    [65 i] to [65 i + 64] of the blob. *)
Theorem parsed_records_keep_their_bytes (blob : list byte)
    (recs : list (gmap string pyval)) :
  parse_safe_signatures (PBytes blob) = OK recs ->
  forall i r,
    recs !! i = Some r ->
    (r !! "type" = Some (PStr "ecdsa")
     \/ r !! "type" = Some (PStr "eth_sign")
     \/ r !! "type" = Some (PStr "eip1271")
     \/ r !! "type" = Some (PStr "prevalidated"))
    /\ exists sg,
         r !! "signature" = Some (PStr sg)
         /\ get_binary_n_bytes (PStr sg) = OK 65
         /\ convert (PStr sg) (Some binary) None None
            = OK (PBytes (inline_record blob i))
         /\ inline_record blob i = take 65 (drop (65 * i) blob).
Proof.
  intros Hp i r Hi.
  pose proof (parse_safe_signatures_outcome blob) as Hout.
  rewrite Hp in Hout. destruct Hout as (_ & _ & Hrec & _).
  specialize (Hrec i r Hi).
  destruct (parse_signature_entries _ _ Hrec) as [Hsg Hty].
  pose proof (parse_signature_length _ _ Hrec) as Hl.
  split; [exact Hty |]. eexists. split; [exact Hsg |].
  destruct (convert_bytes_hex_roundtrip (inline_record blob i) prefix_hex)
    as (p & Hc & Hb); [left; reflexivity |].
  cbn in Hc. injection Hc as <-.
  split; [| split; [exact Hb | reflexivity]].
  pose proof (all_hex_bytes_hex (inline_record blob i)) as Hh.
  assert (Hev : str_len (bytes_hex (inline_record blob i)) mod 2 = 0)
    by (rewrite str_len_bytes_hex; lia_mod).
  destruct (prefix_hex_facts _ Hh Hev) as (_ & Hn & _).
  rewrite Hn, str_len_bytes_hex, Hl. reflexivity.
Qed.

Lemma parsed_records_keep_their_bytes_witness :
  exists sg,
    eip1271_record (sample_record x00) !! "signature" = Some (PStr sg)
    /\ convert (PStr sg) (Some binary) None None
       = OK (PBytes (sample_record x00)).
Proof.
  destruct (parsed_records_keep_their_bytes
              (sample_record x00 ++ sample_record x1c)
              [eip1271_record (sample_record x00)] eq_refl 0%nat
              (eip1271_record (sample_record x00)) eq_refl)
    as (_ & sg & Hsg & _ & Hc & _).
  exists sg. split; [exact Hsg | exact Hc].
Defined.

(** X16.  A blob none of whose full in-line records has type byte 0 holds no
    offset, so the splitter stops only at the end of the blob: what it
    returns covers the whole blob, one record per 65 bytes, and it fails
    when the blob is empty or its length is not a multiple of 65. *)
Theorem parse_without_eip1271 (blob : list byte) :
  (forall i : nat,
     (65 * (i + 1) <= List.length blob)%nat ->
     type_byte (inline_record blob i) <> 0) ->
  (forall recs,
     parse_safe_signatures (PBytes blob) = OK recs ->
     bytes_len blob = 65 * Z.of_nat (List.length recs))
  /\ (bytes_len blob = 0 \/ bytes_len blob mod 65 <> 0 ->
      exists e, parse_safe_signatures (PBytes blob) = Err e).
Proof.
  intros Hty.
  assert (Hall : forall recs,
            parse_safe_signatures (PBytes blob) = OK recs ->
            bytes_len blob = 65 * Z.of_nat (List.length recs)
            /\ (1 <= List.length recs)%nat).
  { intros recs Hp. pose proof (parse_safe_signatures_outcome blob) as Hout.
    rewrite Hp in Hout. destruct Hout as (H1 & Hle & Hrec & _ & Hstop).
    split; [| exact H1].
    destruct Hstop as [He | (p & Hin & _)]; [unfold bytes_len; lia |].
    exfalso. apply list_elem_of_omap in Hin as (r & Hr & Ho).
    apply list_elem_of_lookup in Hr as [i Hi].
    specialize (Hrec i r Hi).
    destruct (parse_signature_offset _ _ Hrec) as [[Ht _] | [_ Hnone]];
      [| congruence].
    apply (Hty i); [| exact Ht].
    pose proof (parse_signature_length _ _ Hrec) as Hl65.
    unfold bytes_len, inline_record in Hl65.
    rewrite length_take, length_drop in Hl65. lia. }
  split; [intros recs Hp; apply (Hall recs Hp) |].
  intros Hbad.
  destruct (parse_safe_signatures (PBytes blob)) as [recs | e] eqn:Hp;
    [| eauto].
  exfalso. destruct (Hall recs eq_refl) as [Hlen H1].
  destruct Hbad as [H0 | Hmod]; [lia |]. apply Hmod.
  rewrite Hlen, Z.mul_comm. apply Z.mod_mul. lia.
Qed.

Lemma parse_without_eip1271_witness :
  exists e,
    parse_safe_signatures (PBytes (sample_record x1b ++ [x1b])) = Err e.
Proof.
  destruct (parse_without_eip1271 (sample_record x1b ++ [x1b])) as [_ H].
  - intros i Hi. destruct i as [|i]; [vm_compute; discriminate |].
    exfalso. cbn in Hi. lia.
  - apply H. right. vm_compute. discriminate.
Defined.

(* ===================================================================== *)
(** * The resolver: failures and packed blobs *)
(* ===================================================================== *)

Section resolver_failures.

Context (recover : pyval -> pyval * pyval * pyval -> option pyval).
Context (hash : pyval).

Lemma signers_loop_first_failure (records : list (gmap string pyval))
    (e : error) :
  forall acc,
    signers_loop recover hash records acc = Err e
    <-> exists (i : nat) record,
          records !! i = Some record
          /\ signer_of recover hash record = Err e
          /\ forall (j : nat) earlier,
               (j < i)%nat -> records !! j = Some earlier ->
               is_ok (signer_of recover hash earlier).
Proof.
  induction records as [|record records IH]; intros acc; cbn [signers_loop].
  - split; [discriminate |]. intros (i & r & Hi & _). rewrite lookup_nil in Hi.
    discriminate.
  - destruct (signer_of recover hash record) as [a|e'] eqn:Ha; cbn [bind].
    + rewrite IH. split.
      * intros (i & r & Hi & He & Hbefore). exists (S i), r.
        split; [exact Hi |]. split; [exact He |].
        intros [|j] earlier Hj Hl.
        -- injection Hl as <-. exists a. exact Ha.
        -- apply (Hbefore j); [lia | exact Hl].
      * intros (i & r & Hi & He & Hbefore). destruct i as [|i].
        -- injection Hi as <-. congruence.
        -- exists i, r. split; [exact Hi |]. split; [exact He |].
           intros j earlier Hj Hl. apply (Hbefore (S j)); [lia | exact Hl].
    + split.
      * intros [= <-]. exists 0%nat, record. split; [reflexivity |].
        split; [exact Ha |]. intros j earlier Hj. lia.
      * intros (i & r & Hi & He & Hbefore). destruct i as [|i].
        -- injection Hi as <-. congruence.
        -- destruct (Hbefore 0%nat record ltac:(lia) eq_refl) as [a Hok].
           congruence.
Qed.

(** X17.  The resolver fails with the error of the first record whose
    signer cannot be determined, the records before it having one.  A
    record without [type] fails with a [KeyError], one whose [type] is none
    of the four kinds with the unknown-type error, an [ecdsa] or
    [eth_sign] record without [v] with a [KeyError]; signatures that are
    neither a list nor a string nor bytes fail with the unknown-format
    error. *)
Theorem resolver_first_failure (records : list (gmap string pyval))
    (e : error) :
  (_get_safe_transaction_signers recover (SigList records) hash = Err e
   <-> exists (i : nat) record,
         records !! i = Some record
         /\ signer_of recover hash record = Err e
         /\ forall (j : nat) earlier,
              (j < i)%nat -> records !! j = Some earlier ->
              is_ok (signer_of recover hash earlier))
  /\ (forall record,
        record !! "type" = None ->
        signer_of recover hash record = Err KeyError)
  /\ (forall record ty,
        record !! "type" = Some ty ->
        str_eq ty "ecdsa" = false -> str_eq ty "eth_sign" = false ->
        str_eq ty "eip1271" = false -> str_eq ty "prevalidated" = false ->
        signer_of recover hash record = Err UnknownSignatureTypeError)
  /\ (forall record ty,
        record !! "type" = Some ty ->
        str_eq ty "ecdsa" = true \/ str_eq ty "eth_sign" = true ->
        record !! "v" = None ->
        signer_of recover hash record = Err KeyError)
  /\ (forall v,
        _get_safe_transaction_signers recover (SigObj (PInt v)) hash
        = Err UnknownSignaturesFormatError)
  /\ _get_safe_transaction_signers recover (SigObj PNone) hash
     = Err UnknownSignaturesFormatError.
Proof.
  split; [| split; [| split; [| split; [| split]]]].
  - unfold _get_safe_transaction_signers. cbn [bind].
    apply signers_loop_first_failure.
  - intros record Hty. unfold signer_of, getitem. rewrite Hty. reflexivity.
  - intros record ty Hty H1 H2 H3 H4. unfold signer_of, getitem.
    rewrite Hty. cbn [bind]. rewrite H1, H2, H3, H4. reflexivity.
  - intros record ty Hty Hk Hv. unfold signer_of, getitem.
    rewrite Hty. cbn [bind].
    replace (str_eq ty "ecdsa" || str_eq ty "eth_sign") with true
      by (symmetry; apply orb_true_iff; exact Hk).
    rewrite Hv. reflexivity.
  - reflexivity.
  - reflexivity.
Qed.

End resolver_failures.

Lemma resolver_first_failure_witness :
  _get_safe_transaction_signers (fun _ _ => Some (PStr "0x01"))
    (SigList [eip1271_record (sample_record x00);
              dict_of [("type", PStr "multisig")]])
    (PBytes [])
  = Err UnknownSignatureTypeError.
Proof.
  apply (proj1 (resolver_first_failure (fun _ _ => Some (PStr "0x01"))
                  (PBytes [])
                  [eip1271_record (sample_record x00);
                   dict_of [("type", PStr "multisig")]]
                  UnknownSignatureTypeError)).
  exists 1%nat, (dict_of [("type", PStr "multisig")]).
  split; [reflexivity |]. split; [reflexivity |].
  intros j earlier Hj Hl. destruct j as [|j]; [| lia].
  injection Hl as <-. eexists. reflexivity.
Defined.

Section packed_blob.

Context {function_abi struct_type : Type}.
Context (recover : pyval -> pyval * pyval * pyval -> option pyval).
Context (decode_call_data : pyval -> function_abi -> option decoded).
Context (eip712_hash :
           gmap string pyval -> struct_type -> gmap string pyval
           -> option pyval).
Context (execTransaction_abi : function_abi).
Context (safe_transaction_type : struct_type).
Context (safe_transaction_keys : list string).

(** X18.  With a transaction hash and a packed blob of signatures,
    [get_safe_transaction_signers] neither decodes call data nor hashes
    anything: when the blob does not split it fails with the error of the
    splitter; when it splits into records, these are classified, the
    result is that of the resolver on them, and it holds one address per
    record when the recovery primitive does not fail. *)
Theorem signers_of_packed_blob (blob : list byte)
    (safe_transaction_hash : pyval)
    (safe_transaction : option (gmap string pyval))
    (chain_id safe_address call_data nonce : pyval) :
  is_none safe_transaction_hash = false ->
  let result :=
    get_safe_transaction_signers recover decode_call_data eip712_hash
      execTransaction_abi safe_transaction_type safe_transaction_keys
      (SigObj (PBytes blob)) safe_transaction_hash safe_transaction
      chain_id safe_address call_data nonce in
  match parse_safe_signatures (PBytes blob) with
  | Err e => result = Err e
  | OK recs =>
      result
      = _get_safe_transaction_signers recover (SigList recs)
          safe_transaction_hash
      /\ Forall classified recs
      /\ ((forall vrs, is_Some (recover safe_transaction_hash vrs)) ->
          exists addrs,
            result = OK addrs
            /\ List.length addrs = List.length recs)
  end.
Proof.
  intros Hh result.
  assert (Hres : result
                 = let* recs := parse_safe_signatures (PBytes blob) in
                   signers_loop recover safe_transaction_hash recs []).
  { unfold result, get_safe_transaction_signers. cbn [bind]. rewrite Hh.
    reflexivity. }
  pose proof (parse_safe_signatures_outcome blob) as Hout.
  destruct (parse_safe_signatures (PBytes blob)) as [recs | e];
    cbn [bind] in Hres; [| exact Hres].
  split; [exact Hres |].
  assert (Hcl : Forall classified recs).
  { apply Forall_lookup_2. intros i r Hi.
    destruct Hout as (_ & _ & Hrec & _). eexists. exact (Hrec i r Hi). }
  split; [exact Hcl |]. intros Htot.
  destruct (signers_loop_total recover safe_transaction_hash recs [] Hcl Htot)
    as [addrs Ha].
  exists addrs. rewrite Hres. split; [exact Ha |].
  apply (signers_loop_resolves recover safe_transaction_hash recs [] addrs)
    in Ha as (addrs' & Heq & HF).
  cbn [app] in Heq. subst addrs'. symmetry. exact (Forall2_length _ _ _ HF).
Qed.

End packed_blob.

Lemma signers_of_packed_blob_witness :
  get_safe_transaction_signers (fun _ _ => Some (PStr "0x01")) sample_decoder
    (fun _ (_ : unit) _ => None) tt tt ["to"; "value"; "nonce"]
    (SigObj (PBytes [x1b])) (PStr "0xaa") None PNone PNone PNone PNone
  = Err TruncatedSignatureError.
Proof.
  apply (signers_of_packed_blob (fun _ _ => Some (PStr "0x01")) sample_decoder
           (fun _ (_ : unit) _ => None) tt tt ["to"; "value"; "nonce"]
           [x1b] (PStr "0xaa") None PNone PNone PNone PNone eq_refl).
Defined.

(* ===================================================================== *)
(** * Block chunks *)
(* ===================================================================== *)

Lemma py_range_count (a k step : Z) :
  0 < step ->
  py_range a (a + k * step) step
  = map (fun i => a + Z.of_nat i * step) (seq 0 (Z.to_nat k)).
Proof.
  intros Hs. unfold py_range.
  replace (0 <? step) with true by (symmetry; apply Z.ltb_lt; lia).
  destruct (Z.ltb_spec a (a + k * step)) as [Hlt | Hge].
  - assert (Hk : 0 < k) by nia.
    replace ((a + k * step - a - 1) / step + 1) with k; [reflexivity |].
    assert (Hq : k - 1 = (a + k * step - a - 1) / step).
    { apply (Z.div_unique _ step (k - 1) (step - 1)); [left; lia | lia]. }
    lia.
  - assert (Hk : k <= 0) by nia.
    replace (Z.to_nat k) with 0%nat by lia. reflexivity.
Qed.

Lemma zip_consecutive (f : nat -> Z) (n : nat) :
  forall a,
    zip (map f (seq a n)) (map f (seq (S a) n))
    = map (fun i => (f i, f (S i))) (seq a n).
Proof.
  induction n as [|n IH]; intros a; [reflexivity |].
  cbn [seq map]. cbn. f_equal. apply IH.
Qed.

(** [zip(bounds[:-1], bounds[1:])] pairs each bound with the next. *)
Lemma zip_bounds (f : nat -> Z) (k : nat) :
  zip (removelast (map f (seq 0 k))) (drop 1 (map f (seq 0 k)))
  = map (fun i => (f i, f (S i))) (seq 0 (k - 1)).
Proof.
  destruct k as [|n]; [reflexivity |].
  assert (H1 : removelast (map f (seq 0 (S n))) = map f (seq 0 n)).
  { rewrite seq_S, map_app. apply removelast_last. }
  assert (H2 : drop 1 (map f (seq 0 (S n))) = map f (seq 1 n)) by reflexivity.
  rewrite H1, H2. replace (S n - 1)%nat with n by lia.
  apply zip_consecutive.
Qed.

(** The chunks before trimming, for a positive chunk size. *)
Lemma aligned_chunk_list (start_block end_block chunk_size : Z) :
  0 < chunk_size ->
  map (fun '(start, end_) => (start, end_ - 1))
    (zip
       (removelast
          (py_range (start_block / chunk_size * chunk_size)
             ((end_block / chunk_size + 1) * chunk_size + chunk_size)
             chunk_size))
       (drop 1
          (py_range (start_block / chunk_size * chunk_size)
             ((end_block / chunk_size + 1) * chunk_size + chunk_size)
             chunk_size)))
  = map (fun i =>
           aligned_chunk chunk_size (start_block / chunk_size + Z.of_nat i))
      (seq 0 (Z.to_nat (end_block / chunk_size
                        - start_block / chunk_size + 1))).
Proof.
  intros Hs.
  set (q0 := start_block / chunk_size). set (q1 := end_block / chunk_size).
  replace ((q1 + 1) * chunk_size + chunk_size)
    with (q0 * chunk_size + (q1 - q0 + 2) * chunk_size) by lia.
  rewrite py_range_count by exact Hs.
  rewrite zip_bounds, map_map.
  replace (Z.to_nat (q1 - q0 + 2) - 1)%nat with (Z.to_nat (q1 - q0 + 1)) by lia.
  apply map_ext. intros i. unfold aligned_chunk. f_equal; lia.
Qed.

(** X19.  For a positive chunk size and without trimming,
    [get_chunks_in_range] returns the aligned chunks of indices
    [start // size] to [end // size], in order: none when the end lies in
    an earlier chunk than the start. *)
Theorem get_chunks_in_range_aligned (start_block end_block chunk_size : Z) :
  0 < chunk_size ->
  get_chunks_in_range start_block end_block chunk_size false
  = Chunks
      (map (fun i =>
              aligned_chunk chunk_size (start_block / chunk_size + Z.of_nat i))
         (seq 0 (Z.to_nat (end_block / chunk_size
                           - start_block / chunk_size + 1)))).
Proof.
  intros Hs. unfold get_chunks_in_range.
  replace (chunk_size =? 0) with false by (symmetry; apply Z.eqb_neq; lia).
  cbv zeta. rewrite aligned_chunk_list by exact Hs. reflexivity.
Qed.

Lemma get_chunks_in_range_aligned_witness :
  get_chunks_in_range 5 35 10 false
  = Chunks [(0, 9); (10, 19); (20, 29); (30, 39)].
Proof.
  apply (get_chunks_in_range_aligned 5 35 10). lia.
Defined.

Lemma lookup_map_seq {A} (f : nat -> A) (n i : nat) :
  map f (seq 0 n) !! i = if decide (i < n)%nat then Some (f i) else None.
Proof.
  change (map f (seq 0 n)) with (f <$> seq 0 n). rewrite list_lookup_fmap.
  case_decide as Hi.
  - rewrite lookup_seq_lt by exact Hi. reflexivity.
  - rewrite lookup_ge_None_2; [reflexivity |]. rewrite length_seq. lia.
Qed.

(** Trimming a list of chunks that starts at or before [lo], ends at or
    after [hi] and is otherwise inside clips every chunk to the range. *)
Lemma trim_excess_chunks_clip (f : nat -> Z * Z) (n : nat) (lo hi : Z) :
  (1 <= n)%nat ->
  fst (f 0%nat) <= lo ->
  hi <= snd (f (n - 1)%nat) ->
  (forall i, (0 < i < n)%nat -> lo <= fst (f i)) ->
  (forall i, (i < n - 1)%nat -> snd (f i) <= hi) ->
  trim_excess_chunks (map f (seq 0 n)) lo hi
  = map (fun i => clip_chunk lo hi (f i)) (seq 0 n).
Proof.
  intros Hn Hfirst Hlast Hlo Hhi. unfold trim_excess_chunks.
  set (l := map f (seq 0 n)).
  assert (Hlen : List.length l = n)
    by (unfold l; rewrite length_map, length_seq; reflexivity).
  rewrite Hlen.
  replace (0 <? Z.of_nat n) with true by (symmetry; apply Z.ltb_lt; lia).
  assert (Hl0 : l !! 0%nat = Some (f 0%nat)).
  { unfold l. rewrite lookup_map_seq. case_decide; [reflexivity | lia]. }
  rewrite Hl0. destruct (f 0%nat) as [lo0 hi0] eqn:Hf0.
  cbn [fst snd] in Hfirst.
  set (l1 := <[0%nat := (lo, hi0)]> l).
  assert (Hl1 : (if lo0 <? lo then l1 else l) = l1).
  { destruct (Z.ltb_spec lo0 lo) as [_ | Hge]; [reflexivity |].
    unfold l1. symmetry. apply list_insert_id.
    rewrite Hl0. f_equal. f_equal. lia. }
  rewrite Hl1.
  assert (Hlen1 : List.length l1 = n)
    by (unfold l1; rewrite length_insert; exact Hlen).
  assert (Hl1i : forall i,
            l1 !! i = if decide (i < n)%nat
                      then Some (if decide (i = 0%nat) then (lo, hi0) else f i)
                      else None).
  { intros i. unfold l1. rewrite list_lookup_insert, Hlen.
    unfold l. rewrite lookup_map_seq.
    repeat case_decide; try reflexivity; try lia; destruct_and?; lia. }
  rewrite last_lookup, Hlen1.
  replace (Init.Nat.pred n) with (n - 1)%nat by lia.
  set (lo' := if decide (n = 1%nat) then lo else fst (f (n - 1)%nat)).
  set (hi' := snd (f (n - 1)%nat)).
  assert (Hlast1 : l1 !! (n - 1)%nat = Some (lo', hi')).
  { rewrite Hl1i. case_decide; [| lia]. f_equal. unfold lo', hi'.
    destruct (decide (n = 1%nat)) as [-> | Hn1].
    - cbn. rewrite Hf0. reflexivity.
    - case_decide; [lia |]. destruct (f (n - 1)%nat); reflexivity. }
  rewrite Hlast1.
  set (l2 := <[(n - 1)%nat := (lo', hi)]> l1).
  assert (Hl2 : (if hi' >? hi then l2 else l1) = l2).
  { destruct (Z.gtb_spec hi' hi) as [_ | Hle]; [reflexivity |].
    unfold l2. symmetry. apply list_insert_id.
    rewrite Hlast1. f_equal. f_equal. unfold hi' in *. lia. }
  rewrite Hl2. apply list_eq. intros i.
  unfold l2. rewrite list_lookup_insert, Hlen1, Hl1i, lookup_map_seq.
  destruct (decide (i < n)%nat) as [Hi | Hi];
    [| case_decide; [destruct_and?; lia | reflexivity]].
  assert (Hfst : fst (clip_chunk lo hi (f i))
                 = if decide (i = 0%nat) then lo else fst (f i)).
  { unfold clip_chunk. cbn [fst]. destruct (decide (i = 0%nat)) as [Hz | Hz].
    - subst i. rewrite Hf0. cbn [fst]. lia.
    - pose proof (Hlo i ltac:(lia)). lia. }
  assert (Hsnd : snd (clip_chunk lo hi (f i))
                 = if decide (i = (n - 1)%nat) then hi else snd (f i)).
  { unfold clip_chunk. cbn [snd].
    destruct (decide (i = (n - 1)%nat)) as [Hz | Hz].
    - subst i. lia.
    - pose proof (Hhi i ltac:(lia)). lia. }
  destruct (clip_chunk lo hi (f i)) as [a b]. cbn [fst snd] in Hfst, Hsnd.
  subst a b. unfold lo'.
  destruct (decide (i = (n - 1)%nat)) as [Hin | Hin].
  - destruct (decide ((n - 1)%nat = i /\ (n - 1 < n)%nat)) as [_ | Hd];
      [| exfalso; apply Hd; split; [congruence | lia]].
    f_equal. f_equal. subst i.
    destruct (decide (n = 1%nat)) as [Hn1 | Hn1];
      destruct (decide ((n - 1)%nat = 0%nat)) as [Hz | Hz];
      try lia; reflexivity.
  - destruct (decide ((n - 1)%nat = i /\ (n - 1 < n)%nat)) as [[Hd _] | _];
      [congruence |].
    f_equal. destruct (decide (i = 0%nat)) as [Hz | Hz].
    + subst i. rewrite Hf0. reflexivity.
    + destruct (f i); reflexivity.
Qed.

Lemma div_bounds (b size : Z) :
  0 < size -> b / size * size <= b < (b / size + 1) * size.
Proof.
  intros Hs. pose proof (Z.mul_div_le b size Hs).
  pose proof (Z.mul_succ_div_gt b size Hs). lia.
Qed.

(** A block lies in the aligned chunk of index [q] exactly when [q] is its
    floor quotient by the chunk size. *)
Lemma chunk_of_block (b size q : Z) :
  0 < size ->
  fst (aligned_chunk size q) <= b <= snd (aligned_chunk size q)
  <-> b / size = q.
Proof.
  intros Hs. unfold aligned_chunk. cbn [fst snd]. split.
  - intros Hb. symmetry.
    apply (Z.div_unique b size q (b - q * size)); [left; lia | lia].
  - intros <-. pose proof (div_bounds b size Hs). lia.
Qed.

(** Trimming the aligned chunks of a range clips each of them to it. *)
Lemma trim_aligned_chunks (start_block end_block chunk_size : Z) :
  0 < chunk_size ->
  trim_excess_chunks
    (map (fun i =>
            aligned_chunk chunk_size (start_block / chunk_size + Z.of_nat i))
       (seq 0 (Z.to_nat (end_block / chunk_size
                         - start_block / chunk_size + 1))))
    start_block end_block
  = map (fun i =>
           clip_chunk start_block end_block
             (aligned_chunk chunk_size
                (start_block / chunk_size + Z.of_nat i)))
      (seq 0 (Z.to_nat (end_block / chunk_size
                        - start_block / chunk_size + 1))).
Proof.
  intros Hs.
  pose proof (div_bounds start_block chunk_size Hs) as H0.
  pose proof (div_bounds end_block chunk_size Hs) as H1.
  set (q0 := start_block / chunk_size) in *.
  set (q1 := end_block / chunk_size) in *.
  destruct (Z.to_nat (q1 - q0 + 1)) as [|k] eqn:Hn; [reflexivity |].
  apply (trim_excess_chunks_clip
           (fun i => aligned_chunk chunk_size (q0 + Z.of_nat i)));
    unfold aligned_chunk; cbn [fst snd].
  - lia.
  - lia.
  - replace (q0 + Z.of_nat (S k - 1) + 1) with (q1 + 1) by lia. lia.
  - intros i Hi. nia.
  - intros i Hi. nia.
Qed.

(** X20.  For a positive chunk size and with trimming,
    [get_chunks_in_range] returns the aligned chunks of indices
    [start // size] to [end // size], each cut down to the blocks from
    [start_block] to [end_block]. *)
Theorem get_chunks_in_range_trimmed (start_block end_block chunk_size : Z) :
  0 < chunk_size ->
  get_chunks_in_range start_block end_block chunk_size true
  = Chunks
      (map (fun i =>
              clip_chunk start_block end_block
                (aligned_chunk chunk_size
                   (start_block / chunk_size + Z.of_nat i)))
         (seq 0 (Z.to_nat (end_block / chunk_size
                           - start_block / chunk_size + 1)))).
Proof.
  intros Hs. unfold get_chunks_in_range.
  replace (chunk_size =? 0) with false by (symmetry; apply Z.eqb_neq; lia).
  cbv zeta. rewrite aligned_chunk_list by exact Hs.
  rewrite trim_aligned_chunks by exact Hs. reflexivity.
Qed.

Lemma get_chunks_in_range_trimmed_witness :
  get_chunks_in_range 5 35 10 true
  = Chunks [(5, 9); (10, 19); (20, 29); (30, 35)].
Proof.
  apply (get_chunks_in_range_trimmed 5 35 10). lia.
Defined.

(** Either way the result lists, for the chunk indices from [start // size]
    to [end // size], the aligned chunk or its part in the range. *)
Lemma get_chunks_in_range_entries (start_block end_block chunk_size : Z)
    (trim_excess : bool) (l : list (Z * Z)) :
  0 < chunk_size ->
  get_chunks_in_range start_block end_block chunk_size trim_excess = Chunks l ->
  forall i c,
    l !! i = Some c <->
    (i < Z.to_nat (end_block / chunk_size - start_block / chunk_size + 1))%nat
    /\ c = (if trim_excess then clip_chunk start_block end_block
            else fun c => c)
             (aligned_chunk chunk_size
                (start_block / chunk_size + Z.of_nat i)).
Proof.
  intros Hs Hg i c. unfold get_chunks_in_range in Hg.
  replace (chunk_size =? 0) with false in Hg
    by (symmetry; apply Z.eqb_neq; lia).
  cbv zeta in Hg. rewrite aligned_chunk_list in Hg by exact Hs.
  destruct trim_excess.
  - rewrite trim_aligned_chunks in Hg by exact Hs. injection Hg as <-.
    rewrite lookup_map_seq. case_decide; split.
    + intros [= <-]. split; [assumption | reflexivity].
    + intros [_ ->]. reflexivity.
    + discriminate.
    + intros [Hi _]. contradiction.
  - injection Hg as <-.
    rewrite lookup_map_seq. case_decide; split.
    + intros [= <-]. split; [assumption | reflexivity].
    + intros [_ ->]. reflexivity.
    + discriminate.
    + intros [Hi _]. contradiction.
Qed.

(** X21.  For a positive chunk size, trimmed or not, the chunks of
    [get_chunks_in_range] follow one another without gap or overlap, and
    every block from [start_block] to [end_block] lies in exactly one of
    them. *)
Theorem chunks_partition_the_range (start_block end_block chunk_size : Z)
    (trim_excess : bool) (l : list (Z * Z)) :
  0 < chunk_size ->
  get_chunks_in_range start_block end_block chunk_size trim_excess = Chunks l ->
  (forall i c c',
      l !! i = Some c -> l !! S i = Some c' -> fst c' = snd c + 1)
  /\ (forall b,
        start_block <= b <= end_block ->
        exists i c,
          l !! i = Some c /\ fst c <= b <= snd c
          /\ forall j c',
               l !! j = Some c' -> fst c' <= b <= snd c' -> j = i).
Proof.
  intros Hs Hg.
  pose proof (get_chunks_in_range_entries _ _ _ _ _ Hs Hg) as Hl.
  pose proof (div_bounds start_block chunk_size Hs) as H0.
  pose proof (div_bounds end_block chunk_size Hs) as H1.
  set (q0 := start_block / chunk_size) in *.
  set (q1 := end_block / chunk_size) in *.
  split.
  - intros i c c' Hc Hc'. apply Hl in Hc as [Hi ->]. apply Hl in Hc' as [Hi' ->].
    destruct trim_excess; unfold clip_chunk, aligned_chunk; cbn [fst snd];
      nia.
  - intros b Hb.
    assert (Hq : q0 <= b / chunk_size <= q1)
      by (split; apply Z.div_le_mono; lia).
    pose proof (div_bounds b chunk_size Hs) as Hbq.
    exists (Z.to_nat (b / chunk_size - q0)). eexists. split; [| split].
    + apply Hl. split; [lia | reflexivity].
    + replace (q0 + Z.of_nat (Z.to_nat (b / chunk_size - q0)))
        with (b / chunk_size) by lia.
      destruct trim_excess; unfold clip_chunk, aligned_chunk; cbn [fst snd];
        lia.
    + intros j c' Hc' Hin. apply Hl in Hc' as [Hj ->].
      assert (Hj' : b / chunk_size = q0 + Z.of_nat j).
      { apply chunk_of_block; [exact Hs |].
        destruct trim_excess; [| exact Hin].
        unfold clip_chunk in Hin. cbn [fst snd] in Hin. lia. }
      lia.
Qed.

Lemma chunks_partition_the_range_witness :
  (forall i c c',
      [(5, 9); (10, 19); (20, 29); (30, 35)] !! i = Some c ->
      [(5, 9); (10, 19); (20, 29); (30, 35)] !! S i = Some c' ->
      fst c' = snd c + 1)
  /\ (forall b,
        5 <= b <= 35 ->
        exists i c,
          [(5, 9); (10, 19); (20, 29); (30, 35)] !! i = Some c
          /\ fst c <= b <= snd c
          /\ forall j c',
               [(5, 9); (10, 19); (20, 29); (30, 35)] !! j = Some c' ->
               fst c' <= b <= snd c' -> j = i).
Proof.
  apply (chunks_partition_the_range 5 35 10 true); [lia | reflexivity].
Defined.

(** X22.  With trimming, a positive chunk size and [start_block] at most
    [end_block], the result is not empty, none of its chunks is empty, none
    reaches outside the range or is longer than the chunk size, the first
    starts at [start_block] and the last ends at [end_block]. *)
Theorem trimmed_chunks_within_range (start_block end_block chunk_size : Z)
    (l : list (Z * Z)) :
  0 < chunk_size ->
  start_block <= end_block ->
  get_chunks_in_range start_block end_block chunk_size true = Chunks l ->
  (exists c, l !! 0%nat = Some c /\ fst c = start_block)
  /\ (exists c, last l = Some c /\ snd c = end_block)
  /\ forall i c,
       l !! i = Some c ->
       start_block <= fst c /\ fst c <= snd c /\ snd c <= end_block
       /\ snd c - fst c < chunk_size.
Proof.
  intros Hs Hle Hg.
  pose proof (get_chunks_in_range_entries _ _ _ _ _ Hs Hg) as Hl.
  pose proof (div_bounds start_block chunk_size Hs) as H0.
  pose proof (div_bounds end_block chunk_size Hs) as H1.
  assert (Hq : start_block / chunk_size <= end_block / chunk_size)
    by (apply Z.div_le_mono; lia).
  set (q0 := start_block / chunk_size) in *.
  set (q1 := end_block / chunk_size) in *.
  assert (Hlen : List.length l = Z.to_nat (q1 - q0 + 1)).
  { destruct (Nat.lt_total (List.length l) (Z.to_nat (q1 - q0 + 1)))
      as [Hlt | [Heq | Hgt]]; [| exact Heq |].
    - pose proof (proj2 (Hl (List.length l) _) (conj Hlt eq_refl)) as Hsome.
      apply lookup_lt_Some in Hsome. lia.
    - destruct (lookup_lt_is_Some_2 l (Z.to_nat (q1 - q0 + 1)) Hgt) as [c Hc].
      apply Hl in Hc as [Hc _]. lia. }
  split; [| split].
  - eexists. split; [apply Hl; split; [lia | reflexivity] |].
    unfold clip_chunk, aligned_chunk. cbn [fst snd]. lia.
  - eexists. split.
    + rewrite last_lookup, Hlen. apply Hl. split; [lia | reflexivity].
    + unfold clip_chunk, aligned_chunk. cbn [fst snd].
      replace (q0 + Z.of_nat (Init.Nat.pred (Z.to_nat (q1 - q0 + 1))) + 1)
        with (q1 + 1) by lia.
      lia.
  - intros i c Hc. apply Hl in Hc as [Hi ->].
    unfold clip_chunk, aligned_chunk. cbn [fst snd]. nia.
Qed.

Lemma trimmed_chunks_within_range_witness :
  (exists c, [(5, 9); (10, 19); (20, 29); (30, 35)] !! 0%nat = Some c
             /\ fst c = 5)
  /\ (exists c, last [(5, 9); (10, 19); (20, 29); (30, 35)] = Some c
               /\ snd c = 35)
  /\ forall i c,
       [(5, 9); (10, 19); (20, 29); (30, 35)] !! i = Some c ->
       5 <= fst c /\ fst c <= snd c /\ snd c <= 35 /\ snd c - fst c < 10.
Proof.
  apply (trimmed_chunks_within_range 5 35 10); [lia | lia | reflexivity].
Defined.

(* ===================================================================== *)
(** * The safe transaction of call data: failures *)
(* ===================================================================== *)

Lemma copy_parameters_failure (keys : list string)
    (parameters : gmap string pyval) (e : error) :
  forall acc : gmap string pyval,
    copy_parameters keys parameters acc = Err e
    <-> e = KeyError
        /\ exists key,
             key ∈ keys /\ key <> "nonce" /\ parameters !! key = None.
Proof.
  induction keys as [|k keys IH]; intros acc; cbn [copy_parameters].
  - split; [discriminate |]. intros (_ & key & Hin & _).
    apply elem_of_nil in Hin. contradiction.
  - destruct (String.eqb_spec k "nonce") as [-> | Hk]; cbn [negb].
    + rewrite IH. split; intros (He & key & Hin & Hn & Hl);
        (split; [exact He |]); exists key; (split; [| split; assumption]).
      * right. exact Hin.
      * apply elem_of_cons in Hin as [-> | Hin]; [contradiction | exact Hin].
    + unfold getitem. destruct (parameters !! k) as [v |] eqn:Hv; cbn [bind].
      * rewrite IH. split; intros (He & key & Hin & Hn & Hl);
          (split; [exact He |]); exists key; (split; [| split; assumption]).
        -- right. exact Hin.
        -- apply elem_of_cons in Hin as [-> | Hin]; [congruence | exact Hin].
      * split.
        -- intros [= <-]. split; [reflexivity |]. exists k.
           split; [left | split; assumption].
        -- intros (-> & _). reflexivity.
Qed.

Section call_data_failures.

Context {function_abi : Type}.
Context (decode_call_data : pyval -> function_abi -> option decoded).
Context (execTransaction_abi : function_abi).
Context (safe_transaction_keys : list string).

(** X23.  [get_safe_transaction_from_call_data] fails in two ways only:
    with the decoder's error when the call data does not decode, and with
    [KeyError] when it decodes but the decoded parameters lack a key of the
    safe transaction other than [nonce].  A missing [nonce] parameter and
    the value of the caller's nonce never make it fail. *)
Theorem safe_transaction_from_call_data_failure
    (call_data nonce : pyval) (e : error) :
  get_safe_transaction_from_call_data decode_call_data execTransaction_abi
    safe_transaction_keys call_data nonce = Err e
  <-> (decode_call_data call_data execTransaction_abi = None
       /\ e = DecodeError)
      \/ (exists d key,
            decode_call_data call_data execTransaction_abi = Some d
            /\ key ∈ safe_transaction_keys /\ key <> "nonce"
            /\ named_parameters d !! key = None
            /\ e = KeyError).
Proof.
  unfold get_safe_transaction_from_call_data.
  destruct (decode_call_data call_data execTransaction_abi) as [d |];
    cbn [external bind].
  - destruct (copy_parameters safe_transaction_keys (named_parameters d) ∅)
      as [tx | e'] eqn:Hc; cbn [bind].
    + split; [discriminate |].
      intros [[Hd _] | (d' & key & Hd & Hin & Hn & Hl & He)];
        [discriminate |].
      injection Hd as <-.
      assert (Hf : copy_parameters safe_transaction_keys (named_parameters d)
                     ∅ = Err KeyError).
      { apply copy_parameters_failure. split; [reflexivity |].
        exists key. split; [| split]; assumption. }
      congruence.
    + apply copy_parameters_failure in Hc as (-> & key & Hin & Hn & Hl).
      split.
      * intros [= <-]. right. exists d, key. repeat split; assumption.
      * intros [[Hd _] | (_ & _ & _ & _ & _ & _ & ->)];
          [discriminate | reflexivity].
  - split.
    + intros [= <-]. left. split; reflexivity.
    + intros [[_ ->] | (d & key & Hd & _)]; [reflexivity | discriminate].
Qed.

End call_data_failures.
